(** * Resonance backend: conversation store, context assembly, search
      fallback and the decoding loop

    A shallow embedding of [src/backend/chat_manager.py],
    [src/backend/search_service.py], [src/backend/model_service.py],
    [src/backend/schemas.py] and [src/backend/config.py], followed by the
    properties of that code.

    Conventions.
    - Python [int] is [Z]; [len] is a [nat] converted where it meets an [int].
    - Python [str] is [string]; case folding and whitespace are the ASCII
      ones, and a character is a byte: what is stated of [strip], [lower]
      and slices is stated for ASCII text.
    - Python [float] is idealised as a real number [R]; the values a tensor
      can hold that are not numbers (NaN, the infinities) are explicit
      constructors.  Where the outcome depends on rounding, in the greedy
      choice of a token, the softmax is the float32 one, every operation
      rounded to the nearest.
    - A method that mutates [self] is a computation in the state-and-exception
      monad [M]; an exception leaves the state as it was when it was raised.
    - The tokenizer, the neural network and the web search client are not
      part of the repository: they are parameters. *)

From Stdlib Require Import ZArith String Ascii List Bool Lia Arith.
From Stdlib Require Import Sorting.Sorted.
From Stdlib Require Import Reals Lra.
From Stdlib Require Import DecimalString.
Import ListNotations.

Set Implicit Arguments.

Local Open Scope Z_scope.
Local Open Scope list_scope.

Infix "+:+" := String.append (at level 60, right associativity).

(* ===================================================================== *)
(** ** Python preliminaries *)
(* ===================================================================== *)

(** Exceptions the modelled code can raise.  [OtherError] stands for any
    other subclass of [Exception] coming from a library call. *)
Inductive exn : Type :=
| KeyError
| RuntimeError (msg : string)
| ValueError (msg : string)
| OtherError (msg : string).

Inductive result (A : Type) : Type :=
| Ok (a : A)
| Raise (e : exn).
Arguments Ok {A} a.
Arguments Raise {A} e.

(** State and exceptions. *)
Definition M (S A : Type) : Type := S -> result A * S.

Definition ret {S A} (a : A) : M S A := fun s => (Ok a, s).

Definition bind {S A B} (m : M S A) (k : A -> M S B) : M S B :=
  fun s =>
    match m s with
    | (Ok a, s') => k a s'
    | (Raise e, s') => (Raise e, s')
    end.

Definition raise {S A} (e : exn) : M S A := fun s => (Raise e, s).

Definition get_state {S} : M S S := fun s => (Ok s, s).

Definition put_state {S} (s : S) : M S unit := fun _ => (Ok tt, s).

(** [try: body except Exception as e: handler e] *)
Definition try_except {S A} (body : M S A) (handler : exn -> M S A) : M S A :=
  fun s =>
    match body s with
    | (Ok a, s') => (Ok a, s')
    | (Raise e, s') => handler e s'
    end.

Definition of_option {S A} (e : exn) (o : option A) : M S A :=
  match o with
  | Some a => ret a
  | None => raise e
  end.

(** Run a computation on a component of a larger state. *)
Definition zoom {S T A} (proj : T -> S) (upd : S -> T -> T) (m : M S A) : M T A :=
  fun t => let '(r, s') := m (proj t) in (r, upd s' t).

Declare Scope monad_scope.
Delimit Scope monad_scope with monad.
Notation "x <- c1 ;; c2" := (bind c1 (fun x => c2))
  (at level 100, c1 at next level, right associativity) : monad_scope.
Notation "' p <- c1 ;; c2" := (bind c1 (fun p => c2))
  (at level 100, p pattern, c1 at next level, right associativity) : monad_scope.
Notation "c1 ;; c2" := (bind c1 (fun _ => c2))
  (at level 100, right associativity) : monad_scope.
Local Open Scope monad_scope.

Module Py.

(** [l[i:]] for any integer [i]: a negative index counts from the end and
    both ends are clamped. *)
Definition slice_from {A} (i : Z) (l : list A) : list A :=
  let n := Z.of_nat (length l) in
  let start := if i <? 0 then Z.max (n + i) 0 else Z.min i n in
  skipn (Z.to_nat start) l.

(** [x or d] on integers, where [None] and [0] are falsy. *)
Definition int_or (x : option Z) (d : Z) : Z :=
  match x with
  | Some v => if v =? 0 then d else v
  | None => d
  end.

(** Truthiness of a string. *)
Definition truthy (s : string) : bool :=
  match s with
  | EmptyString => false
  | String _ _ => true
  end.

Definition nl : string := String (ascii_of_nat 10) EmptyString.
Definition dquote : string := String (ascii_of_nat 34) EmptyString.

(** [sep.join(parts)] *)
Fixpoint join (sep : string) (parts : list string) : string :=
  match parts with
  | [] => EmptyString
  | [p] => p
  | p :: rest => p +:+ sep +:+ join sep rest
  end.

Definition lower_ascii (c : ascii) : ascii :=
  let n := nat_of_ascii c in
  if ((65 <=? n) && (n <=? 90))%nat then ascii_of_nat (n + 32) else c.

(** [s.lower()] on ASCII text: the letters A to Z are lowered, every other
    character is kept. *)
Fixpoint lower (s : string) : string :=
  match s with
  | EmptyString => EmptyString
  | String c r => String (lower_ascii c) (lower r)
  end.

(** [s.startswith(p)] *)
Fixpoint startswith (p s : string) : bool :=
  match p, s with
  | EmptyString, _ => true
  | String a p', String b s' => Ascii.eqb a b && startswith p' s'
  | String _ _, EmptyString => false
  end.

(** [p in s] for strings *)
Fixpoint contains (p s : string) : bool :=
  startswith p s ||
  match s with
  | EmptyString => false
  | String _ s' => contains p s'
  end.

(** The whitespace of [str.strip()] and [str.split()] among the ASCII
    characters: 9 to 13 and 28 to 32. *)
Definition is_space (c : ascii) : bool :=
  let n := nat_of_ascii c in
  ((9 <=? n) && (n <=? 13) || (28 <=? n) && (n <=? 32))%nat.

Fixpoint lstrip (s : string) : string :=
  match s with
  | EmptyString => EmptyString
  | String c r => if is_space c then lstrip r else s
  end.

Fixpoint rstrip (s : string) : string :=
  match s with
  | EmptyString => EmptyString
  | String c r =>
      match rstrip r with
      | EmptyString => if is_space c then EmptyString else String c EmptyString
      | r' => String c r'
      end
  end.

(** [s.strip()] *)
Definition strip (s : string) : string := rstrip (lstrip s).

(** [s[n:]] for [0 <= n], on ASCII text, where a character is a byte *)
Fixpoint drop (n : nat) (s : string) : string :=
  match n, s with
  | O, _ => s
  | S n', String _ r => drop n' r
  | S _, EmptyString => EmptyString
  end.

(** [s[:n]] for [0 <= n], on ASCII text, where a character is a byte *)
Fixpoint take (n : nat) (s : string) : string :=
  match n, s with
  | O, _ => EmptyString
  | S n', String c r => String c (take n' r)
  | S _, EmptyString => EmptyString
  end.

End Py.

(** [collections.OrderedDict] with string keys: an association list in
    insertion order, oldest first, in which every key occurs once. *)
Module OrderedDict.
Section Dict.
Variable V : Type.

Definition t : Type := list (string * V).

Definition keys (d : t) : list string := map fst d.

(** [k in d] *)
Fixpoint contains (k : string) (d : t) : bool :=
  match d with
  | [] => false
  | (k', _) :: r => String.eqb k k' || contains k r
  end.

(** [d[k]], [None] standing for [KeyError] *)
Fixpoint getitem (k : string) (d : t) : option V :=
  match d with
  | [] => None
  | (k', v) :: r => if String.eqb k k' then Some v else getitem k r
  end.

(** the entries left by [del d[k]] *)
Fixpoint remove (k : string) (d : t) : t :=
  match d with
  | [] => []
  | (k', v) :: r => if String.eqb k k' then r else (k', v) :: remove k r
  end.

(** [d[k] = v]: a present key keeps its position, a new key goes last *)
Fixpoint setitem (k : string) (v : V) (d : t) : t :=
  match d with
  | [] => [(k, v)]
  | (k', v') :: r =>
      if String.eqb k k' then (k, v) :: r else (k', v') :: setitem k v r
  end.

(** [d.move_to_end(k)], [None] standing for [KeyError] *)
Definition move_to_end (k : string) (d : t) : option t :=
  match getitem k d with
  | Some v => Some (remove k d ++ [(k, v)])
  | None => None
  end.

(** [d.popitem(last=False)], [None] standing for [KeyError] *)
Definition popitem_first (d : t) : option ((string * V) * t) :=
  match d with
  | [] => None
  | kv :: r => Some (kv, r)
  end.

(** [del d[k]], [None] standing for [KeyError] *)
Definition delitem (k : string) (d : t) : option t :=
  if contains k d then Some (remove k d) else None.

End Dict.
End OrderedDict.

(* ===================================================================== *)
(** ** schemas.py *)
(* ===================================================================== *)

Record SearchResult : Type := {
  sr_title : string;
  sr_url : string;
  sr_snippet : string
}.

(** [Literal["system", "user", "assistant"]] *)
Inductive Role : Type := system | user | assistant.

Definition role_str (r : Role) : string :=
  match r with
  | system => "system"
  | user => "user"
  | assistant => "assistant"
  end.

Definition Role_eqb (a b : Role) : bool :=
  match a, b with
  | system, system | user, user | assistant, assistant => true
  | _, _ => false
  end.

(** A [datetime] is a point on an integer clock. *)
Definition datetime : Type := Z.

Record ChatMessage : Type := {
  role : Role;
  content : string;
  timestamp : option datetime;
  sources : option (list SearchResult)
}.

(** The record behind [ChatMessage(role=r, content=c)], validation apart *)
Definition mkMessage (r : Role) (c : string) : ChatMessage :=
  {| role := r; content := c; timestamp := None; sources := None |}.

(** The validator [content_not_empty]: the content is stored stripped, and
    a content that is empty or blank is refused. *)
Definition content_not_empty (v : string) : result string :=
  if negb (Py.truthy v) || negb (Py.truthy (Py.strip v))
  then Raise (ValueError "Message content cannot be empty")
  else Ok (Py.strip v).

(** [ChatMessage(role=r, content=c)], which runs the validator *)
Definition ChatMessage_new (r : Role) (c : string) : result ChatMessage :=
  match content_not_empty c with
  | Ok c' => Ok (mkMessage r c')
  | Raise e => Raise e
  end.

(** A message as the validator leaves it. *)
Definition validated (m : ChatMessage) : Prop :=
  content_not_empty (content m) = Ok (content m).

(* ===================================================================== *)
(** ** chat_manager.py: ConversationStore *)
(* ===================================================================== *)

Module ConversationStore.

(** [max_sessions] counts sessions; [ChatManager] creates its store with
    the default of 1000. *)
Record t : Type := {
  sessions : OrderedDict.t (list ChatMessage);
  max_sessions : nat
}.

(** [ConversationStore(max_sessions)] *)
Definition init (max_sessions : nat) : t :=
  {| sessions := []; max_sessions := max_sessions |}.

Definition set_sessions (d : OrderedDict.t (list ChatMessage)) (self : t) : t :=
  {| sessions := d; max_sessions := max_sessions self |}.

Definition modify_sessions
    (f : OrderedDict.t (list ChatMessage) -> option (OrderedDict.t (list ChatMessage)))
  : M t unit :=
  self <- get_state ;;
  d <- of_option KeyError (f (sessions self)) ;;
  put_state (set_sessions d self).

(** [if message.timestamp is None: message.timestamp = datetime.now()].
    The message object is shared with the caller, who sees the stamp. *)
Definition backfill_timestamp (now : datetime) (message : ChatMessage) : ChatMessage :=
  match timestamp message with
  | None => {| role := role message; content := content message;
               timestamp := Some now; sources := sources message |}
  | Some _ => message
  end.

Definition get (session_id : string) : M t (list ChatMessage) :=
  self <- get_state ;;
  if OrderedDict.contains session_id (sessions self) then
    modify_sessions (OrderedDict.move_to_end session_id) ;;
    self <- get_state ;;
    of_option KeyError (OrderedDict.getitem session_id (sessions self))
  else ret [].

Definition add_message (session_id : string) (message : ChatMessage) (now : datetime)
  : M t unit :=
  self <- get_state ;;
  (if negb (OrderedDict.contains session_id (sessions self)) then
     (if (max_sessions self <=? length (sessions self))%nat then
        modify_sessions (fun d => option_map snd (OrderedDict.popitem_first d))
      else ret tt) ;;
     modify_sessions (fun d => Some (OrderedDict.setitem session_id [] d))
   else ret tt) ;;
  modify_sessions (OrderedDict.move_to_end session_id) ;;
  let message := backfill_timestamp now message in
  modify_sessions (fun d =>
    match OrderedDict.getitem session_id d with
    | Some l => Some (OrderedDict.setitem session_id (l ++ [message]) d)
    | None => None
    end).

Definition clear (session_id : string) : M t bool :=
  self <- get_state ;;
  if OrderedDict.contains session_id (sessions self) then
    modify_sessions (OrderedDict.delitem session_id) ;;
    ret true
  else ret false.

Definition get_all_sessions : M t (list string) :=
  self <- get_state ;;
  ret (OrderedDict.keys (sessions self)).

(** The calls a client can make, and a run of them.  A call that raises
    leaves the store as the exception found it. *)
Inductive op : Type :=
| Get (session_id : string)
| AddMessage (session_id : string) (message : ChatMessage) (now : datetime)
| Clear (session_id : string).

Definition exec (o : op) (self : t) : t :=
  match o with
  | Get sid => snd (get sid self)
  | AddMessage sid m now => snd (add_message sid m now self)
  | Clear sid => snd (clear sid self)
  end.

Definition run (ops : list op) (self : t) : t :=
  fold_left (fun s o => exec o s) ops self.

(** Specification vocabulary: which session a call touches, and the
    position in the run of the last call that touched a session.  A [get] of
    an id that is not stored touches nothing, but it is counted here all the
    same: for a session that is stored, the last call that names it found
    it in the store or created it, since only [add_message] creates a
    session. *)
Definition touches (o : op) (sid : string) : bool :=
  match o with
  | Get s => String.eqb s sid
  | AddMessage s _ _ => String.eqb s sid
  | Clear _ => false
  end.

Fixpoint last_touch_from (i : nat) (ops : list op) (sid : string) (acc : option nat)
  : option nat :=
  match ops with
  | [] => acc
  | o :: r => last_touch_from (S i) r sid (if touches o sid then Some i else acc)
  end.

Definition last_touch (ops : list op) (sid : string) : option nat :=
  last_touch_from 0 ops sid None.

(** [a] was last touched strictly before [b] *)
Definition touched_before (ops : list op) (a b : string) : Prop :=
  exists i j, last_touch ops a = Some i /\ last_touch ops b = Some j /\ (i < j)%nat.

End ConversationStore.

(* ===================================================================== *)
(** ** config.py *)
(* ===================================================================== *)

(** The integer, boolean and list settings.  Each is read from the
    environment at start-up, so the code is verified for every value and
    [default_config] gives the defaults. *)
Record Config : Type := {
  MAX_CONTEXT_TOKENS : Z;
  DEFAULT_MAX_TOKENS : Z;
  SEARCH_ENABLED : bool;
  SEARCH_MAX_RESULTS : Z;
  SEARCH_RETRY_ATTEMPTS : Z;
  SEARCH_TRIGGER_KEYWORDS : list string;
  GPT2_BLOCK_SIZE : Z;
  GPT2_EOS_TOKEN_ID : Z
}.

Definition default_config : Config := {|
  MAX_CONTEXT_TOKENS := 1024;
  DEFAULT_MAX_TOKENS := 256;
  SEARCH_ENABLED := true;
  SEARCH_MAX_RESULTS := 3;
  SEARCH_RETRY_ATTEMPTS := 2;
  SEARCH_TRIGGER_KEYWORDS :=
    [ "search"; "browse"; "google"; "internet"; "lookup"; "find online";
      "stock"; "price"; "today"; "current"; "latest"; "now"; "weather";
      "news"; "score"; "rate"; "live"; "recent"; "update"; "2024"; "2025";
      "who is"; "what is the current"; "how much" ]%string;
  GPT2_BLOCK_SIZE := 1024;
  GPT2_EOS_TOKEN_ID := 50256
|}.

(** The floating-point settings. *)
Record SamplingConfig : Type := {
  DEFAULT_TEMPERATURE : R;
  DEFAULT_TOP_P : R;
  REPETITION_PENALTY : R
}.

Definition default_sampling : SamplingConfig := {|
  DEFAULT_TEMPERATURE := (7 / 10)%R;
  DEFAULT_TOP_P := (9 / 10)%R;
  REPETITION_PENALTY := (115 / 100)%R
|}.

(** [range(n)] *)
Definition range (n : Z) : list Z :=
  map Z.of_nat (seq 0 (Z.to_nat n)).

(* ===================================================================== *)
(** ** search_service.py *)
(* ===================================================================== *)

Module SearchService.

(** One search hit: a dict whose keys ["title"], ["href"] and ["body"] may
    be missing. *)
Record hit : Type := {
  h_title : option string;
  h_href : option string;
  h_body : option string
}.

Inductive backend : Type := default_backend | lite.

Inductive outcome : Type :=
| Returns (hits : list hit)
| Fails (e : exn).

(** The DuckDuckGo client, outside the repository.  Its answers may change
    from one call to the next, so they are indexed by the number of calls
    made before. *)
Record Web : Type := {
  ddgs_new : nat -> option exn;
  ddgs_text : nat -> string -> Z -> backend -> outcome
}.

Record t : Type := {
  _ddgs : bool;
  _available : bool;
  calls : nat
}.

(** [SearchService()] *)
Definition init : t := {| _ddgs := false; _available := true; calls := 0 |}.

Section WithWeb.
Variable cfg : Config.
Variable web : Web.

(** property [ddgs]: lazy construction of the client *)
Definition ddgs : M t unit :=
  self <- get_state ;;
  if _ddgs self then ret tt
  else
    match ddgs_new web (calls self) with
    | None =>
        put_state {| _ddgs := true; _available := _available self;
                     calls := S (calls self) |}
    | Some e =>
        put_state {| _ddgs := false; _available := false;
                     calls := S (calls self) |} ;;
        raise e
    end.

(** [list(self.ddgs.text(query, max_results=..., backend=...))] *)
Definition ddgs_text_call (query : string) (max_results : Z) (b : backend)
  : M t (list hit) :=
  ddgs ;;
  self <- get_state ;;
  put_state {| _ddgs := _ddgs self; _available := _available self;
               calls := S (calls self) |} ;;
  match ddgs_text web (calls self) query max_results b with
  | Returns hits => ret hits
  | Fails e => raise e
  end.

(** property [is_available] *)
Definition is_available (self : t) : bool :=
  _available self && SEARCH_ENABLED cfg.

Definition prefixes_to_remove : list string :=
  [ "can you tell me"; "please tell me"; "i want to know";
    "what do you know about"; "search for"; "look up"; "find out" ]%string.

Fixpoint strip_first_prefix (prefixes : list string) (clean : string) : string :=
  match prefixes with
  | [] => clean
  | prefix :: rest =>
      if Py.startswith prefix clean
      then Py.strip (Py.drop (String.length prefix) clean)
      else strip_first_prefix rest clean
  end.

Definition _clean_query (query : string) : string :=
  let clean := Py.strip (Py.lower query) in
  let clean := strip_first_prefix prefixes_to_remove clean in
  if Py.truthy clean then clean else query.

Definition field_truthy (o : option string) : bool :=
  match o with
  | Some s => Py.truthy s
  | None => false
  end.

Definition field_or (o : option string) (d : string) : string :=
  match o with
  | Some s => s
  | None => d
  end.

Fixpoint _validate_results (results : list hit) : list hit :=
  match results with
  | [] => []
  | res :: rest =>
      match h_title res, h_href res, h_body res with
      | Some ti, Some hr, Some bo =>
          if Py.truthy ti && Py.truthy hr && Py.truthy bo
          then {| h_title := Some (Py.strip ti);
                  h_href := Some (Py.strip hr);
                  h_body := Some (Py.take 500 (Py.strip bo)) |}
               :: _validate_results rest
          else _validate_results rest
      | _, _, _ => _validate_results rest
      end
  end.

Definition nonempty {A} (l : list A) : bool :=
  match l with
  | [] => false
  | _ :: _ => true
  end.

(** The retry loop.  [Some r] is a [return r] from inside the loop,
    [None] is the loop running to its end.  [time.sleep] has no effect
    on the state. *)
Fixpoint search_loop (attempts : list Z) (clean_query : string) (max_results : Z)
  : M t (option (list hit)) :=
  match attempts with
  | [] => ret None
  | attempt :: rest =>
      r <- try_except
             (results <- ddgs_text_call clean_query max_results default_backend ;;
              if nonempty results then ret (Some (_validate_results results))
              else if attempt =? 0 then
                results <- ddgs_text_call clean_query max_results lite ;;
                if nonempty results then ret (Some (_validate_results results))
                else ret None
              else ret None)
             (fun _ => ret None) ;;
      match r with
      | Some v => ret (Some v)
      | None => search_loop rest clean_query max_results
      end
  end.

Definition search (query : string) (max_results : option Z) : M t (list hit) :=
  self <- get_state ;;
  if negb (is_available self) then ret []
  else
    let max_results := Py.int_or max_results (SEARCH_MAX_RESULTS cfg) in
    let clean_query := _clean_query query in
    r <- search_loop (range (SEARCH_RETRY_ATTEMPTS cfg)) clean_query max_results ;;
    match r with
    | Some v => ret v
    | None => ret []
    end.

Definition decimal (n : nat) : string :=
  NilEmpty.string_of_uint (Nat.to_uint n).

Fixpoint format_parts (i : nat) (results : list hit) : list string :=
  match results with
  | [] => []
  | res :: rest =>
      [ "[Source " +:+ decimal i +:+ "]";
        "Title: " +:+ field_or (h_title res) "Unknown";
        "URL: " +:+ field_or (h_href res) "Unknown";
        "Content: " +:+ field_or (h_body res) "No content";
        EmptyString ]%string
      ++ format_parts (S i) rest
  end.

Definition format_results_for_prompt (results : list hit) : string :=
  if negb (nonempty results) then "No search results available."%string
  else
    Py.join Py.nl
      ([("=== WEB SEARCH RESULTS ===" +:+ Py.nl)%string]
       ++ format_parts 1 results
       ++ ["=== END SEARCH RESULTS ==="%string]).

Definition extract_sources_for_response (results : list hit) : list SearchResult :=
  map (fun res =>
         {| sr_title := field_or (h_title res) "Unknown";
            sr_url := field_or (h_href res) "#";
            sr_snippet := Py.take 200 (field_or (h_body res) EmptyString) |})
      results.

End WithWeb.
End SearchService.

(* ===================================================================== *)
(** ** model_service.py *)
(* ===================================================================== *)

Module ModelService.

(** An entry of a score tensor. *)
Inductive float : Type :=
| Fin (r : R)
| PosInf
| NegInf
| NaN.

(** [torch.nan_to_num(x, nan=0.0, posinf=100.0, neginf=-100.0)] *)
Definition nan_to_num (x : float) : R :=
  match x with
  | Fin r => r
  | PosInf => 100%R
  | NegInf => (-100)%R
  | NaN => 0%R
  end.

Record t : Type := { is_loaded : bool }.

(** One element of the stream: [(token_text, is_done, prompt_tokens,
    completion_tokens)]. *)
Record event : Type := {
  token_text : string;
  is_done : bool;
  ev_prompt_tokens : Z;
  ev_completion_tokens : Z
}.

Definition len {A} (l : list A) : Z := Z.of_nat (length l).

Definition sum_R (l : list R) : R := fold_right Rplus 0%R l.

(** [torch.softmax] of a vector none of whose entries is masked *)
Definition softmax (l : list R) : list R :=
  let s := sum_R (map exp l) in
  map (fun x => (exp x / s)%R) l.

(** [torch.softmax] of a vector in which [None] is a score of minus
    infinity *)
Definition softmax_masked (l : list (option R)) : list R :=
  let w := map (fun o => match o with Some x => exp x | None => 0%R end) l in
  let s := sum_R w in
  map (fun x => (x / s)%R) w.

(** Float32 arithmetic: a result is rounded to the nearest number with a
    significand of 24 bits, ties to the even one.  The range of the exponent
    is not bounded. *)
Definition nearest_even (r : R) : Z :=
  let f := Zfloor r in
  let d := (r - IZR f)%R in
  if Rlt_dec d (1 / 2) then f
  else if Rlt_dec (1 / 2) d then f + 1
  else if Z.even f then f else f + 1.

(** The exponent of [x] in base 2, for [x] that is not zero. *)
Definition exponent (x : R) : Z := Zfloor (ln (Rabs x) / ln 2).

Definition fl32 (x : R) : R :=
  if Req_dec_T x 0%R then 0%R
  else (IZR (nearest_even (x * powerRZ 2 (23 - exponent x)))
        * powerRZ 2 (exponent x - 23))%R.

(** The largest entry. *)
Definition max_R (l : list R) : R := fold_right Rmax (hd 0%R l) l.

(** The sum, accumulated from the left. *)
Definition sum32 (l : list R) : R := fold_left (fun a x => fl32 (a + x)) l 0%R.

(** [torch.softmax] of a float32 vector: the exponentials of the scores
    less the largest score, divided by their sum. *)
Definition softmax32 (l : list R) : list R :=
  let m := max_R l in
  let e := map (fun x => fl32 (exp (fl32 (x - m)))) l in
  let s := sum32 e in
  map (fun y => fl32 (y / s)) e.

(** [torch.argmax]: the first position holding the largest value *)
Fixpoint argmax_from (i best_i : Z) (best : R) (l : list R) : Z :=
  match l with
  | [] => best_i
  | x :: r =>
      if Rlt_dec best x then argmax_from (i + 1) i x r
      else argmax_from (i + 1) best_i best r
  end.

Definition argmax (l : list R) : Z :=
  match l with
  | [] => 0
  | x :: r => argmax_from 1 0 x r
  end.

(** [torch.sort(descending=True)] on a vector paired with its positions;
    torch leaves the order of equal scores open, here the later position
    comes first *)
Fixpoint insert_desc (p : Z * R) (l : list (Z * R)) : list (Z * R) :=
  match l with
  | [] => [p]
  | q :: r => if Rlt_dec (snd q) (snd p) then p :: l else q :: insert_desc p r
  end.

Fixpoint sort_desc (l : list (Z * R)) : list (Z * R) :=
  match l with
  | [] => []
  | p :: r => insert_desc p (sort_desc r)
  end.

Definition enumerate {A} (l : list A) : list (Z * A) :=
  combine (range (len l)) l.

(** [torch.cumsum] *)
Fixpoint cumsum_from (acc : R) (l : list R) : list R :=
  match l with
  | [] => []
  | x :: r => (acc + x)%R :: cumsum_from (acc + x)%R r
  end.

(** The nucleus filter, lines 150 to 156 of [generate]: the positions
    whose score is replaced by minus infinity. *)
Definition nucleus_removed (logits : list R) (top_p : R) : list Z :=
  let sorted := sort_desc (enumerate logits) in
  let sorted_logits := map snd sorted in
  let sorted_indices := map fst sorted in
  let cumulative_probs := cumsum_from 0%R (softmax sorted_logits) in
  let to_remove := map (fun c => if Rlt_dec top_p c then true else false)
                       cumulative_probs in
  let shifted := false :: removelast to_remove in
  map fst (filter snd (combine sorted_indices shifted)).

Definition nucleus_filter (logits : list R) (top_p : R) : list (option R) :=
  let removed := nucleus_removed logits top_p in
  map (fun ix => if existsb (Z.eqb (fst ix)) removed then None else Some (snd ix))
      (enumerate logits).

(** Lines 97 to 107. *)
Definition stop_markers : list string :=
  [ "### Instruction:"; "### Response:"; "User:"; "Assistant:" ]%string.

(** [text.split(marker)[0]] *)
Fixpoint before (marker text : string) : string :=
  if Py.startswith marker text then EmptyString
  else
    match text with
    | EmptyString => EmptyString
    | String c r => String c (before marker r)
    end.

(** [text.split()] *)
Fixpoint words_from (cur : string) (text : string) : list string :=
  match text with
  | EmptyString => if Py.truthy cur then [cur] else []
  | String c r =>
      if Py.is_space c
      then (if Py.truthy cur then cur :: words_from EmptyString r
            else words_from EmptyString r)
      else words_from (cur +:+ String c EmptyString) r
  end.

Definition _clean_response (text : string) : string :=
  let text :=
    fold_left (fun text marker =>
                 if Py.contains marker text then before marker text else text)
              stop_markers text in
  let text := Py.join " " (words_from EmptyString text) in
  Py.strip text.

Section WithModel.
Variable cfg : Config.
Variable scfg : SamplingConfig.

(** The tokenizer ([tiktoken]), outside the repository. *)
Variable tokenizer_encode : string -> list Z.
Variable tokenizer_decode : list Z -> string.

(** The network, outside the repository: the scores, at the last
    position, of the next token after a context. *)
Variable model : list Z -> list float.

(** [torch.multinomial(probs, num_samples=1)], which draws from the
    generator of random numbers and advances it. *)
Variable RNG : Type.
Variable multinomial : list R -> RNG -> Z * RNG.

Definition encode (text : string) : list Z := tokenizer_encode text.

Definition decode (tokens : list Z) : string := tokenizer_decode tokens.

Definition count_tokens (text : string) : Z := len (encode text).

(** On the positions of the last 50 generated ids.  The source visits
    each distinct id once, in the order of a set, and every id it visits
    is a position of the vector. *)
Definition _apply_repetition_penalty (logits : list R) (generated_ids : list Z)
  : list R :=
  match generated_ids with
  | [] => logits
  | _ :: _ =>
      if Req_dec_T (REPETITION_PENALTY scfg) 1%R then logits
      else
        let recent := Py.slice_from (-50) generated_ids in
        map (fun ix =>
               let '(i, x) := ix in
               if existsb (Z.eqb i) recent then
                 if Rlt_dec 0%R x then (x / REPETITION_PENALTY scfg)%R
                 else (x * REPETITION_PENALTY scfg)%R
               else x)
            (enumerate logits)
  end.

(** Lines 131 to 133 of [generate], 199 to 201 of [generate_stream]. *)
Definition truncate_input (input_ids : list Z) (max_tokens : Z) : list Z :=
  let max_context := GPT2_BLOCK_SIZE cfg in
  if max_context - max_tokens <? len input_ids
  then Py.slice_from (- (max_context - max_tokens)) input_ids
  else input_ids.

(** Lines 146 to 164: the token chosen from the adjusted scores.  In the
    first branch the probabilities go to the sampler, which is a parameter;
    in the second the token is read off the probabilities, where two of them
    that rounding makes equal are a tie, so the softmax is the float32
    one. *)
Definition select_token (logits : list R) (temperature top_p : R)
  : M RNG Z :=
  if Rlt_dec 0%R temperature then
    let logits := map (fun x => (x / temperature)%R) logits in
    let logits :=
      if Rlt_dec top_p 1%R then nucleus_filter logits top_p
      else map Some logits in
    let probs := softmax_masked logits in
    fun g => let '(next_token, g') := multinomial probs g in (Ok next_token, g')
  else
    let probs := softmax32 logits in
    ret (argmax probs).

(** Lines 139 to 164: one pass through the body of the loop, up to the
    test for the end-of-sequence token. *)
Definition sampling_step (idx generated_ids : list Z) (temperature top_p : R)
  : M RNG Z :=
  let idx_cond := Py.slice_from (- GPT2_BLOCK_SIZE cfg) idx in
  let logits := map nan_to_num (model idx_cond) in
  let logits := _apply_repetition_penalty logits generated_ids in
  select_token logits temperature top_p.

(** [for _ in range(max_tokens)] of [generate]; the result is
    [generated_ids] when the loop ends. *)
Fixpoint generate_loop (steps : nat) (idx generated_ids : list Z)
    (temperature top_p : R) : M RNG (list Z) :=
  match steps with
  | O => ret generated_ids
  | S steps' =>
      token_id <- sampling_step idx generated_ids temperature top_p ;;
      if token_id =? GPT2_EOS_TOKEN_ID cfg then ret generated_ids
      else generate_loop steps' (idx ++ [token_id]) (generated_ids ++ [token_id])
                         temperature top_p
  end.

Definition float_or (x : option R) (d : R) : R :=
  match x with
  | Some v => v
  | None => d
  end.

Definition generate (self : t) (prompt : string) (max_tokens : option Z)
    (temperature top_p : option R) : M RNG (string * Z * Z) :=
  if negb (is_loaded self) then raise (RuntimeError "Model not loaded")
  else
    let max_tokens := Py.int_or max_tokens (DEFAULT_MAX_TOKENS cfg) in
    let temperature := float_or temperature (DEFAULT_TEMPERATURE scfg) in
    let top_p := float_or top_p (DEFAULT_TOP_P scfg) in
    let input_ids := encode prompt in
    let prompt_tokens := len input_ids in
    let input_ids := truncate_input input_ids max_tokens in
    generated_ids <- generate_loop (Z.to_nat max_tokens) input_ids []
                                   temperature top_p ;;
    let generated_text := decode generated_ids in
    let generated_text := _clean_response generated_text in
    ret (generated_text, prompt_tokens, len generated_ids).

(** [for _ in range(max_tokens) ... else] of [generate_stream]; the
    result is the sequence of values yielded. *)
Fixpoint stream_loop (steps : nat) (prompt_tokens : Z) (idx generated_ids : list Z)
    (temperature top_p : R) : M RNG (list event) :=
  match steps with
  | O =>
      ret [ {| token_text := EmptyString; is_done := true;
               ev_prompt_tokens := prompt_tokens;
               ev_completion_tokens := len generated_ids |} ]
  | S steps' =>
      token_id <- sampling_step idx generated_ids temperature top_p ;;
      if token_id =? GPT2_EOS_TOKEN_ID cfg then
        ret [ {| token_text := EmptyString; is_done := true;
                 ev_prompt_tokens := prompt_tokens;
                 ev_completion_tokens := len generated_ids |} ]
      else
        let generated_ids := generated_ids ++ [token_id] in
        let ev := {| token_text := decode [token_id]; is_done := false;
                     ev_prompt_tokens := prompt_tokens;
                     ev_completion_tokens := len generated_ids |} in
        rest <- stream_loop steps' prompt_tokens (idx ++ [token_id]) generated_ids
                            temperature top_p ;;
        ret (ev :: rest)
  end.

(** The values a consumer receives when it drains the generator. *)
Definition generate_stream (self : t) (prompt : string) (max_tokens : option Z)
    (temperature top_p : option R) : M RNG (list event) :=
  if negb (is_loaded self) then raise (RuntimeError "Model not loaded")
  else
    let max_tokens := Py.int_or max_tokens (DEFAULT_MAX_TOKENS cfg) in
    let temperature := float_or temperature (DEFAULT_TEMPERATURE scfg) in
    let top_p := float_or top_p (DEFAULT_TOP_P scfg) in
    let input_ids := encode prompt in
    let prompt_tokens := len input_ids in
    let input_ids := truncate_input input_ids max_tokens in
    stream_loop (Z.to_nat max_tokens) prompt_tokens input_ids [] temperature top_p.

End WithModel.
End ModelService.

(* ===================================================================== *)
(** ** chat_manager.py: ChatManager *)
(* ===================================================================== *)

Module ChatManager.

Definition DEFAULT_SYSTEM : string :=
  "You are a helpful AI assistant. Be concise and accurate. "
  +:+ "If you don't know something, say so honestly.".

Definition SEARCH_SYSTEM : string :=
  "You are a helpful AI assistant with access to web search results. "
  +:+ "IMPORTANT: Base your answer ONLY on the search results provided below. "
  +:+ "Do NOT make up information. If the search results don't contain the answer, say so.".

(** The module-level objects the manager works on: its own store and the
    search service. *)
Record World : Type := {
  store : ConversationStore.t;
  search_service : SearchService.t
}.

Definition on_store {A} (m : M ConversationStore.t A) : M World A :=
  zoom store (fun s w => {| store := s; search_service := search_service w |}) m.

Definition on_search {A} (m : M SearchService.t A) : M World A :=
  zoom search_service (fun s w => {| store := store w; search_service := s |}) m.

(** [ChatManager()] beside a fresh search service *)
Definition init : World :=
  {| store := ConversationStore.init 1000; search_service := SearchService.init |}.

Section WithCollaborators.
Variable cfg : Config.
Variable web : SearchService.Web.

(** The tokenizer behind [model_service.count_tokens]. *)
Variable tokenizer_encode : string -> list Z.

Definition count_tokens (text : string) : Z :=
  ModelService.count_tokens tokenizer_encode text.

Definition _should_search (query : string) : bool :=
  if negb (SEARCH_ENABLED cfg) then false
  else
    let query_lower := Py.lower query in
    existsb (fun keyword => Py.contains keyword query_lower)
            (SEARCH_TRIGGER_KEYWORDS cfg).

Fixpoint history_parts (messages : list ChatMessage) : list string :=
  match messages with
  | [] => []
  | msg :: rest =>
      match role msg with
      | user => ("User: " +:+ content msg) :: history_parts rest
      | assistant => ("Assistant: " +:+ content msg) :: history_parts rest
      | system => history_parts rest
      end
  end.

Definition _build_history_context (messages : list ChatMessage) : string :=
  match messages with
  | [] => EmptyString
  | _ :: _ =>
      match history_parts messages with
      | [] => EmptyString
      | parts =>
          "Previous conversation:" +:+ Py.nl +:+ Py.join Py.nl parts
          +:+ Py.nl +:+ Py.nl
      end
  end.

(** Lines 111 to 120: the loop that separates the instruction from the
    history.  The state is [(last_user_msg, history_msgs)]. *)
Fixpoint split_turns (messages : list ChatMessage) (last_user_msg : string)
    (history_msgs : list ChatMessage) : result (string * list ChatMessage) :=
  match messages with
  | [] => Ok (last_user_msg, history_msgs)
  | msg :: rest =>
      match role msg with
      | user =>
          if Py.truthy last_user_msg then
            match ChatMessage_new user last_user_msg with
            | Ok m => split_turns rest (content msg) (history_msgs ++ [m])
            | Raise e => Raise e
            end
          else split_turns rest (content msg) history_msgs
      | assistant => split_turns rest last_user_msg (history_msgs ++ [msg])
      | system => split_turns rest last_user_msg history_msgs
      end
  end.

Definition grounded_template (search_results history_context last_user_msg : string)
  : string :=
  SEARCH_SYSTEM +:+ Py.nl +:+ Py.nl
  +:+ "### Search Results:" +:+ Py.nl +:+ search_results +:+ Py.nl +:+ Py.nl
  +:+ history_context
  +:+ "### User Question:" +:+ Py.nl +:+ last_user_msg +:+ Py.nl +:+ Py.nl
  +:+ "### Instructions:" +:+ Py.nl
  +:+ "1. Answer based ONLY on the search results above" +:+ Py.nl
  +:+ "2. Quote specific facts, numbers, or prices directly" +:+ Py.nl
  +:+ "3. Cite which source you used" +:+ Py.nl
  +:+ "4. If the answer isn't in the results, say " +:+ Py.dquote
  +:+ "I couldn't find that information" +:+ Py.dquote +:+ Py.nl +:+ Py.nl
  +:+ "### Response:" +:+ Py.nl.

Definition ungrounded_template (history_context last_user_msg : string) : string :=
  DEFAULT_SYSTEM +:+ Py.nl +:+ Py.nl
  +:+ history_context
  +:+ "### Instruction:" +:+ Py.nl +:+ last_user_msg +:+ Py.nl +:+ Py.nl
  +:+ "### Response:" +:+ Py.nl.

Definition _build_prompt (messages : list ChatMessage) (search_results : option string)
  : result string :=
  match split_turns messages EmptyString [] with
  | Raise e => Raise e
  | Ok (last_user_msg, history_msgs) =>
      let history_context := _build_history_context history_msgs in
      match search_results with
      | Some sr =>
          if Py.truthy sr
          then Ok (grounded_template sr history_context last_user_msg)
          else Ok (ungrounded_template history_context last_user_msg)
      | None => Ok (ungrounded_template history_context last_user_msg)
      end
  end.

(** [model_service.count_tokens(f"{msg.role}: {msg.content}")] *)
Definition msg_tokens (msg : ChatMessage) : Z :=
  count_tokens (role_str (role msg) +:+ ": " +:+ content msg).

(** Lines 169 to 175: the scan over [reversed(messages)];
    [selected.insert(0, msg)] puts [msg] in front. *)
Fixpoint truncate_loop (reversed : list ChatMessage) (available_tokens : Z)
    (current_tokens : Z) (selected : list ChatMessage) : list ChatMessage :=
  match reversed with
  | [] => selected
  | msg :: rest =>
      if current_tokens + msg_tokens msg <=? available_tokens
      then truncate_loop rest available_tokens
                         (current_tokens + msg_tokens msg) (msg :: selected)
      else selected
  end.

Definition _truncate_messages (messages : list ChatMessage) (max_tokens : Z)
  : list ChatMessage :=
  match messages with
  | [] => messages
  | _ :: _ =>
      let available_tokens := max_tokens - 200 in
      truncate_loop (rev messages) available_tokens 0 []
  end.

(** Lines 194 to 199.  [now i] is the clock when the [i]-th new message
    is stored; the message appended to [history] is the object the store
    stamps. *)
Fixpoint add_new_messages (session_id : string) (new_messages : list ChatMessage)
    (now : nat -> datetime) (i : nat)
    (history : list ChatMessage) (last_user_msg : option ChatMessage)
  : M World (list ChatMessage * option ChatMessage) :=
  match new_messages with
  | [] => ret (history, last_user_msg)
  | msg :: rest =>
      on_store (ConversationStore.add_message session_id msg (now i)) ;;
      let msg := ConversationStore.backfill_timestamp (now i) msg in
      add_new_messages session_id rest now (S i) (history ++ [msg])
        (match role msg with
         | user => Some msg
         | _ => last_user_msg
         end)
  end.

Definition lift_result {S A} (r : result A) : M S A :=
  match r with
  | Ok a => ret a
  | Raise e => raise e
  end.

Definition prepare_prompt (session_id : string) (new_messages : list ChatMessage)
    (max_tokens : option Z) (now : nat -> datetime)
  : M World (string * Z * option (list SearchResult) * bool) :=
  history <- on_store (ConversationStore.get session_id) ;;
  '(history, last_user_msg) <-
     add_new_messages session_id new_messages now 0 history None ;;
  '(search_results, sources, used_search) <-
     (match last_user_msg with
      | Some m =>
          if _should_search (content m) then
            results <- on_search (SearchService.search cfg web (content m) None) ;;
            if SearchService.nonempty results then
              ret (Some (SearchService.format_results_for_prompt results),
                   Some (SearchService.extract_sources_for_response results),
                   true)
            else ret (None, None, false)
          else ret (None, None, false)
      | None => ret (None, None, false)
      end) ;;
  let max_ctx := Py.int_or max_tokens (MAX_CONTEXT_TOKENS cfg) in
  let truncated := _truncate_messages history max_ctx in
  prompt <- lift_result (_build_prompt truncated search_results) ;;
  let token_count := count_tokens prompt in
  ret (prompt, token_count, sources, used_search).

Definition add_user_message (session_id content : string) (now : datetime)
  : M World ChatMessage :=
  message <- lift_result (ChatMessage_new user content) ;;
  on_store (ConversationStore.add_message session_id message now) ;;
  ret (ConversationStore.backfill_timestamp now message).

(** [sources] is the optional list given to the constructor. *)
Definition add_assistant_message (session_id content : string)
    (sources : option (list SearchResult)) (now : datetime) : M World ChatMessage :=
  content <- lift_result (content_not_empty content) ;;
  let message := {| role := assistant; content := content;
                    timestamp := None; sources := sources |} in
  on_store (ConversationStore.add_message session_id message now) ;;
  ret (ConversationStore.backfill_timestamp now message).

Definition get_conversation (session_id : string) : M World (list ChatMessage) :=
  on_store (ConversationStore.get session_id).

Definition clear_conversation (session_id : string) : M World bool :=
  on_store (ConversationStore.clear session_id).

Definition get_context_token_count (session_id : string) : M World Z :=
  messages <- on_store (ConversationStore.get session_id) ;;
  match messages with
  | [] => ret 0
  | _ :: _ =>
      prompt <- lift_result (_build_prompt messages None) ;;
      ret (count_tokens prompt)
  end.

End WithCollaborators.
End ChatManager.

(* ===================================================================== *)
(** ** Vocabulary of the properties *)
(* ===================================================================== *)

Unset Implicit Arguments.

Module CS := ConversationStore.
Module SS := SearchService.
Module MS := ModelService.
Module CM := ChatManager.

(** *** Recency in the store *)

(** The keys are in the order of their last touch, least recent first, and
    each has been touched. *)
Fixpoint lru_ordered (ops : list CS.op) (ks : list string) : Prop :=
  match ks with
  | [] => True
  | k :: r =>
      (exists i, CS.last_touch ops k = Some i) /\
      (forall k', In k' r -> CS.touched_before ops k k') /\
      lru_ordered ops r
  end.

(** What holds of the store after the calls [ops] on a store of capacity
    [cap]. *)
Record store_inv (cap : nat) (ops : list CS.op) (st : CS.t) : Prop := {
  inv_nodup : NoDup (OrderedDict.keys (CS.sessions st));
  inv_order : lru_ordered ops (OrderedDict.keys (CS.sessions st));
  inv_size : (length (CS.sessions st) <= cap)%nat;
  inv_cap : CS.max_sessions st = cap
}.

(** Sessions A then B are created, then A is read. *)
Definition ops_AB_getA : list CS.op :=
  [ CS.AddMessage "A" (mkMessage user "one") 1;
    CS.AddMessage "B" (mkMessage user "two") 2;
    CS.Get "A" ].

(** *** Token cost *)

(** The cumulative role-plus-content cost of a list of messages. *)
Definition total_cost (enc : string -> list Z) (msgs : list ChatMessage) : Z :=
  fold_right (fun m acc => CM.msg_tokens enc m + acc) 0 msgs.

(** A tokenizer with one token per character. *)
Definition char_codec (s : string) : list Z :=
  map (fun c => Z.of_nat (nat_of_ascii c)) (list_ascii_of_string s).

Fixpoint replicate (n : nat) (c : ascii) : string :=
  match n with
  | O => EmptyString
  | S n' => String c (replicate n' c)
  end.

(** A message that costs 300 with [char_codec]. *)
Definition three_hundred : ChatMessage :=
  mkMessage user (replicate 294 "a"%char).

Definition long_question : ChatMessage := mkMessage user (replicate 800 "a"%char).

Definition news_question : ChatMessage :=
  mkMessage user "what is the latest news today".

(** The message of [verify_api.py]. *)
Definition api_hello : ChatMessage := mkMessage user "Hello, how are you?".

Definition system_note : ChatMessage := mkMessage system "Answer in French.".

Definition turn_hi_hello_bye : list ChatMessage :=
  [ mkMessage user "hi"; mkMessage assistant "hello"; mkMessage user "bye" ].

(** *** A turn of the manager *)

(** The new messages as the store stamps them. *)
Fixpoint stamp_from (now : nat -> datetime) (i : nat) (msgs : list ChatMessage)
  : list ChatMessage :=
  match msgs with
  | [] => []
  | m :: r => CS.backfill_timestamp (now i) m :: stamp_from now (S i) r
  end.

(** What [store.get(session_id)] finds. *)
Definition stored_history (sid : string) (st : CS.t) : list ChatMessage :=
  match OrderedDict.getitem sid (CS.sessions st) with
  | Some l => l
  | None => []
  end.

(** The store of a manager before a turn of session [sid]: an ordered dict,
    of a capacity that is not zero, whose messages for [sid] went through
    the validator. *)
Record store_ready (sid : string) (st : CS.t) : Prop := {
  ready_nodup : NoDup (OrderedDict.keys (CS.sessions st));
  ready_room : (0 < CS.max_sessions st)%nat;
  ready_valid : forall l, OrderedDict.getitem sid (CS.sessions st) = Some l ->
                          Forall validated l
}.

Definition not_system (m : ChatMessage) : bool := negb (Role_eqb (role m) system).

(** The content of the most recent user message, after [last] if there is
    none. *)
Fixpoint last_user_content (last : string) (msgs : list ChatMessage) : string :=
  match msgs with
  | [] => last
  | m :: r =>
      match role m with
      | user => last_user_content (content m) r
      | _ => last_user_content last r
      end
  end.

(** The line a turn contributes to the rendered history. *)
Definition history_line (m : ChatMessage) : string :=
  match role m with
  | user => "User: " +:+ content m
  | assistant => "Assistant: " +:+ content m
  | system => EmptyString
  end.

(** *** Search that fails *)

(** Every call of the search client raises or returns no hit. *)
Definition all_attempts_fail (web : SS.Web) : Prop :=
  forall n q k b,
    SS.ddgs_text web n q k b = SS.Returns [] \/
    exists e, SS.ddgs_text web n q k b = SS.Fails e.

(** A client whose calls alternate between raising and returning no hit. *)
Definition web_down : SS.Web := {|
  SS.ddgs_new := fun _ => None;
  SS.ddgs_text := fun n _ _ _ =>
    if Nat.even n then SS.Fails (OtherError "timeout") else SS.Returns []
|}.

(** *** Greedy decoding *)

Section GreedyRun.
Variable cfg : Config.
Variable scfg : SamplingConfig.
Variable model : list Z -> list MS.float.



End GreedyRun.





(** A network with three tokens that prefers token 1, and a sampler that
    always draws token 0. *)
Definition toy_model (idx : list Z) : list MS.float :=
  [ MS.Fin 1%R; MS.Fin 2%R; MS.NaN ].

Definition toy_multinomial (probs : list R) (g : nat) : Z * nat := (0, S g).

Definition toy_decode (tokens : list Z) : string := replicate (length tokens) "t"%char.

Definition loaded : MS.t := {| MS.is_loaded := true |}.

(* ===================================================================== *)
(** ** Vocabulary of the further properties *)
(* ===================================================================== *)

(** *** Appends to one session *)

(** Messages appended one after the other to one session, each with the
    clock of its call. *)
Definition appends (sid : string) (ms : list (ChatMessage * datetime)) : list CS.op :=
  map (fun p => CS.AddMessage sid (fst p) (snd p)) ms.

Definition stamped (ms : list (ChatMessage * datetime)) : list ChatMessage :=
  map (fun p => CS.backfill_timestamp (snd p) (fst p)) ms.

(** *** A turn of the manager, continued *)

(** The new messages of a turn with the clock of their appends. *)
Fixpoint clocked (now : nat -> datetime) (i : nat) (msgs : list ChatMessage)
  : list (ChatMessage * datetime) :=
  match msgs with
  | [] => []
  | m :: r => (m, now i) :: clocked now (S i) r
  end.

(** The most recent user message of a list, after [last] if there is none. *)
Fixpoint last_user (last : option ChatMessage) (msgs : list ChatMessage)
  : option ChatMessage :=
  match msgs with
  | [] => last
  | m :: r =>
      match role m with
      | user => last_user (Some m) r
      | _ => last_user last r
      end
  end.

(** Whether a turn with these new messages asks for a search. *)
Definition turn_triggers_search (cfg : Config) (new : list ChatMessage) : bool :=
  match last_user None new with
  | Some m => CM._should_search cfg (content m)
  | None => false
  end.

Definition is_user (m : ChatMessage) : bool := Role_eqb (role m) user.

Definition is_assistant (m : ChatMessage) : bool := Role_eqb (role m) assistant.

(** A client whose every text call returns one hit. *)
Definition one_hit : SS.hit := {|
  SS.h_title := Some "Weather today"%string;
  SS.h_href := Some "https://example.org/weather"%string;
  SS.h_body := Some "  Sunny, 21 degrees.  "%string
|}.

Definition web_up : SS.Web := {|
  SS.ddgs_new := fun _ => None;
  SS.ddgs_text := fun _ _ _ _ => SS.Returns [one_hit]
|}.

(** Lines 206 to 215 of [prepare_prompt], for the last user message found
    among the new messages: the search results for the prompt, the sources
    and [used_search]. *)
Definition search_branch (cfg : Config) (web : SS.Web) (last_user_msg : option ChatMessage)
  : M CM.World (option string * option (list SearchResult) * bool) :=
  match last_user_msg with
  | Some m =>
      if CM._should_search cfg (content m) then
        bind (CM.on_search (SS.search cfg web (content m) None))
          (fun results =>
             if SS.nonempty results then
               ret (Some (SS.format_results_for_prompt results),
                    Some (SS.extract_sources_for_response results), true)
             else ret (None, None, false))
      else ret (None, None, false)
  | None => ret (None, None, false)
  end.

(** *** The search service *)

(** The service once its client is built, which costs one call when the
    client was not built before. *)
Definition built (s : SS.t) : SS.t :=
  if SS._ddgs s then s
  else {| SS._ddgs := true; SS._available := SS._available s; SS.calls := S (SS.calls s) |}.

(** The service after one more call of the client. *)
Definition ticked (s : SS.t) : SS.t :=
  {| SS._ddgs := SS._ddgs s; SS._available := SS._available s; SS.calls := S (SS.calls s) |}.

(** A hit with its three fields present and not empty. *)
Definition complete_hit (h : SS.hit) : bool :=
  SS.field_truthy (SS.h_title h) && SS.field_truthy (SS.h_href h)
  && SS.field_truthy (SS.h_body h).

(** A client that cannot be built at its first call. *)
Definition web_broken_once : SS.Web := {|
  SS.ddgs_new := fun n => match n with
                          | O => Some (OtherError "no network")
                          | S _ => None
                          end;
  SS.ddgs_text := fun _ _ _ _ => SS.Returns [one_hit]
|}.

(** From one state of the service to a later one the count of calls does
    not go down and the service does not become available again. *)
Definition later (s s' : SS.t) : Prop :=
  (SS.calls s <= SS.calls s')%nat /\
  (SS._available s' = true -> SS._available s = true).

(** The most calls one attempt can make: the client and the query, twice on
    the first attempt, which also tries the lite backend. *)
Definition attempt_calls (attempt : Z) : nat := if attempt =? 0 then 4%nat else 2%nat.

(** *** The stream of a generation *)

(** The values yielded for the tokens [ids] drawn after [count] earlier
    ones, and the value that ends the stream. *)
Fixpoint token_events (dec : list Z -> string) (prompt_tokens count : Z) (ids : list Z)
  : list MS.event :=
  match ids with
  | [] => []
  | t :: r =>
      {| MS.token_text := dec [t]; MS.is_done := false;
         MS.ev_prompt_tokens := prompt_tokens;
         MS.ev_completion_tokens := count + 1 |}
      :: token_events dec prompt_tokens (count + 1) r
  end.

Definition final_event (prompt_tokens count : Z) : MS.event :=
  {| MS.token_text := EmptyString; MS.is_done := true;
     MS.ev_prompt_tokens := prompt_tokens;
     MS.ev_completion_tokens := count |}.

(** *** A manager that holds one message *)

Definition world_after_hello : CM.World :=
  snd (CM.add_user_message "s1" "Hello" 1 CM.init).


(** *** ASCII text *)

(** Text made of ASCII characters alone.  On such text [str.strip],
    [str.lower] and the slices of Python are the functions of [Py]: the
    whitespace and the capital letters are the ASCII ones, and a character
    is a byte. *)
Definition ascii_char (c : ascii) : bool := (nat_of_ascii c <? 128)%nat.

Fixpoint is_ascii (s : string) : bool :=
  match s with
  | EmptyString => true
  | String c r => ascii_char c && is_ascii r
  end.

Definition ascii_field (o : option string) : bool :=
  match o with
  | Some s => is_ascii s
  | None => true
  end.

(** A hit whose fields, where present, are ASCII text. *)
Definition ascii_hit (h : SS.hit) : bool :=
  ascii_field (SS.h_title h) && ascii_field (SS.h_href h) && ascii_field (SS.h_body h).

(* ===================================================================== *)
(** ** Properties *)
(* ===================================================================== *)

Section DictFacts.
Context {V : Type}.
Implicit Types (d : OrderedDict.t V) (k : string) (v : V).

Lemma contains_In k d :
  OrderedDict.contains k d = true <-> In k (OrderedDict.keys d).
Proof.
  induction d as [|[k' v'] r IH]; simpl.
  - split; [discriminate | tauto].
  - rewrite orb_true_iff, IH, String.eqb_eq. intuition congruence.
Qed.

Lemma contains_false_In k d :
  OrderedDict.contains k d = false <-> ~ In k (OrderedDict.keys d).
Proof.
  rewrite <- contains_In. destruct (OrderedDict.contains k d); intuition congruence.
Qed.

Lemma getitem_contains k d :
  OrderedDict.contains k d = true <-> exists v, OrderedDict.getitem k d = Some v.
Proof.
  induction d as [|[k' v'] r IH]; simpl.
  - split; [discriminate | intros [? ?]; discriminate].
  - destruct (String.eqb k k'); simpl; [|exact IH].
    split; eauto.
Qed.

Lemma getitem_None k d :
  OrderedDict.contains k d = false <-> OrderedDict.getitem k d = None.
Proof.
  induction d as [|[k' v'] r IH]; simpl.
  - tauto.
  - destruct (String.eqb k k'); simpl; [|exact IH].
    split; discriminate.
Qed.

Lemma keys_app d1 d2 :
  OrderedDict.keys (d1 ++ d2) = OrderedDict.keys d1 ++ OrderedDict.keys d2.
Proof. apply map_app. Qed.

Lemma In_keys_remove x k d :
  In x (OrderedDict.keys (OrderedDict.remove k d)) -> In x (OrderedDict.keys d).
Proof.
  induction d as [|[k' v'] r IH]; simpl; [tauto|].
  destruct (String.eqb k k'); simpl; tauto.
Qed.

Lemma remove_absent k d :
  ~ In k (OrderedDict.keys d) -> OrderedDict.remove k d = d.
Proof.
  induction d as [|[k' v'] r IH]; simpl; [reflexivity|].
  intros H. destruct (String.eqb_spec k k') as [->|Hne]; [tauto|].
  f_equal. apply IH. tauto.
Qed.

Lemma NoDup_keys_remove k d :
  NoDup (OrderedDict.keys d) -> NoDup (OrderedDict.keys (OrderedDict.remove k d)).
Proof.
  induction d as [|[k' v'] r IH]; simpl; [auto|].
  intros H. inversion H as [|? ? Hn Hr]; subst.
  destruct (String.eqb k k'); simpl; [assumption|].
  constructor; [|auto]. intros Hin. apply Hn. eapply In_keys_remove; eauto.
Qed.

Lemma not_In_keys_remove k d :
  NoDup (OrderedDict.keys d) -> ~ In k (OrderedDict.keys (OrderedDict.remove k d)).
Proof.
  induction d as [|[k' v'] r IH]; simpl; [tauto|].
  intros H. inversion H as [|? ? Hn Hr]; subst.
  destruct (String.eqb_spec k k') as [->|Hne]; simpl; [assumption|].
  intros [E|Hin]; [congruence|]. exact (IH Hr Hin).
Qed.

Lemma In_keys_remove_iff x k d :
  NoDup (OrderedDict.keys d) ->
  In x (OrderedDict.keys (OrderedDict.remove k d)) <->
  In x (OrderedDict.keys d) /\ x <> k.
Proof.
  intros Hnd. split.
  - intros Hin. split; [eapply In_keys_remove; eauto|].
    intros ->. exact (@not_In_keys_remove k d Hnd Hin).
  - intros [Hin Hne]. clear Hnd.
    induction d as [|[k' v'] r IH]; simpl in *; [tauto|].
    destruct (String.eqb_spec k k') as [->|Hne']; simpl.
    + destruct Hin; [congruence|assumption].
    + destruct Hin; [left; assumption | right; auto].
Qed.

Lemma length_remove k d :
  OrderedDict.contains k d = true ->
  S (length (OrderedDict.remove k d)) = length d.
Proof.
  induction d as [|[k' v'] r IH]; simpl; [discriminate|].
  destruct (String.eqb k k'); simpl; [reflexivity|].
  intros H. rewrite IH; auto.
Qed.

Lemma setitem_absent k v d :
  ~ In k (OrderedDict.keys d) -> OrderedDict.setitem k v d = d ++ [(k, v)].
Proof.
  induction d as [|[k' v'] r IH]; simpl; [reflexivity|].
  intros H. destruct (String.eqb_spec k k') as [->|Hne]; [tauto|].
  f_equal. apply IH. tauto.
Qed.

Lemma setitem_last k v v0 d :
  ~ In k (OrderedDict.keys d) ->
  OrderedDict.setitem k v (d ++ [(k, v0)]) = d ++ [(k, v)].
Proof.
  induction d as [|[k' v'] r IH]; simpl.
  - rewrite String.eqb_refl. reflexivity.
  - intros H. destruct (String.eqb_spec k k') as [->|Hne]; [tauto|].
    f_equal. apply IH. tauto.
Qed.

Lemma getitem_last k v d :
  ~ In k (OrderedDict.keys d) ->
  OrderedDict.getitem k (d ++ [(k, v)]) = Some v.
Proof.
  induction d as [|[k' v'] r IH]; simpl.
  - rewrite String.eqb_refl. reflexivity.
  - intros H. destruct (String.eqb_spec k k') as [->|Hne]; [tauto|].
    apply IH. tauto.
Qed.

Lemma getitem_app_other k k' v d :
  k <> k' ->
  OrderedDict.getitem k (d ++ [(k', v)]) = OrderedDict.getitem k d.
Proof.
  intros Hne. induction d as [|[k0 v0] r IH]; simpl.
  - destruct (String.eqb_spec k k'); [congruence|reflexivity].
  - destruct (String.eqb k k0); auto.
Qed.

Lemma getitem_remove_other k k' d :
  k <> k' ->
  OrderedDict.getitem k (OrderedDict.remove k' d) = OrderedDict.getitem k d.
Proof.
  intros Hne. induction d as [|[k0 v0] r IH]; simpl; [reflexivity|].
  destruct (String.eqb_spec k' k0) as [->|Hne'].
  - destruct (String.eqb_spec k k0); [congruence|reflexivity].
  - simpl. destruct (String.eqb k k0); auto.
Qed.

Lemma remove_app_last k v d :
  ~ In k (OrderedDict.keys d) ->
  OrderedDict.remove k (d ++ [(k, v)]) = d.
Proof.
  induction d as [|[k' v'] r IH]; simpl.
  - rewrite String.eqb_refl. reflexivity.
  - intros H. destruct (String.eqb_spec k k') as [->|Hne]; [tauto|].
    f_equal. apply IH. tauto.
Qed.

End DictFacts.

Ltac run_monad :=
  cbv beta iota delta
    [bind ret raise get_state put_state of_option try_except zoom
     CS.modify_sessions CS.set_sessions option_map].

Lemma store_eta (st : CS.t) : CS.set_sessions (CS.sessions st) st = st.
Proof. destruct st; reflexivity. Qed.

Lemma get_absent st sid :
  OrderedDict.contains sid (CS.sessions st) = false ->
  CS.get sid st = (Ok [], st).
Proof.
  intros H. unfold CS.get. run_monad. rewrite H. reflexivity.
Qed.

Lemma get_present st sid l :
  NoDup (OrderedDict.keys (CS.sessions st)) ->
  OrderedDict.getitem sid (CS.sessions st) = Some l ->
  CS.get sid st =
  (Ok l, CS.set_sessions (OrderedDict.remove sid (CS.sessions st) ++ [(sid, l)]) st).
Proof.
  intros Hnd Hg. unfold CS.get. run_monad.
  assert (Hc : OrderedDict.contains sid (CS.sessions st) = true)
    by (apply getitem_contains; eauto).
  rewrite Hc. unfold OrderedDict.move_to_end. rewrite Hg. simpl.
  rewrite getitem_last by (apply not_In_keys_remove; assumption).
  reflexivity.
Qed.

Lemma add_message_present st sid l m now :
  NoDup (OrderedDict.keys (CS.sessions st)) ->
  OrderedDict.getitem sid (CS.sessions st) = Some l ->
  CS.add_message sid m now st =
  (Ok tt,
   CS.set_sessions
     (OrderedDict.remove sid (CS.sessions st)
      ++ [(sid, l ++ [CS.backfill_timestamp now m])]) st).
Proof.
  intros Hnd Hg. unfold CS.add_message. run_monad.
  assert (Hc : OrderedDict.contains sid (CS.sessions st) = true)
    by (apply getitem_contains; eauto).
  rewrite Hc. simpl. unfold OrderedDict.move_to_end. rewrite Hg. simpl.
  assert (Hn : ~ In sid (OrderedDict.keys (OrderedDict.remove sid (CS.sessions st))))
    by (apply not_In_keys_remove; assumption).
  rewrite getitem_last by exact Hn. rewrite setitem_last by exact Hn. reflexivity.
Qed.

Lemma add_message_fresh st sid m now :
  ~ In sid (OrderedDict.keys (CS.sessions st)) ->
  (length (CS.sessions st) < CS.max_sessions st)%nat ->
  CS.add_message sid m now st =
  (Ok tt,
   CS.set_sessions (CS.sessions st ++ [(sid, [CS.backfill_timestamp now m])]) st).
Proof.
  intros Hn Hlt. unfold CS.add_message. run_monad.
  rewrite (proj2 (contains_false_In _ _) Hn). simpl.
  destruct (Nat.leb_spec (CS.max_sessions st) (length (CS.sessions st))); [lia|].
  simpl.
  rewrite setitem_absent by exact Hn. unfold OrderedDict.move_to_end.
  rewrite getitem_last by exact Hn. simpl. rewrite remove_app_last by exact Hn.
  rewrite getitem_last by exact Hn. rewrite setitem_last by exact Hn. reflexivity.
Qed.

Lemma add_message_evict st sid m now kv rest :
  NoDup (OrderedDict.keys (CS.sessions st)) ->
  ~ In sid (OrderedDict.keys (CS.sessions st)) ->
  (CS.max_sessions st <= length (CS.sessions st))%nat ->
  CS.sessions st = kv :: rest ->
  CS.add_message sid m now st =
  (Ok tt, CS.set_sessions (rest ++ [(sid, [CS.backfill_timestamp now m])]) st).
Proof.
  intros Hnd Hn Hle Hd. unfold CS.add_message. run_monad.
  rewrite (proj2 (contains_false_In _ _) Hn). simpl.
  destruct (Nat.leb_spec (CS.max_sessions st) (length (CS.sessions st))); [|lia].
  rewrite Hd in *. simpl.
  assert (Hn' : ~ In sid (OrderedDict.keys rest)) by (simpl in Hn; tauto).
  rewrite setitem_absent by exact Hn'. unfold OrderedDict.move_to_end.
  rewrite getitem_last by exact Hn'. simpl. rewrite remove_app_last by exact Hn'.
  rewrite getitem_last by exact Hn'. rewrite setitem_last by exact Hn'. reflexivity.
Qed.

Lemma add_message_no_room st sid m now :
  CS.sessions st = [] ->
  CS.max_sessions st = 0%nat ->
  CS.add_message sid m now st = (Raise KeyError, st).
Proof.
  intros Hd Hc. unfold CS.add_message. run_monad.
  rewrite Hd, Hc. simpl. rewrite Hd. reflexivity.
Qed.

Lemma clear_absent st sid :
  OrderedDict.contains sid (CS.sessions st) = false ->
  CS.clear sid st = (Ok false, st).
Proof.
  intros H. unfold CS.clear. run_monad. rewrite H. reflexivity.
Qed.

Lemma clear_present st sid :
  OrderedDict.contains sid (CS.sessions st) = true ->
  CS.clear sid st =
  (Ok true, CS.set_sessions (OrderedDict.remove sid (CS.sessions st)) st).
Proof.
  intros H. unfold CS.clear. run_monad. rewrite H.
  unfold OrderedDict.delitem. rewrite H. reflexivity.
Qed.

Lemma last_touch_from_snoc ops : forall i o sid acc,
  CS.last_touch_from i (ops ++ [o]) sid acc =
  if CS.touches o sid then Some (i + length ops)%nat
  else CS.last_touch_from i ops sid acc.
Proof.
  induction ops as [|o' r IH]; intros i o sid acc; simpl.
  - rewrite Nat.add_0_r. reflexivity.
  - rewrite IH. rewrite Nat.add_succ_r. reflexivity.
Qed.

Lemma last_touch_snoc ops o sid :
  CS.last_touch (ops ++ [o]) sid =
  if CS.touches o sid then Some (length ops) else CS.last_touch ops sid.
Proof. unfold CS.last_touch. rewrite last_touch_from_snoc. reflexivity. Qed.

Lemma last_touch_from_bound ops : forall i0 sid acc i,
  CS.last_touch_from i0 ops sid acc = Some i ->
  acc = Some i \/ (i0 <= i < i0 + length ops)%nat.
Proof.
  induction ops as [|o r IH]; intros i0 sid acc i H; simpl in *.
  - left; assumption.
  - apply IH in H. destruct H as [H|H]; [|right; lia].
    destruct (CS.touches o sid); [|left; assumption].
    inversion H; subst. right; lia.
Qed.

Lemma last_touch_bound ops sid i :
  CS.last_touch ops sid = Some i -> (i < length ops)%nat.
Proof.
  intros H. apply last_touch_from_bound in H. destruct H as [H|H]; [discriminate|lia].
Qed.

Lemma touches_same o a b :
  CS.touches o a = true -> CS.touches o b = true -> a = b.
Proof.
  destruct o; simpl; try discriminate;
    rewrite !String.eqb_eq; congruence.
Qed.

Lemma lru_ordered_In ops ks k :
  lru_ordered ops ks -> In k ks -> exists i, CS.last_touch ops k = Some i.
Proof.
  induction ks as [|k0 r IH]; simpl; [tauto|].
  intros (Ht & _ & Hr) [->|Hin]; auto.
Qed.

Lemma lru_ordered_untouched ops o ks :
  (forall k, In k ks -> CS.touches o k = false) ->
  lru_ordered ops ks -> lru_ordered (ops ++ [o]) ks.
Proof.
  induction ks as [|k r IH]; simpl; [tauto|].
  intros Hu (Ht & Hb & Hr). repeat split.
  - rewrite last_touch_snoc, (Hu k) by tauto. exact Ht.
  - intros k' Hin. destruct (Hb k' Hin) as (i & j & Hi & Hj & Hlt).
    exists i, j. rewrite !last_touch_snoc, (Hu k), (Hu k') by tauto. auto.
  - apply IH; auto.
Qed.

Lemma lru_ordered_touch ops o ks sid :
  CS.touches o sid = true ->
  ~ In sid ks ->
  lru_ordered ops ks -> lru_ordered (ops ++ [o]) (ks ++ [sid]).
Proof.
  intros Ho. induction ks as [|k r IH]; simpl.
  - intros _ _. repeat split; [|tauto].
    exists (length ops). rewrite last_touch_snoc, Ho. reflexivity.
  - intros Hn (Ht & Hb & Hr).
    assert (Hk : CS.touches o k = false).
    { destruct (CS.touches o k) eqn:E; [|reflexivity].
      exfalso. apply Hn. left. eapply touches_same; eauto. }
    repeat split.
    + rewrite last_touch_snoc, Hk. exact Ht.
    + intros k' Hin. apply in_app_or in Hin. destruct Hin as [Hin|[<-|[]]].
      * destruct (Hb k' Hin) as (i & j & Hi & Hj & Hlt).
        assert (Hk' : CS.touches o k' = false).
        { destruct (CS.touches o k') eqn:E; [|reflexivity].
          exfalso. apply Hn. right. rewrite (touches_same _ _ _ Ho E). exact Hin. }
        exists i, j. rewrite !last_touch_snoc, Hk, Hk'. auto.
      * destruct Ht as [i Hi]. exists i, (length ops).
        rewrite !last_touch_snoc, Hk, Ho. repeat split; auto.
        eapply last_touch_bound; eauto.
    + apply IH; tauto.
Qed.

Lemma lru_ordered_remove ops k (d : OrderedDict.t (list ChatMessage)) :
  lru_ordered ops (OrderedDict.keys d) ->
  lru_ordered ops (OrderedDict.keys (OrderedDict.remove k d)).
Proof.
  induction d as [|[k' v'] r IH]; simpl; [tauto|].
  intros (Ht & Hb & Hr). destruct (String.eqb k k'); simpl; [assumption|].
  repeat split; auto. intros k0 Hin. apply Hb. eapply In_keys_remove; eauto.
Qed.

Lemma NoDup_snoc {A} (l : list A) (x : A) :
  NoDup l -> ~ In x l -> NoDup (l ++ [x]).
Proof.
  induction l as [|y r IH]; simpl; intros Hnd Hn.
  - constructor; [tauto | constructor].
  - inversion Hnd as [|? ? Hy Hr]; subst. constructor.
    + intros Hin. apply in_app_or in Hin. destruct Hin as [Hin|[->|[]]]; tauto.
    + apply IH; tauto.
Qed.

Lemma touches_other o sid k :
  CS.touches o sid = true -> k <> sid -> CS.touches o k = false.
Proof.
  intros Ho Hne. destruct (CS.touches o k) eqn:E; [|reflexivity].
  exfalso. apply Hne. eapply touches_same; eauto.
Qed.

Lemma store_inv_step cap ops o st :
  store_inv cap ops st -> store_inv cap (ops ++ [o]) (CS.exec o st).
Proof.
  intros [Hnd Hord Hsz Hcap]. destruct o as [sid|sid m now|sid]; simpl.
  - (* get *)
    destruct (OrderedDict.getitem sid (CS.sessions st)) as [l|] eqn:Hg.
    + rewrite (get_present _ _ _ Hnd Hg). simpl.
      assert (Hc : OrderedDict.contains sid (CS.sessions st) = true)
        by (apply getitem_contains; eauto).
      pose proof (not_In_keys_remove sid _ Hnd) as Hn.
      split; simpl; auto.
      * rewrite keys_app. simpl. apply NoDup_snoc; auto using NoDup_keys_remove.
      * rewrite keys_app. simpl.
        apply lru_ordered_touch; auto using lru_ordered_remove.
        simpl. apply String.eqb_refl.
      * rewrite length_app. simpl. pose proof (length_remove _ _ Hc). lia.
    + apply getitem_None in Hg. rewrite (get_absent _ _ Hg).
      split; auto. apply lru_ordered_untouched; auto.
      intros k Hin. simpl. apply String.eqb_neq. intros ->.
      apply contains_false_In in Hg. auto.
  - (* add_message *)
    destruct (OrderedDict.getitem sid (CS.sessions st)) as [l|] eqn:Hg.
    + rewrite (add_message_present _ _ _ _ _ Hnd Hg). simpl.
      assert (Hc : OrderedDict.contains sid (CS.sessions st) = true)
        by (apply getitem_contains; eauto).
      pose proof (not_In_keys_remove sid _ Hnd) as Hn.
      split; simpl; auto.
      * rewrite keys_app. simpl. apply NoDup_snoc; auto using NoDup_keys_remove.
      * rewrite keys_app. simpl.
        apply lru_ordered_touch; auto using lru_ordered_remove.
        simpl. apply String.eqb_refl.
      * rewrite length_app. simpl. pose proof (length_remove _ _ Hc). lia.
    + apply getitem_None in Hg. pose proof (proj1 (contains_false_In _ _) Hg) as Hn.
      destruct (Nat.lt_ge_cases (length (CS.sessions st)) (CS.max_sessions st)) as [Hlt|Hge].
      * rewrite (add_message_fresh _ _ _ _ Hn Hlt). split; simpl; auto.
        -- rewrite keys_app. simpl. apply NoDup_snoc; auto.
        -- rewrite keys_app. simpl. apply lru_ordered_touch; auto.
           simpl. apply String.eqb_refl.
        -- rewrite length_app. simpl. lia.
      * destruct (CS.sessions st) as [|kv rest] eqn:Hd.
        -- simpl in Hge. rewrite (add_message_no_room _ _ _ _ Hd) by lia.
           split; simpl; rewrite ?Hd; simpl; auto.
        -- assert (Hnd' : NoDup (OrderedDict.keys (CS.sessions st))) by (rewrite Hd; exact Hnd).
           assert (Hn' : ~ In sid (OrderedDict.keys (CS.sessions st))) by (rewrite Hd; exact Hn).
           assert (Hge' : (CS.max_sessions st <= length (CS.sessions st))%nat) by (rewrite Hd; exact Hge).
           rewrite (add_message_evict st sid m now kv rest Hnd' Hn' Hge' Hd).
           simpl in Hn, Hord, Hsz. inversion Hnd as [|? ? Hk Hr]; subst.
           destruct Hord as (_ & _ & Hord).
           split; simpl; auto.
           ++ rewrite keys_app. simpl. apply NoDup_snoc; auto.
           ++ rewrite keys_app. simpl. apply lru_ordered_touch; auto.
              simpl. apply String.eqb_refl.
           ++ rewrite length_app. simpl. lia.
  - (* clear *)
    destruct (OrderedDict.contains sid (CS.sessions st)) eqn:Hc.
    + rewrite (clear_present _ _ Hc). split; simpl; auto.
      * apply NoDup_keys_remove; auto.
      * apply lru_ordered_untouched; [reflexivity|]. apply lru_ordered_remove; auto.
      * pose proof (length_remove _ _ Hc). lia.
    + rewrite (clear_absent _ _ Hc). split; auto.
      apply lru_ordered_untouched; [reflexivity|]. auto.
Qed.

Lemma run_snoc ops o st : CS.run (ops ++ [o]) st = CS.exec o (CS.run ops st).
Proof. unfold CS.run. rewrite fold_left_app. reflexivity. Qed.

Lemma store_inv_run cap ops : store_inv cap ops (CS.run ops (CS.init cap)).
Proof.
  induction ops as [|o ops IH] using rev_ind.
  - split; simpl; [constructor | exact I | lia | reflexivity].
  - rewrite run_snoc. apply store_inv_step. exact IH.
Qed.

(** C4.  After any run of [get], [add_message] and [clear] on a store
    created with capacity [cap], the store holds at most [cap] sessions.
    [get] on a stored id moves that session to the most recent end of the
    order, and [add_message] on any id leaves its session at the most recent
    end.  When the id is new and the store is full, [add_message] drops
    exactly the entry at the oldest end, which was last touched strictly
    before every session that stays, and keeps the other sessions as they
    were.  The capacity is not zero where a session is added. *)
Theorem store_bounded_lru (cap : nat) (ops : list CS.op) :
  let st := CS.run ops (CS.init cap) in
  (length (CS.sessions st) <= cap)%nat /\
  (forall sid l,
      OrderedDict.getitem sid (CS.sessions st) = Some l ->
      CS.get sid st =
      (Ok l, CS.set_sessions (OrderedDict.remove sid (CS.sessions st) ++ [(sid, l)]) st)) /\
  (forall sid m now,
      (0 < cap)%nat ->
      exists d l,
        CS.add_message sid m now st = (Ok tt, CS.set_sessions (d ++ [(sid, l)]) st)) /\
  (forall sid m now,
      (0 < cap)%nat ->
      OrderedDict.contains sid (CS.sessions st) = false ->
      length (CS.sessions st) = cap ->
      exists victim msgs rest,
        CS.sessions st = (victim, msgs) :: rest /\
        (forall k, In k (OrderedDict.keys rest) -> CS.touched_before ops victim k) /\
        CS.add_message sid m now st =
        (Ok tt, CS.set_sessions (rest ++ [(sid, [CS.backfill_timestamp now m])]) st)).
Proof.
  intros st. destruct (store_inv_run cap ops) as [Hnd Hord Hsz Hcap]. fold st in Hnd, Hord, Hsz, Hcap.
  split; [exact Hsz|]. split; [|split].
  - intros sid l Hg. apply get_present; assumption.
  - intros sid m now Hpos.
    destruct (OrderedDict.getitem sid (CS.sessions st)) as [l|] eqn:Hg.
    + eexists _, _. apply add_message_present; eassumption.
    + apply getitem_None in Hg. pose proof (proj1 (contains_false_In _ _) Hg) as Hn.
      destruct (Nat.lt_ge_cases (length (CS.sessions st)) (CS.max_sessions st)) as [Hlt|Hge].
      * eexists _, _. apply add_message_fresh; assumption.
      * destruct (CS.sessions st) as [|kv rest] eqn:Hd.
        -- simpl in Hge. lia.
        -- exists rest, [CS.backfill_timestamp now m].
           apply (add_message_evict st sid m now kv rest); rewrite ?Hd; auto.
  - intros sid m now Hpos Hc Hfull.
    pose proof (proj1 (contains_false_In _ _) Hc) as Hn.
    destruct (CS.sessions st) as [|[victim msgs] rest] eqn:Hd.
    + simpl in Hfull. lia.
    + exists victim, msgs, rest. split; [reflexivity|]. split.
      * simpl in Hord. destruct Hord as (_ & Hb & _). exact Hb.
      * apply (add_message_evict st sid m now (victim, msgs) rest); rewrite ?Hd; auto.
        simpl. simpl in Hfull. lia.
Qed.

Lemma store_bounded_lru_witness :
  (exists d l,
      CS.add_message "B" (mkMessage user "three") 3%Z (CS.run ops_AB_getA (CS.init 2)) =
      (Ok tt, CS.set_sessions (d ++ [("B"%string, l)]) (CS.run ops_AB_getA (CS.init 2)))) /\
  (exists victim msgs rest,
      CS.sessions (CS.run ops_AB_getA (CS.init 2)) = (victim, msgs) :: rest /\
      (forall k, In k (OrderedDict.keys rest) -> CS.touched_before ops_AB_getA victim k) /\
      CS.add_message "C" (mkMessage user "three") 3%Z (CS.run ops_AB_getA (CS.init 2)) =
      (Ok tt,
       CS.set_sessions
         (rest ++ [("C"%string, [CS.backfill_timestamp 3%Z (mkMessage user "three")])])
         (CS.run ops_AB_getA (CS.init 2)))).
Proof.
  split.
  - apply (proj1 (proj2 (proj2 (store_bounded_lru 2 ops_AB_getA)))). lia.
  - apply (proj2 (proj2 (proj2 (store_bounded_lru 2 ops_AB_getA)))).
    + lia.
    + reflexivity.
    + reflexivity.
Defined.

(** C9.  [add_message] on an id the store already holds evicts nothing,
    whatever the size of the store: the same ids are stored, as many as
    before, every other session keeps its messages and its place relative to
    the others, and the touched session goes to the most recent end with the
    message appended. *)
Theorem add_message_present_keeps_sessions
    (cap : nat) (ops : list CS.op) (sid : string) (m : ChatMessage) (now : datetime) :
  let st := CS.run ops (CS.init cap) in
  OrderedDict.contains sid (CS.sessions st) = true ->
  exists l st',
    OrderedDict.getitem sid (CS.sessions st) = Some l /\
    CS.add_message sid m now st = (Ok tt, st') /\
    CS.sessions st' =
      OrderedDict.remove sid (CS.sessions st) ++ [(sid, l ++ [CS.backfill_timestamp now m])] /\
    CS.max_sessions st' = CS.max_sessions st /\
    (forall k, In k (OrderedDict.keys (CS.sessions st')) <->
               In k (OrderedDict.keys (CS.sessions st))) /\
    length (CS.sessions st') = length (CS.sessions st) /\
    (forall k, k <> sid ->
               OrderedDict.getitem k (CS.sessions st') = OrderedDict.getitem k (CS.sessions st)) /\
    OrderedDict.remove sid (CS.sessions st') = OrderedDict.remove sid (CS.sessions st).
Proof.
  intros st Hc. destruct (store_inv_run cap ops) as [Hnd _ _ _]. fold st in Hnd.
  destruct (proj1 (getitem_contains sid (CS.sessions st)) Hc) as [l Hg].
  pose proof (not_In_keys_remove sid _ Hnd) as Hn.
  exists l. eexists. split; [exact Hg|]. split; [exact (add_message_present st sid l m now Hnd Hg)|].
  simpl. split; [reflexivity|]. split; [reflexivity|]. split; [|split; [|split]].
  - intros k. rewrite keys_app, in_app_iff, In_keys_remove_iff by assumption. simpl.
    apply contains_In in Hc. destruct (String.eqb_spec k sid) as [->|Hne]; intuition congruence.
  - rewrite length_app. simpl. pose proof (length_remove _ _ Hc). lia.
  - intros k Hne. rewrite getitem_app_other by assumption.
    apply getitem_remove_other; assumption.
  - apply remove_app_last; assumption.
Qed.

Lemma add_message_present_keeps_sessions_witness :
  exists l st',
    OrderedDict.getitem "B" (CS.sessions (CS.run ops_AB_getA (CS.init 2))) = Some l /\
    CS.add_message "B" (mkMessage assistant "reply") 3%Z (CS.run ops_AB_getA (CS.init 2))
      = (Ok tt, st') /\
    OrderedDict.keys (CS.sessions st') = ["A"; "B"]%string /\
    length (CS.sessions st') = 2%nat.
Proof.
  destruct (add_message_present_keeps_sessions 2 ops_AB_getA "B"
              (mkMessage assistant "reply") 3%Z eq_refl)
    as (l & st' & Hg & Hadd & Hs & _).
  exists l, st'. split; [exact Hg|]. split; [exact Hadd|].
  rewrite Hs. vm_compute. split; reflexivity.
Defined.
Section Truncate.
Variable enc : string -> list Z.

Lemma total_cost_app a b :
  total_cost enc (a ++ b) = total_cost enc a + total_cost enc b.
Proof. induction a; simpl; lia. Qed.

(** The loop keeps [selected] as a suffix, charges what it adds, and when it
    stops early the message it stopped at did not fit. *)
Lemma truncate_loop_spec : forall reversed available current selected,
  exists taken left,
    reversed = taken ++ left /\
    CM.truncate_loop enc reversed available current selected = rev taken ++ selected /\
    (taken = [] \/ current + total_cost enc taken <= available) /\
    match left with
    | [] => True
    | m :: _ => current + total_cost enc taken + CM.msg_tokens enc m > available
    end.
Proof.
  induction reversed as [|m rest IH]; intros available current selected; simpl.
  - exists [], []. repeat split; auto.
  - destruct (Z.leb_spec (current + CM.msg_tokens enc m) available) as [Hle|Hgt].
    + destruct (IH available (current + CM.msg_tokens enc m) (m :: selected))
        as (taken & left & -> & Heq & Hcost & Hleft).
      exists (m :: taken), left. split; [reflexivity|]. split.
      * rewrite Heq. simpl. rewrite <- app_assoc. reflexivity.
      * split.
        -- right. simpl. destruct Hcost as [->|Hc]; simpl; lia.
        -- destruct left; [exact I|]. simpl. lia.
    + exists [], (m :: rest). repeat split; auto. simpl. lia.
Qed.

Lemma total_cost_rev l : total_cost enc (rev l) = total_cost enc l.
Proof.
  induction l as [|m r IH]; simpl; [reflexivity|].
  rewrite total_cost_app, IH. simpl. lia.
Qed.

Lemma truncate_messages_spec messages budget :
  exists dropped,
    messages = dropped ++ CM._truncate_messages enc messages budget /\
    (CM._truncate_messages enc messages budget = [] \/
     total_cost enc (CM._truncate_messages enc messages budget) <= budget - 200) /\
    (forall older m,
        dropped = older ++ [m] ->
        total_cost enc (CM._truncate_messages enc messages budget) + CM.msg_tokens enc m
        > budget - 200).
Proof.
  unfold CM._truncate_messages. destruct messages as [|m0 r0] eqn:Hm.
  - exists []. repeat split; auto. intros older m H. destruct older; discriminate.
  - rewrite <- Hm. clear Hm.
    destruct (truncate_loop_spec (rev messages) (budget - 200) 0 [])
      as (taken & left & Hrev & Heq & Hcost & Hleft).
    rewrite Heq, app_nil_r.
    exists (rev left). split; [|split].
    + rewrite <- (rev_involutive messages), Hrev, rev_app_distr. reflexivity.
    + destruct Hcost as [->|Hc]; [left; reflexivity|right].
      rewrite total_cost_rev. lia.
    + intros older m H. rewrite total_cost_rev.
      assert (Hl : left = m :: rev older).
      { rewrite <- (rev_involutive left), H, rev_app_distr. reflexivity. }
      rewrite Hl in Hleft. lia.
Qed.
End Truncate.

(** C5, amended.  [_truncate_messages] returns a suffix of its input, in the
    input's order; the scan from the most recent message backwards stops at
    the first message that would exceed what is left of [budget - 200]; the
    cost of the selection is at most [budget - 200] as soon as anything is
    selected, hence whenever [200 <= budget], and the selection is empty
    otherwise; three messages of cost 300 and a budget of 500 select the
    most recent one alone. *)
Theorem truncate_messages_recent_suffix
    (enc : string -> list Z) (messages : list ChatMessage) (budget : Z) :
  let selected := CM._truncate_messages enc messages budget in
  (exists dropped,
      messages = dropped ++ selected /\
      (forall older m,
          dropped = older ++ [m] ->
          total_cost enc selected + CM.msg_tokens enc m > budget - 200)) /\
  (selected = [] \/ total_cost enc selected <= budget - 200) /\
  (200 <= budget -> total_cost enc selected <= budget - 200) /\
  (forall m1 m2 m3,
      messages = [m1; m2; m3] -> budget = 500 ->
      CM.msg_tokens enc m1 = 300 -> CM.msg_tokens enc m2 = 300 ->
      CM.msg_tokens enc m3 = 300 ->
      selected = [m3]).
Proof.
  intros selected.
  destruct (truncate_messages_spec enc messages budget) as (dropped & Hsuf & Hcost & Hstop).
  fold selected in Hsuf, Hcost, Hstop.
  split; [exists dropped; split; assumption|]. split; [exact Hcost|]. split.
  - intros Hb. destruct Hcost as [->|Hc]; [simpl; lia|exact Hc].
  - intros m1 m2 m3 -> -> H1 H2 H3. subst selected.
    unfold CM._truncate_messages. simpl. rewrite H3. simpl. rewrite H2. reflexivity.
Qed.

Lemma truncate_messages_recent_suffix_witness :
  total_cost char_codec
    (CM._truncate_messages char_codec [three_hundred; three_hundred; three_hundred] 500)
  <= 500 - 200 /\
  CM._truncate_messages char_codec [three_hundred; three_hundred; three_hundred] 500
  = [three_hundred].
Proof.
  pose proof (truncate_messages_recent_suffix char_codec
                [three_hundred; three_hundred; three_hundred] 500) as (_ & _ & Hb & Hs).
  split.
  - apply Hb. lia.
  - apply (Hs three_hundred three_hundred three_hundred);
      [reflexivity | reflexivity | vm_compute; reflexivity .. ].
Defined.

(** The claim C5 as first stated fails below the reserve: with a budget of
    100 nothing is selected, at a cost of 0, which is not at most -100. *)
Lemma truncate_messages_budget_below_reserve :
  let selected := CM._truncate_messages char_codec [mkMessage user "hi"] 100 in
  selected = [] /\ ~ (total_cost char_codec selected <= 100 - 200).
Proof.
  split; [vm_compute; reflexivity|]. vm_compute. intros H. apply H. reflexivity.
Qed.

Section SearchFacts.
Variable cfg : Config.
Variable web : SS.Web.

Lemma ddgs_text_call_cases q k b s :
  (exists e s', SS.ddgs_text_call web q k b s = (Raise e, s')) \/
  (exists n s', SS.ddgs_text_call web q k b s = (Ok match SS.ddgs_text web n q k b with
                                                    | SS.Returns h => h
                                                    | SS.Fails _ => []
                                                    end, s')
                /\ exists h, SS.ddgs_text web n q k b = SS.Returns h).
Proof.
  unfold SS.ddgs_text_call, SS.ddgs. run_monad.
  destruct (SS._ddgs s).
  - destruct (SS.ddgs_text web (SS.calls s) q k b) eqn:E.
    + right. eexists (SS.calls s), _. rewrite E. split; [reflexivity|eauto].
    + left. eauto.
  - destruct (SS.ddgs_new web (SS.calls s)); [left; eauto|]. simpl.
    destruct (SS.ddgs_text web (S (SS.calls s)) q k b) eqn:E.
    + right. eexists (S (SS.calls s)), _. rewrite E. split; [reflexivity|eauto].
    + left. eauto.
Qed.

(** The loop never lets an exception out. *)
Lemma search_loop_total attempts q k : forall s,
  exists r s', SS.search_loop web attempts q k s = (Ok r, s').
Proof.
  induction attempts as [|a rest IH]; intros s; simpl.
  - eexists _, _. reflexivity.
  - unfold bind at 1. unfold try_except.
    match goal with
    | |- context [match ?body s with _ => _ end] => destruct (body s) as [[r|e] s1]
    end.
    + destruct r as [v|]; [eexists _, _; reflexivity | apply IH].
    + unfold ret at 1. apply IH.
Qed.

Lemma search_total q mr s :
  exists r s', SS.search cfg web q mr s = (Ok r, s').
Proof.
  unfold SS.search. unfold bind at 1, get_state.
  destruct (negb (SS.is_available cfg s)); [eexists _, _; reflexivity|].
  cbv zeta. unfold bind.
  destruct (search_loop_total (range (SEARCH_RETRY_ATTEMPTS cfg)) (SS._clean_query q)
              (Py.int_or mr (SEARCH_MAX_RESULTS cfg)) s) as (r & s' & ->).
  destruct r; eexists _, _; reflexivity.
Qed.

Hypothesis Hfail : all_attempts_fail web.

Lemma ddgs_text_call_fails q k b s :
  exists s',
    SS.ddgs_text_call web q k b s = (Ok [], s') \/
    exists e, SS.ddgs_text_call web q k b s = (Raise e, s').
Proof.
  destruct (ddgs_text_call_cases q k b s) as [(e & s' & H)|(n & s' & H & h & Hh)].
  - exists s'. right. eauto.
  - exists s'. left. rewrite H, Hh.
    destruct (Hfail n q k b) as [E|[e E]]; rewrite E in Hh; congruence.
Qed.

Lemma search_loop_none attempts q k : forall s,
  exists s', SS.search_loop web attempts q k s = (Ok None, s').
Proof.
  induction attempts as [|a rest IH]; intros s; simpl.
  - eexists. reflexivity.
  - unfold bind at 1. unfold try_except. unfold bind at 1.
    destruct (ddgs_text_call_fails q k SS.default_backend s) as (s1 & [H|[e H]]);
      rewrite H; simpl.
    + destruct (a =? 0).
      * unfold bind at 1.
        destruct (ddgs_text_call_fails q k SS.lite s1) as (s2 & [H2|[e2 H2]]);
          rewrite H2; simpl; apply IH.
      * simpl. apply IH.
    + apply IH.
Qed.

Lemma search_empty q mr s :
  exists s', SS.search cfg web q mr s = (Ok [], s').
Proof.
  unfold SS.search. unfold bind at 1, get_state.
  destruct (negb (SS.is_available cfg s)); [eexists; reflexivity|].
  cbv zeta. unfold bind.
  destruct (search_loop_none (range (SEARCH_RETRY_ATTEMPTS cfg)) (SS._clean_query q)
              (Py.int_or mr (SEARCH_MAX_RESULTS cfg)) s) as (s' & ->).
  eexists. reflexivity.
Qed.
End SearchFacts.

Lemma validated_truthy m : validated m -> Py.truthy (content m) = true.
Proof.
  unfold validated, content_not_empty. destruct (Py.truthy (content m)); [reflexivity|].
  simpl. discriminate.
Qed.

Lemma validated_new m r :
  validated m -> ChatMessage_new r (content m) = Ok (mkMessage r (content m)).
Proof. intros H. unfold ChatMessage_new. rewrite H. reflexivity. Qed.

Lemma validated_backfill now m : validated m -> validated (CS.backfill_timestamp now m).
Proof.
  unfold validated, CS.backfill_timestamp. destruct (timestamp m); auto.
Qed.

Lemma Forall_validated_stamp now msgs : forall i,
  Forall validated msgs -> Forall validated (stamp_from now i msgs).
Proof.
  induction msgs as [|m r IH]; intros i H; simpl; [constructor|].
  inversion H; subst. constructor; [apply validated_backfill; assumption | apply IH; assumption].
Qed.

Lemma split_turns_ok msgs : forall last hist,
  Forall validated msgs ->
  (last = EmptyString \/ content_not_empty last = Ok last) ->
  exists l h, CM.split_turns msgs last hist = Ok (l, h).
Proof.
  induction msgs as [|m r IH]; intros last hist Hv Hl; simpl.
  - eauto.
  - inversion Hv as [|? ? Hm Hr]; subst.
    destruct (role m).
    + apply IH; assumption.
    + destruct Hl as [->|Hl].
      * simpl. apply IH; [assumption | right; exact Hm].
      * destruct (Py.truthy last).
        -- unfold ChatMessage_new. rewrite Hl. apply IH; [assumption | right; exact Hm].
        -- apply IH; [assumption | right; exact Hm].
    + apply IH; assumption.
Qed.

(** The instruction is the content of the most recent user message. *)
Lemma split_turns_instruction msgs : forall last hist l h,
  CM.split_turns msgs last hist = Ok (l, h) -> l = last_user_content last msgs.
Proof.
  induction msgs as [|m r IH]; intros last hist l h; simpl.
  - intros H. inversion H; reflexivity.
  - destruct (role m).
    + apply IH.
    + destruct (Py.truthy last); [|apply IH].
      destruct (ChatMessage_new user last); [apply IH | discriminate].
    + apply IH.
Qed.

Lemma build_prompt_ok msgs sr :
  Forall validated msgs -> exists p, CM._build_prompt msgs sr = Ok p.
Proof.
  intros Hv. unfold CM._build_prompt.
  destruct (split_turns_ok msgs EmptyString [] Hv (or_introl eq_refl)) as (l & h & ->).
  destruct sr as [s|]; [destruct (Py.truthy s)|]; eauto.
Qed.

Lemma build_prompt_ungrounded msgs :
  Forall validated msgs ->
  exists l h,
    CM.split_turns msgs EmptyString [] = Ok (l, h) /\
    CM._build_prompt msgs None =
    Ok (CM.ungrounded_template (CM._build_history_context h) l).
Proof.
  intros Hv. unfold CM._build_prompt.
  destruct (split_turns_ok msgs EmptyString [] Hv (or_introl eq_refl)) as (l & h & ->).
  eauto.
Qed.

Lemma add_message_ok st sid m now :
  NoDup (OrderedDict.keys (CS.sessions st)) ->
  (0 < CS.max_sessions st)%nat ->
  exists d,
    CS.add_message sid m now st = (Ok tt, CS.set_sessions d st) /\
    NoDup (OrderedDict.keys d).
Proof.
  intros Hnd Hpos.
  destruct (OrderedDict.getitem sid (CS.sessions st)) as [l|] eqn:Hg.
  - eexists. split; [apply (add_message_present st sid l m now Hnd Hg)|].
    rewrite keys_app. apply NoDup_snoc; [apply NoDup_keys_remove; assumption|].
    apply not_In_keys_remove; assumption.
  - apply getitem_None in Hg. pose proof (proj1 (contains_false_In _ _) Hg) as Hn.
    destruct (Nat.lt_ge_cases (length (CS.sessions st)) (CS.max_sessions st)) as [Hlt|Hge].
    + eexists. split; [apply (add_message_fresh st sid m now Hn Hlt)|].
      rewrite keys_app. apply NoDup_snoc; assumption.
    + destruct (CS.sessions st) as [|kv rest] eqn:Hd; [simpl in Hge; lia|].
      exists (rest ++ [(sid, [CS.backfill_timestamp now m])]). split.
      * apply (add_message_evict st sid m now kv rest); rewrite ?Hd; auto.
      * simpl in Hnd, Hn. inversion Hnd; subst.
        rewrite keys_app. apply NoDup_snoc; [assumption | tauto].
Qed.

Lemma get_ok st sid :
  NoDup (OrderedDict.keys (CS.sessions st)) ->
  exists l d,
    CS.get sid st = (Ok l, CS.set_sessions d st) /\
    NoDup (OrderedDict.keys d) /\
    (OrderedDict.getitem sid (CS.sessions st) = Some l \/
     OrderedDict.getitem sid (CS.sessions st) = None /\ l = []).
Proof.
  intros Hnd.
  destruct (OrderedDict.getitem sid (CS.sessions st)) as [l|] eqn:Hg.
  - eexists l, _. split; [apply (get_present st sid l Hnd Hg)|]. split; [|left; reflexivity].
    rewrite keys_app. apply NoDup_snoc; [apply NoDup_keys_remove; assumption|].
    apply not_In_keys_remove; assumption.
  - exists [], (CS.sessions st). rewrite store_eta. split; [|split; [assumption|right; auto]].
    apply get_absent. apply getitem_None. assumption.
Qed.

Section PrepareFacts.
Variable cfg : Config.
Variable web : SS.Web.
Variable enc : string -> list Z.

Lemma add_new_messages_ok sid now new : forall i history last w,
  NoDup (OrderedDict.keys (CS.sessions (CM.store w))) ->
  (0 < CS.max_sessions (CM.store w))%nat ->
  exists last' w',
    CM.add_new_messages sid new now i history last w
    = (Ok (history ++ stamp_from now i new, last'), w') /\
    CM.search_service w' = CM.search_service w /\
    (forall m, last' = Some m -> last = Some m \/ In m (stamp_from now i new)).
Proof.
  induction new as [|m r IH]; intros i history last w Hnd Hpos; simpl.
  - exists last, w. rewrite app_nil_r. repeat split; auto.
  - destruct (add_message_ok (CM.store w) sid m (now i) Hnd Hpos) as (d & Hadd & Hnd').
    unfold bind at 1. unfold CM.on_store at 1, zoom. rewrite Hadd.
    match goal with
    | |- context [CM.add_new_messages sid r now (S i) ?h ?l ?w1] =>
        destruct (IH (S i) h l w1) as (last' & w' & Heq & Hs & Hl)
    end; [exact Hnd' | exact Hpos |].
    exists last', w'. rewrite Heq, <- app_assoc. simpl. split; [reflexivity|].
    split; [exact Hs|].
    intros m0 Hm0. destruct (Hl m0 Hm0) as [H|H]; [|right; right; exact H].
    destruct (role (CS.backfill_timestamp (now i) m)); auto.
    inversion H; subst. right; left; reflexivity.
Qed.
End PrepareFacts.

Lemma count_tokens_nonneg enc text : 0 <= CM.count_tokens enc text.
Proof. unfold CM.count_tokens, MS.count_tokens, MS.len. lia. Qed.

Section PrepareSpec.
Variable cfg : Config.
Variable web : SS.Web.
Variable enc : string -> list Z.

(** Lines 206 to 215 of [prepare_prompt]. *)
Lemma search_branch_total last w :
  exists sr srcs used w',
    (match last with
     | Some m =>
         if CM._should_search cfg (content m) then
           bind (CM.on_search (SS.search cfg web (content m) None))
             (fun results =>
                if SS.nonempty results then
                  ret (Some (SS.format_results_for_prompt results),
                       Some (SS.extract_sources_for_response results), true)
                else ret (None, None, false))
         else ret (None, None, false)
     | None => ret (None, None, false)
     end) w = (Ok (sr, srcs, used), w') /\
    (all_attempts_fail web -> sr = None /\ srcs = None /\ used = false).
Proof.
  destruct last as [m|]; [|eexists _, _, _, _; split; [reflexivity|auto]].
  destruct (CM._should_search cfg (content m));
    [|eexists _, _, _, _; split; [reflexivity|auto]].
  unfold bind, CM.on_search, zoom.
  destruct (SS.search cfg web (content m) None (CM.search_service w)) as [r s'] eqn:E.
  destruct (search_total cfg web (content m) None (CM.search_service w))
    as (r0 & s0 & E0).
  rewrite E in E0. inversion E0; subst.
  destruct (SS.nonempty r0) eqn:En.
  - eexists _, _, _, _. split; [reflexivity|]. intros Hfail.
    destruct (search_empty cfg web Hfail (content m) None (CM.search_service w))
      as (s1 & E1).
    rewrite E in E1. inversion E1; subst. discriminate.
  - eexists _, _, _, _. split; [reflexivity|auto].
Qed.

Lemma prepare_prompt_spec w sid new mt now :
  store_ready sid (CM.store w) ->
  Forall validated new ->
  exists sr srcs used prompt w',
    CM._build_prompt
      (CM._truncate_messages enc
         (stored_history sid (CM.store w) ++ stamp_from now 0 new)
         (Py.int_or mt (MAX_CONTEXT_TOKENS cfg))) sr = Ok prompt /\
    CM.prepare_prompt cfg web enc sid new mt now w
    = (Ok (prompt, CM.count_tokens enc prompt, srcs, used), w') /\
    (all_attempts_fail web -> sr = None /\ srcs = None /\ used = false).
Proof.
  intros [Hnd Hpos Hval] Hnew.
  destruct (get_ok (CM.store w) sid Hnd) as (stored & d & Hget & Hnd1 & Hst).
  assert (Hstored : stored_history sid (CM.store w) = stored).
  { unfold stored_history. destruct Hst as [->|[-> ->]]; reflexivity. }
  rewrite Hstored.
  unfold CM.prepare_prompt.
  unfold bind at 1. unfold CM.on_store at 1, zoom. rewrite Hget. cbv beta iota.
  unfold bind at 1.
  match goal with
  | |- context [CM.add_new_messages sid new now 0%nat stored None ?w1] =>
      destruct (add_new_messages_ok sid now new 0%nat stored None w1 Hnd1 Hpos)
        as (last & w2 & Hadd & _ & _)
  end.
  rewrite Hadd. cbv beta iota.
  destruct (search_branch_total last w2) as (sr & srcs & used & w3 & Hsearch & Hfail).
  unfold bind at 1. rewrite Hsearch. cbv beta iota zeta.
  assert (Hall : Forall validated (stored ++ stamp_from now 0 new)).
  { apply Forall_app. split; [|apply Forall_validated_stamp; assumption].
    destruct Hst as [Hs|[_ ->]]; [apply Hval; assumption | constructor]. }
  destruct (truncate_messages_spec enc (stored ++ stamp_from now 0 new)
              (Py.int_or mt (MAX_CONTEXT_TOKENS cfg))) as (dropped & Hsuf & _).
  assert (Htr : Forall validated
                  (CM._truncate_messages enc (stored ++ stamp_from now 0 new)
                     (Py.int_or mt (MAX_CONTEXT_TOKENS cfg)))).
  { rewrite Hsuf in Hall. apply Forall_app in Hall. tauto. }
  destruct (build_prompt_ok _ sr Htr) as (prompt & Hp).
  exists sr, srcs, used, prompt, w3.
  split; [exact Hp|]. split; [|exact Hfail].
  unfold bind, CM.lift_result. rewrite Hp. reflexivity.
Qed.
End PrepareSpec.

(** C8.  When every call of the search client raises or returns no hit,
    [search] returns the empty list and raises nothing, and [prepare_prompt]
    returns normally with no sources, [used_search] false and the ungrounded
    template rendered from the truncated history. *)
Theorem failed_search_gives_ungrounded_prompt
    (cfg : Config) (web : SS.Web) (enc : string -> list Z)
    (Hfail : all_attempts_fail web) :
  (forall q mr s, exists s', SS.search cfg web q mr s = (Ok [], s')) /\
  (forall w sid new mt now,
      store_ready sid (CM.store w) ->
      Forall validated new ->
      let history := stored_history sid (CM.store w) ++ stamp_from now 0 new in
      let truncated :=
        CM._truncate_messages enc history (Py.int_or mt (MAX_CONTEXT_TOKENS cfg)) in
      exists instruction history_msgs prompt w',
        CM.prepare_prompt cfg web enc sid new mt now w
        = (Ok (prompt, CM.count_tokens enc prompt, None, false), w') /\
        CM.split_turns truncated EmptyString [] = Ok (instruction, history_msgs) /\
        prompt
        = CM.ungrounded_template (CM._build_history_context history_msgs) instruction).
Proof.
  split.
  - intros q mr s. apply search_empty. exact Hfail.
  - intros w sid new mt now Hready Hnew history truncated.
    destruct (prepare_prompt_spec cfg web enc w sid new mt now Hready Hnew)
      as (sr & srcs & used & prompt & w' & Hp & Hrun & Hdown).
    destruct (Hdown Hfail) as (-> & -> & ->).
    fold history in Hp. fold truncated in Hp.
    unfold CM._build_prompt in Hp.
    destruct (CM.split_turns truncated EmptyString []) as [[instruction history_msgs]|e];
      [|discriminate].
    inversion Hp; subst prompt.
    eexists instruction, history_msgs, _, w'. split; [exact Hrun|]. split; reflexivity.
Qed.

Lemma web_down_fails : all_attempts_fail web_down.
Proof.
  intros n q k b. simpl. destruct (Nat.even n); [right; eauto | left; reflexivity].
Qed.

Lemma init_ready sid : store_ready sid (CM.store CM.init).
Proof.
  split; simpl; [constructor | lia | discriminate].
Qed.

Lemma failed_search_gives_ungrounded_prompt_witness :
  exists instruction history_msgs prompt w',
    CM.prepare_prompt default_config web_down char_codec "s1" [news_question] None
      (fun _ => 0) CM.init
    = (Ok (prompt, CM.count_tokens char_codec prompt, None, false), w') /\
    CM.split_turns
      (CM._truncate_messages char_codec
         (stored_history "s1" (CM.store CM.init) ++ stamp_from (fun _ => 0) 0 [news_question])
         (Py.int_or None (MAX_CONTEXT_TOKENS default_config)))
      EmptyString []
    = Ok (instruction, history_msgs) /\
    prompt = CM.ungrounded_template (CM._build_history_context history_msgs) instruction.
Proof.
  apply (proj2 (failed_search_gives_ungrounded_prompt default_config web_down char_codec
                  web_down_fails)).
  - split; simpl; [constructor | lia | discriminate].
  - constructor; [vm_compute; reflexivity | constructor].
Defined.

(** C1, amended.  [prepare_prompt] returns normally, and the prompt it
    returns is rendered from a suffix of the stored history followed by the
    new messages whose cumulative role-plus-content cost is at most the
    budget ([max_tokens], or [MAX_CONTEXT_TOKENS] by default) minus 200, or
    which is empty.  The preamble, the template and the search results are
    added to the prompt without being counted. *)
Theorem prepare_prompt_history_within_budget
    (cfg : Config) (web : SS.Web) (enc : string -> list Z)
    (w : CM.World) (sid : string) (new : list ChatMessage) (mt : option Z)
    (now : nat -> datetime) :
  store_ready sid (CM.store w) ->
  Forall validated new ->
  let max_ctx := Py.int_or mt (MAX_CONTEXT_TOKENS cfg) in
  let history := stored_history sid (CM.store w) ++ stamp_from now 0 new in
  let truncated := CM._truncate_messages enc history max_ctx in
  (exists sr srcs used prompt w',
      CM.prepare_prompt cfg web enc sid new mt now w
      = (Ok (prompt, CM.count_tokens enc prompt, srcs, used), w') /\
      CM._build_prompt truncated sr = Ok prompt) /\
  (exists dropped, history = dropped ++ truncated) /\
  (truncated = [] \/ total_cost enc truncated <= max_ctx - 200).
Proof.
  intros Hready Hnew max_ctx history truncated.
  destruct (prepare_prompt_spec cfg web enc w sid new mt now Hready Hnew)
    as (sr & srcs & used & prompt & w' & Hp & Hrun & _).
  destruct (truncate_messages_spec enc history max_ctx) as (dropped & Hsuf & Hcost & _).
  split; [exists sr, srcs, used, prompt, w'; split; [exact Hrun | exact Hp]|].
  split; [exists dropped; exact Hsuf | exact Hcost].
Qed.

Lemma prepare_prompt_history_within_budget_witness :
  let history :=
    stored_history "s1" (CM.store CM.init) ++ stamp_from (fun _ => 0) 0 [long_question] in
  let truncated := CM._truncate_messages char_codec history 1024 in
  (exists sr srcs used prompt w',
      CM.prepare_prompt default_config web_down char_codec "s1" [long_question] None
        (fun _ => 0) CM.init
      = (Ok (prompt, CM.count_tokens char_codec prompt, srcs, used), w') /\
      CM._build_prompt truncated sr = Ok prompt) /\
  (exists dropped, history = dropped ++ truncated) /\
  (truncated = [] \/ total_cost char_codec truncated <= 1024 - 200).
Proof.
  apply (prepare_prompt_history_within_budget default_config web_down char_codec
           CM.init "s1" [long_question] None (fun _ => 0)).
  - split; simpl; [constructor | lia | discriminate].
  - constructor; [vm_compute; reflexivity | constructor].
Defined.

(** The claim C1 as first stated fails: a question of 800 characters fits
    the default budget of 824 with its role, and the prompt built around it
    counts 937 tokens; and with the budget of 50 of [verify_api.py] the
    bound is negative. *)
Lemma prepare_prompt_exceeds_margin :
  (exists prompt tc srcs used w',
      CM.prepare_prompt default_config web_down char_codec "s1" [long_question] None
        (fun _ => 0) CM.init
      = (Ok (prompt, tc, srcs, used), w') /\
      ~ (tc <= MAX_CONTEXT_TOKENS default_config - 200)) /\
  (exists prompt tc srcs used w',
      CM.prepare_prompt default_config web_down char_codec "test_session" [api_hello]
        (Some 50) (fun _ => 0) CM.init
      = (Ok (prompt, tc, srcs, used), w') /\
      ~ (tc <= 50 - 200)).
Proof.
  split.
  - eexists _, _, _, _, _. split; [vm_compute; reflexivity|].
    vm_compute. intros H. apply H. reflexivity.
  - eexists _, _, _, _, _. split; [vm_compute; reflexivity|].
    vm_compute. intros H. apply H. reflexivity.
Qed.

(** C3, the code at the failing input.  For the turns user "hi", assistant
    "hello", user "bye", [_build_prompt] takes "bye" as the instruction but
    renders the assistant's "hello" before the user's "hi": an earlier user
    turn enters the history only when the next user turn is met, after the
    assistant turns that followed it. *)
Theorem build_prompt_history_out_of_order :
  CM.split_turns turn_hi_hello_bye EmptyString []
  = Ok ("bye"%string, [mkMessage assistant "hello"; mkMessage user "hi"]) /\
  CM._build_prompt turn_hi_hello_bye None
  = Ok (CM.ungrounded_template
          ("Previous conversation:" +:+ Py.nl
           +:+ "Assistant: hello" +:+ Py.nl
           +:+ "User: hi" +:+ Py.nl +:+ Py.nl)
          "bye") /\
  CM.history_parts [mkMessage assistant "hello"; mkMessage user "hi"]
  <> map history_line [mkMessage user "hi"; mkMessage assistant "hello"].
Proof.
  split; [vm_compute; reflexivity|]. split; [vm_compute; reflexivity|].
  vm_compute. discriminate.
Qed.

Lemma split_turns_filter msgs : forall last hist,
  CM.split_turns msgs last hist = CM.split_turns (filter not_system msgs) last hist.
Proof.
  induction msgs as [|m r IH]; intros last hist; simpl; [reflexivity|].
  unfold not_system at 1. destruct (role m) eqn:Hr; simpl; rewrite ?Hr.
  - apply IH.
  - destruct (Py.truthy last); [|apply IH].
    destruct (ChatMessage_new user last); [apply IH | reflexivity].
  - apply IH.
Qed.

Lemma history_parts_lines msgs :
  CM.history_parts msgs = map history_line (filter not_system msgs).
Proof.
  induction msgs as [|m r IH]; simpl; [reflexivity|].
  unfold not_system at 1, history_line at 1.
  destruct (role m) eqn:Hr; simpl; rewrite ?Hr, IH; reflexivity.
Qed.

Lemma build_history_context_parts msgs :
  CM._build_history_context msgs =
  match CM.history_parts msgs with
  | [] => EmptyString
  | parts => "Previous conversation:" +:+ Py.nl +:+ Py.join Py.nl parts +:+ Py.nl +:+ Py.nl
  end.
Proof. destruct msgs; reflexivity. Qed.

Lemma filter_not_system_idem msgs :
  filter not_system (filter not_system msgs) = filter not_system msgs.
Proof.
  induction msgs as [|m r IH]; simpl; [reflexivity|].
  destruct (not_system m) eqn:E; simpl; rewrite ?E, IH; reflexivity.
Qed.

Lemma split_turns_sources msgs : forall last hist l h,
  CM.split_turns msgs last hist = Ok (l, h) ->
  (l = last \/ exists m, In m msgs /\ role m = user /\ content m = l) /\
  (Forall (fun m => role m <> system) hist -> Forall (fun m => role m <> system) h).
Proof.
  induction msgs as [|m r IH]; intros last hist l h; simpl.
  - intros H. inversion H; subst. auto.
  - destruct (role m) eqn:Hr.
    + intros H. destruct (IH _ _ _ _ H) as [[->|(m' & Hin & Hm')] Hh]; split; eauto.
    + assert (Hstep : forall hist',
                 (Forall (fun m => role m <> system) hist ->
                  Forall (fun m => role m <> system) hist') ->
                 CM.split_turns r (content m) hist' = Ok (l, h) ->
                 (l = last \/ exists m0, (m = m0 \/ In m0 r) /\ role m0 = user /\ content m0 = l) /\
                 (Forall (fun m => role m <> system) hist ->
                  Forall (fun m => role m <> system) h)).
      { intros hist' Hh' H. destruct (IH _ _ _ _ H) as [[->|(m' & Hin & Hm')] Hh].
        - split; [right; exists m; auto | auto].
        - split; [right; exists m'; auto | auto]. }
      destruct (Py.truthy last); [|apply Hstep; auto].
      unfold ChatMessage_new. destruct (content_not_empty last); [|discriminate].
      apply Hstep. intros Hf. apply Forall_app. split; [auto|].
      constructor; [simpl; discriminate | constructor].
    + intros H. destruct (IH _ _ _ _ H) as [[->|(m' & Hin & Hm')] Hh].
      * split; [auto|]. intros Hf. apply Hh. apply Forall_app. split; [auto|].
        constructor; [congruence | constructor].
      * split; [eauto|]. intros Hf. apply Hh. apply Forall_app. split; [auto|].
        constructor; [congruence | constructor].
Qed.

(** C10.  Messages of role system have no part in the prompt:
    [_build_prompt] gives the same result with them filtered out, its
    instruction is the content of a user message and its history holds no
    system message, and [_build_history_context] renders a line for the user
    and assistant messages only.  The store keeps a system message like any
    other, and [_truncate_messages] charges its cost to the budget before
    it looks at older messages. *)
Theorem system_messages_left_out_of_prompt :
  (forall msgs sr,
      CM._build_prompt msgs sr = CM._build_prompt (filter not_system msgs) sr) /\
  (forall msgs l h,
      CM.split_turns msgs EmptyString [] = Ok (l, h) ->
      (l = EmptyString \/ exists m, In m msgs /\ role m = user /\ content m = l) /\
      Forall (fun m => role m <> system) h) /\
  (forall msgs,
      CM.history_parts msgs = map history_line (filter not_system msgs) /\
      CM._build_history_context msgs = CM._build_history_context (filter not_system msgs)) /\
  (forall cap ops sid m now,
      (0 < cap)%nat -> role m = system ->
      exists l st',
        CS.add_message sid m now (CS.run ops (CS.init cap)) = (Ok tt, st') /\
        OrderedDict.getitem sid (CS.sessions st') = Some (l ++ [CS.backfill_timestamp now m]) /\
        role (CS.backfill_timestamp now m) = system) /\
  (forall enc msgs m budget,
      role m = system ->
      CM._truncate_messages enc (msgs ++ [m]) budget =
      if CM.msg_tokens enc m <=? budget - 200
      then CM.truncate_loop enc (rev msgs) (budget - 200) (CM.msg_tokens enc m) [m]
      else []).
Proof.
  split; [|split; [|split; [|split]]].
  - intros msgs sr. unfold CM._build_prompt. rewrite split_turns_filter. reflexivity.
  - intros msgs l h H. destruct (split_turns_sources _ _ _ _ _ H) as [Hl Hh].
    split; [exact Hl | apply Hh; constructor].
  - intros msgs. split; [apply history_parts_lines|].
    rewrite !build_history_context_parts, !history_parts_lines, filter_not_system_idem.
    reflexivity.
  - intros cap ops sid m now Hpos Hrole.
    destruct (store_inv_run cap ops) as [Hnd _ _ Hcap].
    set (st := CS.run ops (CS.init cap)) in *.
    assert (Hb : role (CS.backfill_timestamp now m) = system).
    { unfold CS.backfill_timestamp. destruct (timestamp m); assumption. }
    destruct (OrderedDict.getitem sid (CS.sessions st)) as [l|] eqn:Hg.
    + exists l. eexists. split; [apply (add_message_present st sid l m now Hnd Hg)|].
      simpl. split; [|exact Hb]. apply getitem_last. apply not_In_keys_remove; assumption.
    + apply getitem_None in Hg. pose proof (proj1 (contains_false_In _ _) Hg) as Hn.
      exists []. simpl.
      destruct (Nat.lt_ge_cases (length (CS.sessions st)) (CS.max_sessions st)) as [Hlt|Hge].
      * eexists. split; [apply (add_message_fresh st sid m now Hn Hlt)|].
        simpl. split; [|exact Hb]. apply getitem_last. assumption.
      * destruct (CS.sessions st) as [|kv rest] eqn:Hd; [simpl in Hge; lia|].
        eexists. split.
        -- apply (add_message_evict st sid m now kv rest); rewrite ?Hd; auto.
        -- simpl. split; [|exact Hb]. apply getitem_last. simpl in Hn. tauto.
  - intros enc msgs m budget _. unfold CM._truncate_messages.
    destruct (msgs ++ [m]) as [|x y] eqn:E; [destruct msgs; discriminate|].
    rewrite <- E, rev_app_distr. simpl. reflexivity.
Qed.

Lemma system_messages_left_out_of_prompt_witness :
  (("bye"%string = EmptyString \/
    exists m, In m (system_note :: turn_hi_hello_bye) /\ role m = user
              /\ content m = "bye"%string) /\
   Forall (fun m => role m <> system)
          [mkMessage assistant "hello"; mkMessage user "hi"]) /\
  (exists l st',
      CS.add_message "A" system_note 3 (CS.run ops_AB_getA (CS.init 2)) = (Ok tt, st') /\
      OrderedDict.getitem "A" (CS.sessions st')
      = Some (l ++ [CS.backfill_timestamp 3 system_note]) /\
      role (CS.backfill_timestamp 3 system_note) = system) /\
  CM._truncate_messages char_codec ([api_hello] ++ [system_note]) 230 = [system_note].
Proof.
  destruct system_messages_left_out_of_prompt as (_ & Hsplit & _ & Hstore & Hcost).
  split; [|split].
  - apply (Hsplit (system_note :: turn_hi_hello_bye)). vm_compute. reflexivity.
  - apply Hstore; [lia | reflexivity].
  - rewrite Hcost by reflexivity. vm_compute. reflexivity.
Defined.

Lemma slice_from_suffix {A} (i : Z) (l : list A) :
  exists dropped, l = dropped ++ Py.slice_from i l.
Proof.
  unfold Py.slice_from. eexists. symmetry. apply firstn_skipn.
Qed.

Lemma slice_from_last {A} (k : Z) (l : list A) :
  0 < k -> MS.len (Py.slice_from (- k) l) = Z.min k (MS.len l).
Proof.
  intros Hk. unfold Py.slice_from, MS.len.
  destruct (Z.ltb_spec (- k) 0) as [_|H]; [|lia].
  rewrite length_skipn. lia.
Qed.

Lemma slice_from_zero {A} (l : list A) : Py.slice_from (- 0) l = l.
Proof. unfold Py.slice_from. simpl. rewrite Z.min_l by lia. reflexivity. Qed.

(** Where the slice is the intended one. *)
Lemma truncate_input_fits cfg input_ids max_tokens :
  1 <= max_tokens < GPT2_BLOCK_SIZE cfg ->
  (exists dropped, input_ids = dropped ++ MS.truncate_input cfg input_ids max_tokens) /\
  MS.len (MS.truncate_input cfg input_ids max_tokens) <= GPT2_BLOCK_SIZE cfg - max_tokens.
Proof.
  intros H. unfold MS.truncate_input.
  destruct (Z.ltb_spec (GPT2_BLOCK_SIZE cfg - max_tokens) (MS.len input_ids)) as [Hlt|Hge].
  - split; [apply slice_from_suffix|]. rewrite slice_from_last by lia. lia.
  - split; [exists []; reflexivity | lia].
Qed.

(** C2, the code at the failing input.  With [max_tokens] equal to the
    context window the slice is [input_ids[-0:]], the whole list: nothing is
    dropped, and the three ids retained exceed the bound of
    [context_window - max_tokens = 0]. *)
Theorem truncate_input_keeps_all_at_full_window :
  (forall cfg input_ids,
      MS.truncate_input cfg input_ids (GPT2_BLOCK_SIZE cfg) = input_ids) /\
  MS.truncate_input default_config [15496; 11; 995] 1024 = [15496; 11; 995] /\
  ~ (MS.len (MS.truncate_input default_config [15496; 11; 995] 1024)
     <= GPT2_BLOCK_SIZE default_config - 1024).
Proof.
  split; [|split].
  - intros cfg input_ids. unfold MS.truncate_input.
    rewrite Z.sub_diag. destruct (0 <? MS.len input_ids); [apply slice_from_zero|reflexivity].
  - vm_compute. reflexivity.
  - vm_compute. intros H. apply H. reflexivity.
Qed.

Section Decoding.
Variable cfg : Config.
Variable scfg : SamplingConfig.
Variable enc : string -> list Z.
Variable dec : list Z -> string.
Variable model : list Z -> list MS.float.
Variable RNG : Type.
Variable multinomial : list R -> RNG -> Z * RNG.

Local Abbreviation sampling_step := (MS.sampling_step cfg scfg model multinomial).
Local Abbreviation generate_loop := (MS.generate_loop cfg scfg model multinomial).
Local Abbreviation stream_loop := (MS.stream_loop cfg scfg dec model multinomial).
Local Abbreviation generate := (MS.generate cfg scfg enc dec model multinomial).
Local Abbreviation generate_stream := (MS.generate_stream cfg scfg enc dec model multinomial).

Lemma select_token_ok logits T P g :
  exists tok g', MS.select_token multinomial logits T P g = (Ok tok, g').
Proof.
  unfold MS.select_token. destruct (Rlt_dec 0 T).
  - cbv zeta. destruct (multinomial _ g) as [tok g']. eauto.
  - unfold ret. eauto.
Qed.

Lemma sampling_step_ok idx gen T P g :
  exists tok g', sampling_step idx gen T P g = (Ok tok, g').
Proof. unfold MS.sampling_step. apply select_token_ok. Qed.

Lemma generate_loop_bound steps : forall idx gen T P g,
  exists out g',
    generate_loop steps idx gen T P g = (Ok out, g') /\
    (length gen <= length out <= length gen + steps)%nat.
Proof.
  induction steps as [|n IH]; intros idx gen T P g; simpl.
  - exists gen, g. split; [reflexivity | lia].
  - unfold bind. destruct (sampling_step_ok idx gen T P g) as (tok & g1 & ->).
    destruct (tok =? GPT2_EOS_TOKEN_ID cfg).
    + exists gen, g1. split; [reflexivity | lia].
    + destruct (IH (idx ++ [tok]) (gen ++ [tok]) T P g1) as (out & g' & -> & Hb).
      exists out, g'. split; [reflexivity|]. rewrite length_app in Hb. simpl in Hb. lia.
Qed.

Lemma stream_loop_shape steps : forall pt idx gen T P g,
  exists front last g',
    stream_loop steps pt idx gen T P g = (Ok (front ++ [last]), g') /\
    (length front <= steps)%nat /\
    Forall (fun e => MS.is_done e = false) front /\
    MS.is_done last = true /\
    MS.token_text last = EmptyString /\
    MS.ev_completion_tokens last = MS.len gen + MS.len front.
Proof.
  induction steps as [|n IH]; intros pt idx gen T P g; simpl.
  - eexists [], _, g. split; [reflexivity|]. simpl.
    repeat split; auto. unfold MS.len. simpl. lia.
  - unfold bind at 1. destruct (sampling_step_ok idx gen T P g) as (tok & g1 & ->).
    destruct (tok =? GPT2_EOS_TOKEN_ID cfg).
    + eexists [], _, g1. split; [reflexivity|]. simpl.
      repeat split; auto; try lia. unfold MS.len. simpl. lia.
    + unfold bind.
      destruct (IH pt (idx ++ [tok]) (gen ++ [tok]) T P g1)
        as (front & last & g' & -> & Hlen & Hnd & Hd & Ht & Hc).
      eexists (_ :: front), last, g'. split; [reflexivity|]. simpl.
      split; [lia|]. split; [constructor; [reflexivity | exact Hnd]|].
      split; [exact Hd|]. split; [exact Ht|].
      rewrite Hc. unfold MS.len. rewrite length_app. simpl. lia.
Qed.

(** C7.  With the model loaded and [1 <= max_tokens], [generate] returns,
    reporting at most [max_tokens] completion tokens, and a drained
    [generate_stream] yields at most [max_tokens + 1] events of which the
    last, and only the last, is terminal, with an empty token text. *)
Theorem decoding_halts_within_max_tokens
    (self : MS.t) (prompt : string) (max_tokens : Z) (temperature top_p : option R)
    (g : RNG) :
  MS.is_loaded self = true ->
  1 <= max_tokens ->
  (exists text completion_tokens g',
      generate self prompt (Some max_tokens) temperature top_p g
      = (Ok (text, MS.len (enc prompt), completion_tokens), g') /\
      0 <= completion_tokens <= max_tokens) /\
  (exists front last g',
      generate_stream self prompt (Some max_tokens) temperature top_p g
      = (Ok (front ++ [last]), g') /\
      MS.len (front ++ [last]) <= max_tokens + 1 /\
      Forall (fun e => MS.is_done e = false) front /\
      MS.is_done last = true /\
      MS.token_text last = EmptyString).
Proof.
  intros Hloaded Hmt.
  assert (Hor : Py.int_or (Some max_tokens) (DEFAULT_MAX_TOKENS cfg) = max_tokens).
  { unfold Py.int_or. destruct (Z.eqb_spec max_tokens 0); [lia | reflexivity]. }
  split.
  - unfold MS.generate. rewrite Hloaded, Hor. simpl negb. cbv iota zeta.
    cbv beta iota zeta delta [negb bind ret].
    match goal with
    | |- context [MS.generate_loop _ _ _ _ ?n ?idx ?gen ?T ?P g] =>
        destruct (generate_loop_bound n idx gen T P g) as (out & g' & -> & Hb)
    end.
    eexists _, _, g'. split; [reflexivity|]. unfold MS.len. simpl in Hb. lia.
  - unfold MS.generate_stream. rewrite Hloaded, Hor.
    cbv beta iota zeta delta [negb].
    match goal with
    | |- context [MS.stream_loop _ _ _ _ _ ?n ?pt ?idx ?gen ?T ?P g] =>
        destruct (stream_loop_shape n pt idx gen T P g)
          as (front & last & g' & -> & Hlen & Hnd & Hd & Ht & _)
    end.
    exists front, last, g'. split; [reflexivity|].
    split; [|auto]. unfold MS.len. rewrite length_app. simpl. lia.
Qed.
End Decoding.





















Section Greedy.
Variable cfg : Config.
Variable scfg : SamplingConfig.
Variable enc : string -> list Z.
Variable dec : list Z -> string.
Variable model : list Z -> list MS.float.
Variable RNG : Type.
Variable multinomial : list R -> RNG -> Z * RNG.

Local Abbreviation sampling_step := (MS.sampling_step cfg scfg model multinomial).
Local Abbreviation generate_loop := (MS.generate_loop cfg scfg model multinomial).
Local Abbreviation stream_loop := (MS.stream_loop cfg scfg dec model multinomial).
Local Abbreviation generate := (MS.generate cfg scfg enc dec model multinomial).
Local Abbreviation generate_stream := (MS.generate_stream cfg scfg enc dec model multinomial).





End Greedy.


Lemma decoding_halts_within_max_tokens_witness :
  (exists text completion_tokens g',
      MS.generate default_config default_sampling char_codec toy_decode toy_model
        toy_multinomial loaded "hello" (Some 3) (Some 0%R) None 0%nat
      = (Ok (text, MS.len (char_codec "hello"), completion_tokens), g') /\
      0 <= completion_tokens <= 3) /\
  (exists front last g',
      MS.generate_stream default_config default_sampling char_codec toy_decode toy_model
        toy_multinomial loaded "hello" (Some 3) (Some 0%R) None 0%nat
      = (Ok (front ++ [last]), g') /\
      MS.len (front ++ [last]) <= 3 + 1 /\
      Forall (fun e => MS.is_done e = false) front /\
      MS.is_done last = true /\
      MS.token_text last = EmptyString).
Proof.
  apply decoding_halts_within_max_tokens; [reflexivity | lia].
Defined.

(* ===================================================================== *)
(** ** Further properties *)
(* ===================================================================== *)

(** *** The store: round trips, [clear], listing *)

Lemma store_inv_run_app cap ops more :
  store_inv cap (ops ++ more) (CS.run more (CS.run ops (CS.init cap))).
Proof.
  pose proof (store_inv_run cap (ops ++ more)) as H.
  unfold CS.run in *. rewrite fold_left_app in H. exact H.
Qed.

Lemma stored_history_add st sid m now :
  NoDup (OrderedDict.keys (CS.sessions st)) ->
  (0 < CS.max_sessions st)%nat ->
  stored_history sid (CS.exec (CS.AddMessage sid m now) st)
  = stored_history sid st ++ [CS.backfill_timestamp now m].
Proof.
  intros Hnd Hpos. unfold stored_history at 2. simpl.
  destruct (OrderedDict.getitem sid (CS.sessions st)) as [l|] eqn:Hg.
  - rewrite (add_message_present st sid l m now Hnd Hg). unfold stored_history. simpl.
    rewrite getitem_last by (apply not_In_keys_remove; assumption). reflexivity.
  - apply getitem_None in Hg. pose proof (proj1 (contains_false_In _ _) Hg) as Hn.
    destruct (Nat.lt_ge_cases (length (CS.sessions st)) (CS.max_sessions st)) as [Hlt|Hge].
    + rewrite (add_message_fresh st sid m now Hn Hlt). unfold stored_history. simpl.
      rewrite getitem_last by assumption. reflexivity.
    + destruct (CS.sessions st) as [|kv rest] eqn:Hd; [simpl in Hge; lia|].
      assert (Hnd' : NoDup (OrderedDict.keys (CS.sessions st))) by (rewrite Hd; exact Hnd).
      assert (Hn' : ~ In sid (OrderedDict.keys (CS.sessions st))) by (rewrite Hd; exact Hn).
      assert (Hge' : (CS.max_sessions st <= length (CS.sessions st))%nat)
        by (rewrite Hd; exact Hge).
      rewrite (add_message_evict st sid m now kv rest Hnd' Hn' Hge' Hd).
      unfold stored_history. simpl.
      rewrite getitem_last by (simpl in Hn; tauto). reflexivity.
Qed.

Lemma exec_keeps_capacity o st : CS.max_sessions (CS.exec o st) = CS.max_sessions st.
Proof.
  destruct o as [sid|sid m now|sid]; simpl.
  - unfold CS.get. run_monad. destruct (OrderedDict.contains sid (CS.sessions st)); [|reflexivity].
    destruct (OrderedDict.move_to_end sid (CS.sessions st)); simpl; [|reflexivity].
    destruct (OrderedDict.getitem sid t); reflexivity.
  - unfold CS.add_message. run_monad.
    destruct (negb (OrderedDict.contains sid (CS.sessions st))).
    + destruct (CS.max_sessions st <=? length (CS.sessions st))%nat.
      * destruct (OrderedDict.popitem_first (CS.sessions st)) as [[kv r]|]; simpl; [|reflexivity].
        destruct (OrderedDict.move_to_end sid (OrderedDict.setitem sid [] r)); simpl;
          [|reflexivity].
        destruct (OrderedDict.getitem sid t); reflexivity.
      * simpl.
        destruct (OrderedDict.move_to_end sid (OrderedDict.setitem sid [] (CS.sessions st)));
          simpl; [|reflexivity].
        destruct (OrderedDict.getitem sid t); reflexivity.
    + simpl. destruct (OrderedDict.move_to_end sid (CS.sessions st)); simpl; [|reflexivity].
      destruct (OrderedDict.getitem sid t); reflexivity.
  - unfold CS.clear. run_monad. destruct (OrderedDict.contains sid (CS.sessions st)); [|reflexivity].
    destruct (OrderedDict.delitem sid (CS.sessions st)); reflexivity.
Qed.

Lemma stored_history_appends sid ms : forall st,
  NoDup (OrderedDict.keys (CS.sessions st)) ->
  (0 < CS.max_sessions st)%nat ->
  stored_history sid (CS.run (appends sid ms) st) = stored_history sid st ++ stamped ms /\
  NoDup (OrderedDict.keys (CS.sessions (CS.run (appends sid ms) st))).
Proof.
  induction ms as [|[m now] r IH]; intros st Hnd Hpos.
  - simpl. rewrite app_nil_r. auto.
  - destruct (add_message_ok st sid m now Hnd Hpos) as (d & Hadd & Hnd').
    assert (Hex : CS.exec (CS.AddMessage sid m now) st = CS.set_sessions d st)
      by (simpl; rewrite Hadd; reflexivity).
    change (CS.run (appends sid ((m, now) :: r)) st)
      with (CS.run (appends sid r) (CS.exec (CS.AddMessage sid m now) st)).
    destruct (IH (CS.exec (CS.AddMessage sid m now) st)) as [Hh Hn].
    + rewrite Hex. exact Hnd'.
    + rewrite exec_keeps_capacity. exact Hpos.
    + split; [|exact Hn]. rewrite Hh.
      rewrite (stored_history_add st sid m now Hnd Hpos), <- app_assoc. reflexivity.
Qed.

Lemma get_returns_stored st sid :
  NoDup (OrderedDict.keys (CS.sessions st)) ->
  fst (CS.get sid st) = Ok (stored_history sid st).
Proof.
  intros Hnd. unfold stored_history.
  destruct (OrderedDict.getitem sid (CS.sessions st)) as [l|] eqn:Hg.
  - rewrite (get_present st sid l Hnd Hg). reflexivity.
  - apply getitem_None in Hg. rewrite (get_absent st sid Hg). reflexivity.
Qed.

(** X1.  Messages appended in a row to one session of a store of capacity
    not zero are returned by [get], after the messages the session held, in
    the order of their appends and stamped where they had no timestamp; for
    a session the store did not hold these are exactly the appended
    messages. *)
Theorem appends_then_get
    (cap : nat) (ops : list CS.op) (sid : string) (ms : list (ChatMessage * datetime)) :
  (0 < cap)%nat ->
  let st := CS.run ops (CS.init cap) in
  fst (CS.get sid (CS.run (appends sid ms) st))
  = Ok (stored_history sid st ++ stamped ms).
Proof.
  intros Hpos st. destruct (store_inv_run cap ops) as [Hnd _ _ Hcap]. fold st in Hnd, Hcap.
  destruct (stored_history_appends sid ms st Hnd) as [Hh Hnd']; [lia|].
  rewrite (get_returns_stored _ sid Hnd'), Hh. reflexivity.
Qed.

Lemma appends_then_get_witness :
  fst (CS.get "s1" (CS.run (appends "s1" [(mkMessage user "Hello", 7)])
                     (CS.run [] (CS.init 2))))
  = Ok (stored_history "s1" (CS.run [] (CS.init 2))
        ++ stamped [(mkMessage user "Hello", 7)]).
Proof.
  apply (appends_then_get 2 [] "s1" [(mkMessage user "Hello", 7)]). lia.
Defined.

Lemma keys_remove_filter {V} k (d : OrderedDict.t V) :
  NoDup (OrderedDict.keys d) ->
  OrderedDict.keys (OrderedDict.remove k d)
  = filter (fun x => negb (String.eqb k x)) (OrderedDict.keys d).
Proof.
  induction d as [|[k' v'] r IH]; simpl; [reflexivity|].
  intros Hnd. inversion Hnd as [|? ? Hn Hr]; subst.
  destruct (String.eqb_spec k k') as [->|Hne]; simpl.
  - symmetry. clear IH Hnd Hr. induction r as [|[k0 v0] r IH]; simpl; [reflexivity|].
    simpl in Hn. destruct (String.eqb_spec k' k0) as [->|Hne]; [tauto|].
    simpl. f_equal. apply IH. tauto.
  - f_equal. apply IH. exact Hr.
Qed.

(** X2.  On a store reached by any run of calls, [clear] reports whether the
    session was stored and raises nothing; afterwards the session is gone
    ([get] finds no message and creates nothing), every other session keeps
    its messages and its place in the order of recency, and a second [clear]
    reports [False]. *)
Theorem clear_removes_one_session (cap : nat) (ops : list CS.op) (sid : string) :
  let st := CS.run ops (CS.init cap) in
  let st' := snd (CS.clear sid st) in
  fst (CS.clear sid st) = Ok (OrderedDict.contains sid (CS.sessions st)) /\
  OrderedDict.contains sid (CS.sessions st') = false /\
  CS.get sid st' = (Ok [], st') /\
  CS.clear sid st' = (Ok false, st') /\
  OrderedDict.keys (CS.sessions st')
  = filter (fun k => negb (String.eqb sid k)) (OrderedDict.keys (CS.sessions st)) /\
  (forall k, k <> sid ->
             OrderedDict.getitem k (CS.sessions st') = OrderedDict.getitem k (CS.sessions st)) /\
  CS.max_sessions st' = CS.max_sessions st.
Proof.
  intros st st'. destruct (store_inv_run cap ops) as [Hnd _ _ _]. fold st in Hnd.
  subst st'. destruct (OrderedDict.contains sid (CS.sessions st)) eqn:Hc.
  - rewrite (clear_present st sid Hc). simpl.
    assert (Hgone : OrderedDict.contains sid (OrderedDict.remove sid (CS.sessions st)) = false).
    { apply contains_false_In. apply not_In_keys_remove. exact Hnd. }
    split; [reflexivity|]. split; [exact Hgone|].
    split; [apply get_absent; exact Hgone|]. split; [apply clear_absent; exact Hgone|].
    split; [apply keys_remove_filter; exact Hnd|]. split; [|reflexivity].
    intros k Hne. apply getitem_remove_other. exact Hne.
  - rewrite (clear_absent st sid Hc). simpl.
    split; [reflexivity|]. split; [exact Hc|].
    split; [apply get_absent; exact Hc|]. split; [apply clear_absent; exact Hc|].
    split; [|split; reflexivity].
    apply contains_false_In in Hc. clear Hnd.
    induction (CS.sessions st) as [|[k0 v0] r IH]; simpl; [reflexivity|].
    simpl in Hc. destruct (String.eqb_spec sid k0) as [->|Hne]; [tauto|].
    simpl. f_equal. apply IH. tauto.
Qed.

(** X3.  On a store reached by any run of calls, [get] raises nothing and
    returns the messages of the session, or the empty list for an id that is
    not stored, in which case the store is left as it was and no session is
    created; in every case the stored ids and the messages of every session
    are the same after the call. *)
Theorem get_reads_without_changing_content
    (cap : nat) (ops : list CS.op) (sid : string) :
  let st := CS.run ops (CS.init cap) in
  let st' := snd (CS.get sid st) in
  fst (CS.get sid st) = Ok (stored_history sid st) /\
  (OrderedDict.contains sid (CS.sessions st) = false -> st' = st) /\
  (forall k, OrderedDict.getitem k (CS.sessions st') = OrderedDict.getitem k (CS.sessions st)) /\
  (forall k, In k (OrderedDict.keys (CS.sessions st')) <->
             In k (OrderedDict.keys (CS.sessions st))) /\
  length (CS.sessions st') = length (CS.sessions st).
Proof.
  intros st st'. destruct (store_inv_run cap ops) as [Hnd _ _ _]. fold st in Hnd.
  split; [apply get_returns_stored; exact Hnd|]. subst st'.
  destruct (OrderedDict.getitem sid (CS.sessions st)) as [l|] eqn:Hg.
  - assert (Hc : OrderedDict.contains sid (CS.sessions st) = true)
      by (apply getitem_contains; eauto).
    rewrite (get_present st sid l Hnd Hg). simpl.
    pose proof (not_In_keys_remove sid _ Hnd) as Hn.
    split; [rewrite Hc; discriminate|]. split; [|split].
    + intros k. destruct (String.eqb_spec k sid) as [->|Hne].
      * rewrite getitem_last by exact Hn. symmetry. exact Hg.
      * rewrite getitem_app_other by exact Hne. apply getitem_remove_other. exact Hne.
    + intros k. rewrite keys_app, in_app_iff, In_keys_remove_iff by exact Hnd. simpl.
      apply contains_In in Hc. destruct (String.eqb_spec k sid) as [->|Hne]; intuition congruence.
    + rewrite length_app. simpl. pose proof (length_remove _ _ Hc). lia.
  - apply getitem_None in Hg. rewrite (get_absent st sid Hg). simpl.
    repeat split; auto.
Qed.

Lemma get_reads_without_changing_content_witness :
  snd (CS.get "Z" (CS.run ops_AB_getA (CS.init 2))) = CS.run ops_AB_getA (CS.init 2).
Proof.
  apply (proj1 (proj2 (get_reads_without_changing_content 2 ops_AB_getA "Z"))).
  reflexivity.
Defined.

(** X4.  On a store reached by any run of calls, [get_all_sessions] lists
    every stored session id exactly once, at most [max_sessions] of them,
    and leaves the store and its order of recency as they were. *)
Theorem get_all_sessions_lists_each_once (cap : nat) (ops : list CS.op) :
  let st := CS.run ops (CS.init cap) in
  exists ids,
    CS.get_all_sessions st = (Ok ids, st) /\
    NoDup ids /\
    (length ids <= cap)%nat /\
    (forall k, In k ids <-> OrderedDict.contains k (CS.sessions st) = true).
Proof.
  intros st. destruct (store_inv_run cap ops) as [Hnd _ Hsz _]. fold st in Hnd, Hsz.
  exists (OrderedDict.keys (CS.sessions st)). split; [reflexivity|].
  split; [exact Hnd|]. split.
  - unfold OrderedDict.keys. rewrite length_map. exact Hsz.
  - intros k. symmetry. apply contains_In.
Qed.

(** *** The validator *)

Lemma lstrip_head s :
  Py.lstrip s = EmptyString \/
  exists c r, Py.lstrip s = String c r /\ Py.is_space c = false.
Proof.
  induction s as [|c r IH]; simpl; [left; reflexivity|].
  destruct (Py.is_space c) eqn:E; [exact IH|]. right. eauto.
Qed.

Lemma lstrip_fixed c r : Py.is_space c = false -> Py.lstrip (String c r) = String c r.
Proof. intros H. simpl. rewrite H. reflexivity. Qed.

Lemma rstrip_head c r :
  Py.is_space c = false -> exists r', Py.rstrip (String c r) = String c r'.
Proof.
  intros H. simpl. destruct (Py.rstrip r); [rewrite H|]; eauto.
Qed.

Lemma rstrip_idem s : Py.rstrip (Py.rstrip s) = Py.rstrip s.
Proof.
  induction s as [|c r IH]; simpl; [reflexivity|].
  destruct (Py.rstrip r) as [|c' r'] eqn:E.
  - destruct (Py.is_space c) eqn:Ec; simpl; [reflexivity|]. rewrite Ec. reflexivity.
  - simpl. simpl in IH. rewrite IH. reflexivity.
Qed.

Lemma strip_idem s : Py.strip (Py.strip s) = Py.strip s.
Proof.
  unfold Py.strip. destruct (lstrip_head s) as [E|(c & r & E & Hc)]; rewrite E.
  - reflexivity.
  - destruct (rstrip_head c r Hc) as [r' E']. rewrite E'.
    rewrite (lstrip_fixed c r' Hc), <- E'. apply rstrip_idem.
Qed.

Lemma strip_no_lead s : Py.lstrip (Py.strip s) = Py.strip s.
Proof.
  unfold Py.strip. destruct (lstrip_head s) as [E|(c & r & E & Hc)]; rewrite E.
  - reflexivity.
  - destruct (rstrip_head c r Hc) as [r' E']. rewrite E'. apply lstrip_fixed. exact Hc.
Qed.

Lemma strip_no_trail s : Py.rstrip (Py.strip s) = Py.strip s.
Proof. unfold Py.strip. apply rstrip_idem. Qed.

Lemma strip_empty : Py.strip EmptyString = EmptyString.
Proof. reflexivity. Qed.

Lemma truthy_false s : Py.truthy s = false -> s = EmptyString.
Proof. destruct s; [reflexivity | discriminate]. Qed.

Lemma content_not_empty_cases v :
  (Py.strip v = EmptyString /\
   content_not_empty v = Raise (ValueError "Message content cannot be empty")) \/
  (Py.truthy (Py.strip v) = true /\ content_not_empty v = Ok (Py.strip v)).
Proof.
  unfold content_not_empty. destruct (Py.truthy v) eqn:Ev; simpl.
  - destruct (Py.truthy (Py.strip v)) eqn:Es; simpl; [right; auto|].
    left. split; [apply truthy_false; exact Es | reflexivity].
  - left. apply truthy_false in Ev. subst v. split; reflexivity.
Qed.

(** X5.  For a content of ASCII characters, the validator of [ChatMessage]
    refuses, with [ValueError], exactly the contents that are empty once
    stripped; a content it accepts is stored stripped, is not empty, carries
    no whitespace at either end, and is accepted unchanged when validated
    again. *)
Theorem validator_accepts_stripped_content (r : Role) (v : string) :
  is_ascii v = true ->
  match ChatMessage_new r v with
  | Ok m =>
      role m = r /\ content m = Py.strip v /\ timestamp m = None /\ sources m = None /\
      Py.truthy (content m) = true /\
      Py.lstrip (content m) = content m /\ Py.rstrip (content m) = content m /\
      validated m
  | Raise e =>
      e = ValueError "Message content cannot be empty" /\ Py.strip v = EmptyString
  end.
Proof.
  intros _. unfold ChatMessage_new.
  destruct (content_not_empty_cases v) as [[Hs He]|[Hs He]]; rewrite He.
  - auto.
  - simpl. repeat split; auto using strip_no_lead, strip_no_trail.
    unfold validated. simpl.
    destruct (content_not_empty_cases (Py.strip v)) as [[Hs' _]|[_ He']].
    + rewrite strip_idem in Hs'. rewrite Hs' in Hs. discriminate.
    + rewrite He', strip_idem. reflexivity.
Qed.

Lemma validator_accepts_stripped_content_witness :
  match ChatMessage_new user "  Hello, how are you? " with
  | Ok m =>
      role m = user /\ content m = Py.strip "  Hello, how are you? " /\
      timestamp m = None /\ sources m = None /\
      Py.truthy (content m) = true /\
      Py.lstrip (content m) = content m /\ Py.rstrip (content m) = content m /\
      validated m
  | Raise e =>
      e = ValueError "Message content cannot be empty" /\
      Py.strip "  Hello, how are you? " = EmptyString
  end.
Proof.
  apply (validator_accepts_stripped_content user "  Hello, how are you? "). reflexivity.
Defined.

(** *** Adding a message through the manager *)

Lemma on_store_add_message w sid m now :
  NoDup (OrderedDict.keys (CS.sessions (CM.store w))) ->
  (0 < CS.max_sessions (CM.store w))%nat ->
  exists w',
    CM.on_store (CS.add_message sid m now) w = (Ok tt, w') /\
    CM.store w' = CS.exec (CS.AddMessage sid m now) (CM.store w) /\
    CM.search_service w' = CM.search_service w.
Proof.
  intros Hnd Hpos. destruct (add_message_ok (CM.store w) sid m now Hnd Hpos) as (d & Hadd & _).
  unfold CM.on_store, zoom. simpl CS.exec. rewrite Hadd. eexists. repeat split.
Qed.

(** X6.  For a content of ASCII characters, [add_user_message] and
    [add_assistant_message] refuse a content that is empty once stripped
    with [ValueError] and leave the store as it was; any other content is
    stored stripped, as the last message of the session, with the role of
    the method, the sources given and a timestamp, and that message is
    returned. *)
Theorem add_message_methods_validate_then_append
    (w : CM.World) (sid content : string) (srcs : option (list SearchResult))
    (now : datetime) :
  NoDup (OrderedDict.keys (CS.sessions (CM.store w))) ->
  (0 < CS.max_sessions (CM.store w))%nat ->
  is_ascii content = true ->
  (Py.strip content = EmptyString ->
   CM.add_user_message sid content now w
   = (Raise (ValueError "Message content cannot be empty"), w) /\
   CM.add_assistant_message sid content srcs now w
   = (Raise (ValueError "Message content cannot be empty"), w)) /\
  (Py.strip content <> EmptyString ->
   let um := {| role := user; content := Py.strip content;
                timestamp := Some now; sources := None |} in
   let am := {| role := assistant; content := Py.strip content;
                timestamp := Some now; sources := srcs |} in
   (exists w',
       CM.add_user_message sid content now w = (Ok um, w') /\
       stored_history sid (CM.store w') = stored_history sid (CM.store w) ++ [um]) /\
   (exists w',
       CM.add_assistant_message sid content srcs now w = (Ok am, w') /\
       stored_history sid (CM.store w') = stored_history sid (CM.store w) ++ [am])).
Proof.
  intros Hnd Hpos _. split.
  - intros Hblank. unfold CM.add_user_message, CM.add_assistant_message, ChatMessage_new.
    destruct (content_not_empty_cases content) as [[_ He]|[Hs _]].
    + rewrite He. split; reflexivity.
    + rewrite Hblank in Hs. discriminate.
  - intros Hfull um am.
    destruct (content_not_empty_cases content) as [[Hs _]|[_ He]]; [contradiction|].
    split.
    + unfold CM.add_user_message, ChatMessage_new. rewrite He. simpl CM.lift_result.
      unfold bind at 1. unfold ret at 1.
      destruct (on_store_add_message w sid (mkMessage user (Py.strip content)) now Hnd Hpos)
        as (w' & Hrun & Hst & _).
      unfold bind. rewrite Hrun. exists w'. split; [reflexivity|].
      rewrite Hst. apply stored_history_add; assumption.
    + unfold CM.add_assistant_message. rewrite He. simpl CM.lift_result.
      unfold bind at 1. unfold ret at 1.
      match goal with
      | |- context [CS.add_message sid ?m now] =>
          destruct (on_store_add_message w sid m now Hnd Hpos) as (w' & Hrun & Hst & _)
      end.
      unfold bind. rewrite Hrun. exists w'. split; [reflexivity|].
      rewrite Hst. apply stored_history_add; assumption.
Qed.

Lemma add_message_methods_validate_then_append_witness :
  (CM.add_assistant_message "s1" "   " None 5 CM.init
   = (Raise (ValueError "Message content cannot be empty"), CM.init)) /\
  (exists w',
      CM.add_assistant_message "s1" " Hi there. " None 5 CM.init
      = (Ok {| role := assistant; content := Py.strip " Hi there. ";
               timestamp := Some 5; sources := None |}, w') /\
      stored_history "s1" (CM.store w')
      = stored_history "s1" (CM.store CM.init)
        ++ [{| role := assistant; content := Py.strip " Hi there. ";
               timestamp := Some 5; sources := None |}]).
Proof.
  split.
  - apply (add_message_methods_validate_then_append CM.init "s1" "   " None 5);
      [simpl; constructor | simpl; lia | reflexivity | reflexivity].
  - apply (add_message_methods_validate_then_append CM.init "s1" " Hi there. " None 5);
      [simpl; constructor | simpl; lia | reflexivity | vm_compute; discriminate].
Defined.

(** *** What a turn does to the store and when it searches *)

Lemma stamped_clocked now msgs : forall i,
  stamped (clocked now i msgs) = stamp_from now i msgs.
Proof.
  induction msgs as [|m r IH]; intros i; simpl; [reflexivity|].
  unfold stamped in *. simpl. rewrite IH. reflexivity.
Qed.

Lemma backfill_role now m : role (CS.backfill_timestamp now m) = role m.
Proof. unfold CS.backfill_timestamp. destruct (timestamp m); reflexivity. Qed.

Lemma backfill_content now m : content (CS.backfill_timestamp now m) = content m.
Proof. unfold CS.backfill_timestamp. destruct (timestamp m); reflexivity. Qed.

Lemma last_user_stamp_content now msgs : forall i l l',
  option_map content l = option_map content l' ->
  option_map content (last_user l (stamp_from now i msgs))
  = option_map content (last_user l' msgs).
Proof.
  induction msgs as [|m r IH]; intros i l l' H; simpl; [exact H|].
  rewrite backfill_role. destruct (role m); apply IH; auto.
  simpl. rewrite backfill_content. reflexivity.
Qed.

Section TurnFacts.
Variable cfg : Config.
Variable web : SS.Web.
Variable enc : string -> list Z.

Lemma add_new_messages_run sid now new : forall i history last w,
  NoDup (OrderedDict.keys (CS.sessions (CM.store w))) ->
  (0 < CS.max_sessions (CM.store w))%nat ->
  CM.add_new_messages sid new now i history last w
  = (Ok (history ++ stamp_from now i new, last_user last (stamp_from now i new)),
     {| CM.store := CS.run (appends sid (clocked now i new)) (CM.store w);
        CM.search_service := CM.search_service w |}).
Proof.
  induction new as [|m r IH]; intros i history last w Hnd Hpos.
  - simpl. rewrite app_nil_r. destruct w; reflexivity.
  - destruct (add_message_ok (CM.store w) sid m (now i) Hnd Hpos) as (d & Hadd & Hnd').
    cbn [CM.add_new_messages]. unfold bind at 1. unfold CM.on_store at 1, zoom. rewrite Hadd.
    rewrite IH; [|exact Hnd'|exact Hpos].
    cbn [stamp_from clocked appends map fst snd last_user CM.store CM.search_service].
    rewrite <- app_assoc. cbn [app].
    unfold CS.run at 2. cbn [fold_left CS.exec]. rewrite Hadd. cbn [snd].
    rewrite !backfill_role. destruct (role m); reflexivity.
Qed.

(** [prepare_prompt] after its first two steps. *)
Lemma prepare_prompt_unfold w sid new mt now :
  NoDup (OrderedDict.keys (CS.sessions (CM.store w))) ->
  (0 < CS.max_sessions (CM.store w))%nat ->
  let history := stored_history sid (CM.store w) ++ stamp_from now 0 new in
  let truncated := CM._truncate_messages enc history (Py.int_or mt (MAX_CONTEXT_TOKENS cfg)) in
  CM.prepare_prompt cfg web enc sid new mt now w
  = bind (search_branch cfg web (last_user None (stamp_from now 0 new)))
      (fun '(sr, srcs, used) =>
         bind (CM.lift_result (CM._build_prompt truncated sr))
           (fun prompt => ret (prompt, CM.count_tokens enc prompt, srcs, used)))
      {| CM.store := CS.run (appends sid (clocked now 0 new)) (snd (CS.get sid (CM.store w)));
         CM.search_service := CM.search_service w |}.
Proof.
  intros Hnd Hpos history truncated.
  destruct (get_ok (CM.store w) sid Hnd) as (stored & d & Hget & Hnd1 & Hst).
  assert (Hstored : stored_history sid (CM.store w) = stored).
  { unfold stored_history. destruct Hst as [->|[-> ->]]; reflexivity. }
  unfold CM.prepare_prompt.
  unfold bind at 1. unfold CM.on_store at 1, zoom. rewrite Hget. cbv beta iota.
  unfold bind at 1.
  rewrite add_new_messages_run; [|exact Hnd1|exact Hpos].
  cbv beta iota. subst truncated history. rewrite Hstored. reflexivity.
Qed.

Lemma search_branch_store last w :
  exists r s,
    search_branch cfg web last w
    = (Ok r, {| CM.store := CM.store w; CM.search_service := s |}).
Proof.
  unfold search_branch. destruct last as [m|]; [|exists (None, None, false), (CM.search_service w); destruct w; reflexivity].
  destruct (CM._should_search cfg (content m));
    [|exists (None, None, false), (CM.search_service w); destruct w; reflexivity].
  unfold bind, CM.on_search, zoom.
  destruct (search_total cfg web (content m) None (CM.search_service w)) as (r0 & s0 & E).
  rewrite E. destruct (SS.nonempty r0); eexists _, s0; reflexivity.
Qed.

Lemma prepare_prompt_store w sid new mt now :
  NoDup (OrderedDict.keys (CS.sessions (CM.store w))) ->
  (0 < CS.max_sessions (CM.store w))%nat ->
  CM.store (snd (CM.prepare_prompt cfg web enc sid new mt now w))
  = CS.run (appends sid (clocked now 0 new)) (snd (CS.get sid (CM.store w))).
Proof.
  intros Hnd Hpos. rewrite (prepare_prompt_unfold w sid new mt now Hnd Hpos).
  unfold bind at 1.
  match goal with
  | |- context [search_branch cfg web ?l ?w2] =>
      destruct (search_branch_store l w2) as ([[sr srcs] used] & s & E)
  end.
  rewrite E. unfold bind.
  destruct (CM._build_prompt _ sr); reflexivity.
Qed.
End TurnFacts.

Lemma get_keeps_history st sid k :
  NoDup (OrderedDict.keys (CS.sessions st)) ->
  stored_history k (snd (CS.get sid st)) = stored_history k st /\
  NoDup (OrderedDict.keys (CS.sessions (snd (CS.get sid st)))) /\
  CS.max_sessions (snd (CS.get sid st)) = CS.max_sessions st.
Proof.
  intros Hnd. unfold stored_history.
  destruct (OrderedDict.getitem sid (CS.sessions st)) as [l0|] eqn:Hg.
  - rewrite (get_present st sid l0 Hnd Hg). cbn [snd CS.set_sessions CS.sessions CS.max_sessions].
    pose proof (not_In_keys_remove sid _ Hnd) as Hn.
    split; [|split; [|reflexivity]].
    + destruct (String.eqb_spec k sid) as [->|Hne].
      * rewrite getitem_last by exact Hn. rewrite Hg. reflexivity.
      * rewrite getitem_app_other by exact Hne.
        rewrite getitem_remove_other by exact Hne. reflexivity.
    + rewrite keys_app. apply NoDup_snoc; [apply NoDup_keys_remove; exact Hnd | exact Hn].
  - apply getitem_None in Hg. rewrite (get_absent st sid Hg). cbn [snd]. auto.
Qed.

(** X7.  [prepare_prompt] stores the new messages before anything else can
    go wrong: when the call ends, normally or not, the session holds the
    messages it held before followed by the new messages, stamped, in their
    order. *)
Theorem prepare_prompt_persists_new_messages
    (cfg : Config) (web : SS.Web) (enc : string -> list Z)
    (w : CM.World) (sid : string) (new : list ChatMessage) (mt : option Z)
    (now : nat -> datetime) :
  NoDup (OrderedDict.keys (CS.sessions (CM.store w))) ->
  (0 < CS.max_sessions (CM.store w))%nat ->
  stored_history sid (CM.store (snd (CM.prepare_prompt cfg web enc sid new mt now w)))
  = stored_history sid (CM.store w) ++ stamp_from now 0 new.
Proof.
  intros Hnd Hpos. rewrite (prepare_prompt_store cfg web enc w sid new mt now Hnd Hpos).
  destruct (get_keeps_history (CM.store w) sid sid Hnd) as (Hh & Hnd' & Hcap).
  destruct (stored_history_appends sid (clocked now 0 new) _ Hnd') as [Happ _];
    [rewrite Hcap; exact Hpos|].
  rewrite Happ, Hh, stamped_clocked. reflexivity.
Qed.

Lemma prepare_prompt_persists_new_messages_witness :
  stored_history "s1"
    (CM.store (snd (CM.prepare_prompt default_config web_down char_codec "s1"
                      [news_question] None (fun _ => 0) CM.init)))
  = stored_history "s1" (CM.store CM.init) ++ stamp_from (fun _ => 0) 0 [news_question].
Proof.
  apply (prepare_prompt_persists_new_messages default_config web_down char_codec CM.init
           "s1" [news_question] None (fun _ => 0)).
  - simpl. constructor.
  - simpl. lia.
Defined.

(** *** When a turn searches *)

Lemma truthy_append_l a b : Py.truthy a = true -> Py.truthy (a +:+ b) = true.
Proof. destruct a; [discriminate | reflexivity]. Qed.


Lemma turn_triggers_search_cases cfg new :
  SEARCH_ENABLED cfg = false \/ Forall (fun m => role m <> user) new ->
  turn_triggers_search cfg new = false.
Proof.
  unfold turn_triggers_search. intros [H|H].
  - destruct (last_user None new); [|reflexivity].
    unfold CM._should_search. rewrite H. reflexivity.
  - assert (Hl : last_user None new = None).
    { induction H as [|m r Hm Hr IH]; simpl; [reflexivity|].
      destruct (role m); [exact IH | congruence | exact IH]. }
    rewrite Hl. reflexivity.
Qed.

Section SearchTurn.
Variable cfg : Config.
Variable web : SS.Web.
Variable enc : string -> list Z.

Lemma search_branch_quiet now new w :
  turn_triggers_search cfg new = false ->
  search_branch cfg web (last_user None (stamp_from now 0 new)) w
  = (Ok (None, None, false), w).
Proof.
  unfold turn_triggers_search, search_branch. intros H.
  pose proof (last_user_stamp_content now new 0%nat None None eq_refl) as Hc.
  destruct (last_user None (stamp_from now 0 new)) as [m'|],
           (last_user None new) as [m|]; simpl in Hc; try discriminate; try reflexivity.
  inversion Hc as [Hc']. rewrite Hc', H. reflexivity.
Qed.

(** X8.  A turn searches only for a user message among its new messages:
    when search is disabled, or the new messages hold no user message, or
    the new messages are ASCII text and the last user message among them
    holds no trigger keyword, [prepare_prompt] does not call the search
    service at all (its state and its count of client calls are unchanged),
    reports no sources and [used_search] false, and renders the prompt
    without search results, even if a user message stored earlier holds a
    keyword. *)
Theorem prepare_prompt_without_trigger
    (w : CM.World) (sid : string) (new : list ChatMessage) (mt : option Z)
    (now : nat -> datetime) :
  NoDup (OrderedDict.keys (CS.sessions (CM.store w))) ->
  (0 < CS.max_sessions (CM.store w))%nat ->
  SEARCH_ENABLED cfg = false \/ Forall (fun m => role m <> user) new \/
  (Forall (fun m => is_ascii (content m) = true) new /\
   turn_triggers_search cfg new = false) ->
  let history := stored_history sid (CM.store w) ++ stamp_from now 0 new in
  let truncated := CM._truncate_messages enc history (Py.int_or mt (MAX_CONTEXT_TOKENS cfg)) in
  fst (CM.prepare_prompt cfg web enc sid new mt now w)
  = match CM._build_prompt truncated None with
    | Ok prompt => Ok (prompt, CM.count_tokens enc prompt, None, false)
    | Raise e => Raise e
    end /\
  CM.search_service (snd (CM.prepare_prompt cfg web enc sid new mt now w))
  = CM.search_service w.
Proof.
  intros Hnd Hpos Hq history truncated.
  assert (Hquiet : turn_triggers_search cfg new = false).
  { destruct Hq as [H|[H|[_ H]]]; [apply turn_triggers_search_cases; auto
                                   | apply turn_triggers_search_cases; auto | exact H]. }
  rewrite (prepare_prompt_unfold cfg web enc w sid new mt now Hnd Hpos).
  unfold bind at 1 3. rewrite (search_branch_quiet now new _ Hquiet).
  fold history. fold truncated. unfold bind, CM.lift_result.
  destruct (CM._build_prompt truncated None); split; reflexivity.
Qed.


End SearchTurn.

Lemma prepare_prompt_without_trigger_witness :
  fst (CM.prepare_prompt default_config web_up char_codec "s1" [system_note] None
         (fun _ => 0) CM.init)
  = match CM._build_prompt
            (CM._truncate_messages char_codec
               (stored_history "s1" (CM.store CM.init)
                ++ stamp_from (fun _ => 0) 0 [system_note])
               (Py.int_or None (MAX_CONTEXT_TOKENS default_config))) None with
    | Ok prompt => Ok (prompt, CM.count_tokens char_codec prompt, None, false)
    | Raise e => Raise e
    end /\
  CM.search_service
    (snd (CM.prepare_prompt default_config web_up char_codec "s1" [system_note] None
            (fun _ => 0) CM.init))
  = CM.search_service CM.init.
Proof.
  apply (prepare_prompt_without_trigger default_config web_up char_codec CM.init "s1"
           [system_note] None (fun _ => 0)).
  - simpl. constructor.
  - simpl. lia.
  - right. left. constructor; [simpl; discriminate | constructor].
Defined.


(** *** A budget below the reserve *)

Lemma truncate_messages_below_reserve enc msgs budget :
  budget < 200 -> CM._truncate_messages enc msgs budget = [].
Proof.
  intros Hb. unfold CM._truncate_messages. destruct msgs as [|m0 r0]; [reflexivity|].
  destruct (rev (m0 :: r0)) as [|m r]; [reflexivity|]. cbn [CM.truncate_loop].
  pose proof (count_tokens_nonneg enc (role_str (role m) +:+ ": " +:+ content m)) as Hc.
  fold (CM.msg_tokens enc m) in Hc.
  destruct (Z.leb_spec (0 + CM.msg_tokens enc m) (budget - 200)); [lia | reflexivity].
Qed.

(** X10.  The budget given to [prepare_prompt] is the one the API calls
    [max_tokens]; whenever it is not zero and below the reserve of 200,
    [_truncate_messages] selects nothing, whatever the messages, so the
    prompt is rendered from an empty history and carries an empty
    instruction, the new user message included in what is left out. *)
Theorem prepare_prompt_small_budget_drops_everything
    (cfg : Config) (web : SS.Web) (enc : string -> list Z)
    (w : CM.World) (sid : string) (new : list ChatMessage) (n : Z)
    (now : nat -> datetime) :
  NoDup (OrderedDict.keys (CS.sessions (CM.store w))) ->
  (0 < CS.max_sessions (CM.store w))%nat ->
  n <> 0 -> n < 200 ->
  (forall msgs, CM._truncate_messages enc msgs n = []) /\
  exists sr srcs used prompt w',
    CM.prepare_prompt cfg web enc sid new (Some n) now w
    = (Ok (prompt, CM.count_tokens enc prompt, srcs, used), w') /\
    CM._build_prompt [] sr = Ok prompt /\
    (sr = None -> prompt = CM.ungrounded_template EmptyString EmptyString).
Proof.
  intros Hnd Hpos Hn0 Hn. split; [intros; apply truncate_messages_below_reserve; exact Hn|].
  rewrite (prepare_prompt_unfold cfg web enc w sid new (Some n) now Hnd Hpos).
  assert (Hor : Py.int_or (Some n) (MAX_CONTEXT_TOKENS cfg) = n).
  { unfold Py.int_or. destruct (Z.eqb_spec n 0); [contradiction | reflexivity]. }
  rewrite Hor, truncate_messages_below_reserve by exact Hn.
  unfold bind at 1.
  match goal with
  | |- context [search_branch cfg web ?l ?w2] =>
      destruct (search_branch_store cfg web l w2) as ([[sr srcs] used] & s & E)
  end.
  rewrite E. unfold bind, CM.lift_result.
  destruct (build_prompt_ok [] sr (Forall_nil _)) as (prompt & Hp). rewrite Hp.
  eexists sr, srcs, used, prompt, _. split; [reflexivity|]. split; [exact Hp|].
  intros ->. unfold CM._build_prompt in Hp. simpl in Hp. inversion Hp. reflexivity.
Qed.

Lemma prepare_prompt_small_budget_drops_everything_witness :
  (forall msgs, CM._truncate_messages char_codec msgs 50 = []) /\
  exists sr srcs used prompt w',
    CM.prepare_prompt default_config web_down char_codec "test_session" [api_hello]
      (Some 50) (fun _ => 0) CM.init
    = (Ok (prompt, CM.count_tokens char_codec prompt, srcs, used), w') /\
    CM._build_prompt [] sr = Ok prompt /\
    (sr = None -> prompt = CM.ungrounded_template EmptyString EmptyString).
Proof.
  apply (prepare_prompt_small_budget_drops_everything default_config web_down char_codec
           CM.init "test_session" [api_hello] 50 (fun _ => 0)).
  - simpl. constructor.
  - simpl. lia.
  - lia.
  - lia.
Defined.

(** *** What [_build_prompt] keeps of the turns *)

Lemma filter_app_single {A} (f : A -> bool) l x :
  filter f (l ++ [x]) = filter f l ++ (if f x then [x] else []).
Proof. rewrite filter_app. reflexivity. Qed.

Lemma filter_user_cons m r :
  filter is_user (m :: r)
  = if Role_eqb (role m) user then m :: filter is_user r else filter is_user r.
Proof. reflexivity. Qed.

Lemma filter_assistant_cons m r :
  filter is_assistant (m :: r)
  = if Role_eqb (role m) assistant then m :: filter is_assistant r
    else filter is_assistant r.
Proof. reflexivity. Qed.

Lemma split_turns_keeps_turns msgs : forall last hist,
  Forall validated msgs ->
  (last = EmptyString \/ content_not_empty last = Ok last) ->
  exists h,
    CM.split_turns msgs last hist = Ok (last_user_content last msgs, h) /\
    filter is_assistant h = filter is_assistant hist ++ filter is_assistant msgs /\
    map content (filter is_user h)
    = map content (filter is_user hist)
      ++ match map content (filter is_user msgs) with
         | [] => []
         | u => (if Py.truthy last then [last] else []) ++ removelast u
         end /\
    (forall m, In m (filter is_user h) ->
               In m (filter is_user hist) \/ m = mkMessage user (content m)).
Proof.
  induction msgs as [|m r IH]; intros last hist Hv Hl.
  - exists hist. simpl. rewrite !app_nil_r. auto.
  - inversion Hv as [|? ? Hm Hr]; subst.
    cbn [CM.split_turns last_user_content].
    rewrite filter_user_cons, filter_assistant_cons.
    destruct (role m) eqn:Erole; cbn [Role_eqb]; cbv iota.
    + apply IH; assumption.
    + assert (Hstep : forall hist',
                 filter is_assistant hist' = filter is_assistant hist ->
                 map content (filter is_user hist')
                 = map content (filter is_user hist)
                   ++ (if Py.truthy last then [last] else []) ->
                 (forall x, In x (filter is_user hist') ->
                            In x (filter is_user hist) \/ x = mkMessage user (content x)) ->
                 exists h,
                   CM.split_turns r (content m) hist'
                   = Ok (last_user_content (content m) r, h) /\
                   filter is_assistant h = filter is_assistant hist ++ filter is_assistant r /\
                   map content (filter is_user h)
                   = map content (filter is_user hist)
                     ++ (if Py.truthy last then [last] else [])
                     ++ removelast (content m :: map content (filter is_user r)) /\
                   (forall x, In x (filter is_user h) ->
                              In x (filter is_user hist) \/ x = mkMessage user (content x))).
      { intros hist' Ha Hu Hx.
        destruct (IH (content m) hist' Hr (or_intror Hm)) as (h & Hs & Hha & Hhu & Hhx).
        exists h. split; [exact Hs|]. split; [rewrite Hha, Ha; reflexivity|]. split.
        - rewrite Hhu, Hu, <- app_assoc. f_equal. f_equal.
          rewrite (validated_truthy m Hm).
          destruct (map content (filter is_user r)); reflexivity.
        - intros x Hin. destruct (Hhx x Hin) as [H|H]; auto. }
      cbn [map].
      destruct Hl as [->|Hl].
      * cbn [Py.truthy]. cbv iota. apply Hstep; auto. rewrite app_nil_r. reflexivity.
      * destruct (Py.truthy last) eqn:Et.
        -- unfold ChatMessage_new. rewrite Hl. apply Hstep.
           ++ rewrite filter_app_single. apply app_nil_r.
           ++ rewrite filter_app_single, map_app. reflexivity.
           ++ intros x Hin. rewrite filter_app_single in Hin.
              apply in_app_or in Hin. destruct Hin as [Hin|[<-|[]]]; auto.
        -- apply Hstep; auto. rewrite app_nil_r. reflexivity.
    + destruct (IH last (hist ++ [m]) Hr Hl) as (h & Hs & Hha & Hhu & Hhx).
      exists h. split; [exact Hs|].
      rewrite filter_app_single in Hha, Hhu, Hhx.
      assert (Eu : is_user m = false) by (unfold is_user; rewrite Erole; reflexivity).
      assert (Ea : is_assistant m = true) by (unfold is_assistant; rewrite Erole; reflexivity).
      rewrite Ea in Hha. rewrite Eu in Hhu, Hhx.
      rewrite app_nil_r in Hhu, Hhx. rewrite <- app_assoc in Hha.
      split; [exact Hha|]. split; [exact Hhu | exact Hhx].
Qed.

(** X11.  For messages that passed the validator, [_build_prompt] raises
    nothing, takes the content of the most recent user message as the
    instruction, and loses or repeats no turn: the history it renders holds
    every assistant message, in their order, and the content of every user
    message but the most recent, in their order, each user turn rebuilt
    without its timestamp and sources. *)
Theorem build_prompt_keeps_every_turn (msgs : list ChatMessage) :
  Forall validated msgs ->
  exists history_msgs,
    CM.split_turns msgs EmptyString [] = Ok (last_user_content EmptyString msgs, history_msgs) /\
    CM._build_prompt msgs None
    = Ok (CM.ungrounded_template (CM._build_history_context history_msgs)
            (last_user_content EmptyString msgs)) /\
    filter is_assistant history_msgs = filter is_assistant msgs /\
    map content (filter is_user history_msgs)
    = removelast (map content (filter is_user msgs)) /\
    (forall m, In m (filter is_user history_msgs) -> m = mkMessage user (content m)).
Proof.
  intros Hv.
  destruct (split_turns_keeps_turns msgs EmptyString [] Hv (or_introl eq_refl))
    as (h & Hs & Ha & Hu & Hx).
  exists h. split; [exact Hs|]. split; [unfold CM._build_prompt; rewrite Hs; reflexivity|].
  split; [exact Ha|]. split.
  - rewrite Hu. simpl. destruct (map content (filter is_user msgs)); reflexivity.
  - intros m Hin. destruct (Hx m Hin) as [[]|H]; exact H.
Qed.

Lemma build_prompt_keeps_every_turn_witness :
  exists history_msgs,
    CM.split_turns turn_hi_hello_bye EmptyString []
    = Ok (last_user_content EmptyString turn_hi_hello_bye, history_msgs) /\
    CM._build_prompt turn_hi_hello_bye None
    = Ok (CM.ungrounded_template (CM._build_history_context history_msgs)
            (last_user_content EmptyString turn_hi_hello_bye)) /\
    filter is_assistant history_msgs = filter is_assistant turn_hi_hello_bye /\
    map content (filter is_user history_msgs)
    = removelast (map content (filter is_user turn_hi_hello_bye)) /\
    (forall m, In m (filter is_user history_msgs) -> m = mkMessage user (content m)).
Proof.
  apply build_prompt_keeps_every_turn.
  repeat constructor.
Defined.

(** *** Strings *)

Lemma startswith_spec p : forall s,
  Py.startswith p s = true <-> exists post, s = p +:+ post.
Proof.
  induction p as [|a p IH]; intros s; simpl.
  - split; [intros _; exists s; reflexivity | reflexivity].
  - destruct s as [|b s].
    + split; [discriminate | intros [post H]; discriminate].
    + rewrite andb_true_iff, IH. split.
      * intros [Hab [post ->]]. apply Ascii.eqb_eq in Hab. subst. eauto.
      * intros [post H]. inversion H; subst. split; [apply Ascii.eqb_refl | eauto].
Qed.

Lemma contains_spec p : forall s,
  Py.contains p s = true <-> exists pre post, s = pre +:+ p +:+ post.
Proof.
  induction s as [|c s IH].
  - cbn [Py.contains]. rewrite orb_false_r, startswith_spec. split.
    + intros [post H]. exists EmptyString, post. exact H.
    + intros (pre & post & H). destruct pre; [eauto | discriminate].
  - cbn [Py.contains]. rewrite orb_true_iff, startswith_spec, IH. split.
    + intros [[post H]|(pre & post & H)].
      * exists EmptyString, post. exact H.
      * exists (String c pre), post. simpl. rewrite H. reflexivity.
    + intros (pre & post & H). destruct pre as [|c' pre].
      * left. exists post. exact H.
      * right. simpl in H. inversion H. eauto.
Qed.

Lemma lower_ascii_idem c : Py.lower_ascii (Py.lower_ascii c) = Py.lower_ascii c.
Proof. destruct c as [[] [] [] [] [] [] [] []]; reflexivity. Qed.

Lemma lower_idem s : Py.lower (Py.lower s) = Py.lower s.
Proof.
  induction s as [|c s IH]; simpl; [reflexivity|].
  rewrite lower_ascii_idem, IH. reflexivity.
Qed.

(** X12.  For a query of ASCII characters, [_should_search] is true exactly
    when search is enabled and the query, lower-cased, holds one of the
    trigger keywords anywhere in it, inside a longer word too; it does not
    depend on the case of the query. *)
Theorem should_search_is_keyword_substring (cfg : Config) (query : string) :
  is_ascii query = true ->
  (CM._should_search cfg query = true <->
   SEARCH_ENABLED cfg = true /\
   exists keyword pre post,
     In keyword (SEARCH_TRIGGER_KEYWORDS cfg) /\
     Py.lower query = pre +:+ keyword +:+ post) /\
  CM._should_search cfg (Py.lower query) = CM._should_search cfg query.
Proof.
  intros _. split.
  - unfold CM._should_search. destruct (SEARCH_ENABLED cfg); simpl.
    + rewrite existsb_exists. split.
      * intros (kw & Hin & Hc). apply contains_spec in Hc. destruct Hc as (pre & post & H).
        split; [reflexivity|]. exists kw, pre, post. auto.
      * intros (_ & kw & pre & post & Hin & H). exists kw. split; [exact Hin|].
        apply contains_spec. eauto.
    + split; [discriminate | intros [H _]; discriminate].
  - unfold CM._should_search. rewrite lower_idem. reflexivity.
Qed.

Lemma should_search_is_keyword_substring_witness :
  CM._should_search default_config (Py.lower "What is the WEATHER in Pune?")
  = CM._should_search default_config "What is the WEATHER in Pune?".
Proof.
  apply (should_search_is_keyword_substring default_config "What is the WEATHER in Pune?").
  reflexivity.
Defined.

(** *** The search service: availability, calls, hits *)

Section ServiceFacts.
Variable cfg : Config.
Variable web : SS.Web.

Lemma later_refl s : later s s.
Proof. split; auto. Qed.

Lemma later_trans a b c : later a b -> later b c -> later a c.
Proof. intros [H1 H2] [H3 H4]. split; [lia | auto]. Qed.

Lemma ddgs_later s r s' :
  SS.ddgs web s = (r, s') ->
  later s s' /\ (SS.calls s' <= SS.calls s + 1)%nat.
Proof.
  unfold SS.ddgs, later. run_monad. destruct (SS._ddgs s).
  - intros H. inversion H; subst. split; [split; [lia | auto] | lia].
  - destruct (SS.ddgs_new web (SS.calls s)); intros H; inversion H; subst;
      cbn [SS.calls SS._available].
    + split; [split; [lia | discriminate] | lia].
    + split; [split; [lia | auto] | lia].
Qed.

Lemma ddgs_text_call_later q k b s r s' :
  SS.ddgs_text_call web q k b s = (r, s') ->
  later s s' /\ (SS.calls s' <= SS.calls s + 2)%nat.
Proof.
  unfold SS.ddgs_text_call. unfold bind at 1.
  destruct (SS.ddgs web s) as [[u|e] s1] eqn:E;
    destruct (ddgs_later s _ _ E) as [[Hc Ha] Hb].
  - run_monad. unfold later.
    destruct (SS.ddgs_text web (SS.calls s1) q k b); intros H; inversion H; subst;
      cbn [SS.calls SS._available]; (split; [split; [lia | exact Ha] | lia]).
  - intros H. inversion H; subst. unfold later. split; [split; [lia | exact Ha] | lia].
Qed.

Lemma search_loop_later attempts q k : forall s r s',
  SS.search_loop web attempts q k s = (r, s') ->
  later s s' /\
  (SS.calls s' <= SS.calls s + fold_right (fun a n => attempt_calls a + n) 0 attempts)%nat.
Proof.
  induction attempts as [|a rest IH]; intros s r s'.
  - simpl. unfold ret. intros H. inversion H; subst. split; [apply later_refl | lia].
  - cbn [SS.search_loop fold_right]. unfold bind at 1. unfold try_except.
    unfold bind at 1.
    assert (Hac : (2 <= attempt_calls a)%nat /\ ((a =? 0) = true -> attempt_calls a = 4%nat))
      by (unfold attempt_calls; destruct (a =? 0); split; (lia || reflexivity || discriminate)).
    destruct Hac as [Hac2 Hac4].
    destruct (SS.ddgs_text_call web q k SS.default_backend s) as [[results|e] s1] eqn:E1;
      destruct (ddgs_text_call_later _ _ _ _ _ _ E1) as [L1 B1].
    + destruct (SS.nonempty results).
      * unfold ret. intros H. inversion H; subst. split; [exact L1 | lia].
      * destruct (a =? 0).
        -- specialize (Hac4 eq_refl). unfold bind at 1.
           destruct (SS.ddgs_text_call web q k SS.lite s1) as [[results2|e2] s2] eqn:E2;
             destruct (ddgs_text_call_later _ _ _ _ _ _ E2) as [L2 B2].
           ++ destruct (SS.nonempty results2).
              ** unfold ret. intros H. inversion H; subst.
                 split; [eapply later_trans; eauto | lia].
              ** unfold ret at 1. cbv beta iota. intros H. destruct (IH _ _ _ H) as [L3 B3].
                 split; [eapply later_trans; [eapply later_trans|]; eauto | lia].
           ++ unfold ret at 1. cbv beta iota. intros H. destruct (IH _ _ _ H) as [L3 B3].
              split; [eapply later_trans; [eapply later_trans|]; eauto | lia].
        -- unfold ret at 1. cbv beta iota. intros H. destruct (IH _ _ _ H) as [L3 B3].
           split; [eapply later_trans; eauto | lia].
    + unfold ret at 1. cbv beta iota. intros H. destruct (IH _ _ _ H) as [L3 B3].
      split; [eapply later_trans; eauto | lia].
Qed.

Lemma range_calls_from n : forall i,
  (fold_right (fun a m => attempt_calls a + m) 0 (map Z.of_nat (seq (S i) n)) = 2 * n)%nat.
Proof.
  induction n as [|n IH]; intros i; [reflexivity|].
  cbn [seq map fold_right]. rewrite IH. unfold attempt_calls.
  destruct (Z.eqb_spec (Z.of_nat (S i)) 0); lia.
Qed.

Lemma range_calls n :
  (fold_right (fun a m => attempt_calls a + m) 0 (range n) <= 2 * Z.to_nat n + 2)%nat.
Proof.
  unfold range. destruct (Z.to_nat n) as [|n']; [simpl; lia|].
  cbn [seq map fold_right]. rewrite range_calls_from. simpl. lia.
Qed.

Lemma search_later q mr s r s' :
  SS.search cfg web q mr s = (r, s') ->
  later s s' /\
  (SS.calls s' <= SS.calls s + 2 * Z.to_nat (SEARCH_RETRY_ATTEMPTS cfg) + 2)%nat.
Proof.
  unfold SS.search. unfold bind at 1, get_state.
  destruct (negb (SS.is_available cfg s)).
  - unfold ret. intros H. inversion H; subst. split; [apply later_refl | lia].
  - cbv zeta. unfold bind.
    pose proof (range_calls (SEARCH_RETRY_ATTEMPTS cfg)).
    destruct (SS.search_loop web _ _ _ s) as [[r0|e] s1] eqn:E;
      destruct (search_loop_later _ _ _ _ _ _ E) as [L B].
    + destruct r0; unfold ret; intros H0; inversion H0; subst; (split; [exact L | lia]).
    + intros H0. inversion H0; subst. split; [exact L | lia].
Qed.

Lemma search_unavailable q mr s :
  SS.is_available cfg s = false -> SS.search cfg web q mr s = (Ok [], s).
Proof.
  intros H. unfold SS.search. unfold bind, get_state. rewrite H. reflexivity.
Qed.
End ServiceFacts.

(** X13.  [search] raises nothing and makes a bounded number of calls to the
    client: at most two per attempt (building the client when it is not
    built, and the query) and two more for the lite backend of the first
    attempt; the count of calls never goes down. *)
Theorem search_makes_bounded_calls
    (cfg : Config) (web : SS.Web) (query : string) (max_results : option Z) (s : SS.t) :
  exists results s',
    SS.search cfg web query max_results s = (Ok results, s') /\
    (SS.calls s <= SS.calls s')%nat /\
    (SS.calls s' <= SS.calls s + 2 * Z.to_nat (SEARCH_RETRY_ATTEMPTS cfg) + 2)%nat.
Proof.
  destruct (search_total cfg web query max_results s) as (r & s' & E).
  destruct (search_later cfg web query max_results s _ _ E) as [[Hc _] Hb].
  exists r, s'. auto.
Qed.

(** X14.  The service is never made available again: when it is not
    available, [search] returns the empty list without a call to the
    client and without a change of state; and when the client cannot be
    built at the first attempt of a search, the service is unavailable
    after that search, whatever the later attempts do, so every later
    search returns nothing. *)
Theorem failed_client_construction_disables_search
    (cfg : Config) (web : SS.Web) (query : string) (max_results : option Z)
    (s : SS.t) (e : exn) :
  SS.is_available cfg s = true ->
  SS._ddgs s = false ->
  SS.ddgs_new web (SS.calls s) = Some e ->
  1 <= SEARCH_RETRY_ATTEMPTS cfg ->
  let s' := snd (SS.search cfg web query max_results s) in
  SS.is_available cfg s' = false /\
  (forall q mr, SS.search cfg web q mr s' = (Ok [], s')) /\
  (forall s0 q mr, SS.is_available cfg s0 = false ->
                   SS.search cfg web q mr s0 = (Ok [], s0)).
Proof.
  intros Hav Hd Hnew Hn s'.
  assert (Hoff : SS._available s' = false).
  { subst s'. unfold SS.search. unfold bind at 1, get_state. rewrite Hav. cbn [negb].
    cbv iota zeta. unfold range.
    destruct (Z.to_nat (SEARCH_RETRY_ATTEMPTS cfg)) as [|n] eqn:En; [lia|].
    cbn [seq map]. unfold bind at 1. cbn [SS.search_loop].
    unfold bind at 1. unfold try_except. unfold bind at 1.
    unfold SS.ddgs_text_call at 1. unfold bind at 1.
    unfold SS.ddgs at 1. unfold bind at 1, get_state. rewrite Hd.
    rewrite Hnew. unfold bind at 1, put_state, raise. unfold ret at 1.
    match goal with
    | |- context [SS.search_loop web ?l ?q ?k ?s1] =>
        destruct (SS.search_loop web l q k s1) as [[r|e1] s2] eqn:E;
        destruct (search_loop_later web l q k s1 _ _ E) as [[_ Ha] _]
    end; cbn [SS._available] in Ha.
    - destruct r; unfold ret; cbn [snd];
        (destruct (SS._available s2); [specialize (Ha eq_refl); discriminate | reflexivity]).
    - unfold ret; cbn [snd]. destruct (SS._available s2); [specialize (Ha eq_refl); discriminate | reflexivity]. }
  assert (Hun : SS.is_available cfg s' = false)
    by (unfold SS.is_available; rewrite Hoff; reflexivity).
  split; [exact Hun|]. split.
  - intros q mr. apply search_unavailable. exact Hun.
  - intros s0 q mr H. apply search_unavailable. exact H.
Qed.

Lemma failed_client_construction_disables_search_witness :
  let s' := snd (SS.search default_config web_broken_once "weather today" None SS.init) in
  SS.is_available default_config s' = false /\
  (forall q mr, SS.search default_config web_broken_once q mr s' = (Ok [], s')) /\
  (forall s0 q mr, SS.is_available default_config s0 = false ->
                   SS.search default_config web_broken_once q mr s0 = (Ok [], s0)).
Proof.
  apply (failed_client_construction_disables_search default_config web_broken_once
           "weather today" None SS.init (OtherError "no network")).
  - reflexivity.
  - reflexivity.
  - reflexivity.
  - simpl. lia.
Defined.

(** *** The hits a search returns *)

Lemma take_length n : forall s, (String.length (Py.take n s) <= n)%nat.
Proof.
  induction n as [|n IH]; intros s; [simpl; lia|].
  destruct s as [|c r]; simpl; [lia|]. specialize (IH r). lia.
Qed.

Lemma take_prefix n : forall s, exists rest, s = Py.take n s +:+ rest.
Proof.
  induction n as [|n IH]; intros s; [exists s; reflexivity|].
  destruct s as [|c r]; [exists EmptyString; reflexivity|].
  destruct (IH r) as (rest & E). exists rest. simpl. f_equal. exact E.
Qed.

Lemma ddgs_text_call_returns web q k b s hits :
  (SS._ddgs s = false -> SS.ddgs_new web (SS.calls s) = None) ->
  SS.ddgs_text web (SS.calls (built s)) q k b = SS.Returns hits ->
  SS.ddgs_text_call web q k b s = (Ok hits, ticked (built s)).
Proof.
  intros Hnew Htext. unfold SS.ddgs_text_call, SS.ddgs, built, ticked in *.
  unfold bind, get_state, put_state, ret.
  destruct (SS._ddgs s) eqn:Ed.
  - rewrite Htext. rewrite Ed. reflexivity.
  - rewrite (Hnew eq_refl). cbn [SS.calls SS._ddgs SS._available] in *.
    rewrite Htext. reflexivity.
Qed.

Lemma complete_hit_fields ti hr bo :
  complete_hit {| SS.h_title := ti; SS.h_href := hr; SS.h_body := bo |}
  = SS.field_truthy ti && SS.field_truthy hr && SS.field_truthy bo.
Proof. reflexivity. Qed.

Lemma validate_results_cons h rest :
  SS._validate_results (h :: rest)
  = if complete_hit h
    then {| SS.h_title := option_map Py.strip (SS.h_title h);
            SS.h_href := option_map Py.strip (SS.h_href h);
            SS.h_body := option_map (fun b => Py.take 500 (Py.strip b)) (SS.h_body h) |}
         :: SS._validate_results rest
    else SS._validate_results rest.
Proof.
  destruct h as [[ti|] [hr|] [bo|]]; rewrite complete_hit_fields;
    cbn [SS._validate_results SS.h_title SS.h_href SS.h_body SS.field_truthy option_map];
    rewrite ?Bool.andb_false_r; try reflexivity.
Qed.

Lemma validate_results_filter rs :
  map SS.h_title (SS._validate_results rs)
  = map (fun h => option_map Py.strip (SS.h_title h)) (filter complete_hit rs) /\
  map SS.h_href (SS._validate_results rs)
  = map (fun h => option_map Py.strip (SS.h_href h)) (filter complete_hit rs) /\
  map SS.h_body (SS._validate_results rs)
  = map (fun h => option_map (fun b => Py.take 500 (Py.strip b)) (SS.h_body h))
        (filter complete_hit rs).
Proof.
  induction rs as [|h rest (IH1 & IH2 & IH3)]; [repeat split|].
  rewrite validate_results_cons. cbn [filter].
  destruct (complete_hit h); [|auto].
  cbn [map SS.h_title SS.h_href SS.h_body]. rewrite IH1, IH2, IH3. repeat split.
Qed.

Lemma complete_hit_some h :
  complete_hit h = true ->
  exists ti hr bo, h = {| SS.h_title := Some ti; SS.h_href := Some hr; SS.h_body := Some bo |}.
Proof.
  destruct h as [[ti|] [hr|] [bo|]]; rewrite complete_hit_fields;
    cbn [SS.field_truthy]; rewrite ?Bool.andb_false_r; try discriminate.
  intros _. eauto.
Qed.

(** X15.  For hits whose fields are ASCII text, [_validate_results] keeps,
    in their order, exactly the hits whose title, href and body are all
    present and not empty, and drops the others; a hit it keeps has its
    three fields present, the title and the href stripped of surrounding
    whitespace, and the stripped body cut to 500 characters at most. *)
Theorem validate_results_keeps_complete_hits (results : list SS.hit) :
  Forall (fun h => ascii_hit h = true) results ->
  let validated := SS._validate_results results in
  map SS.h_title validated
  = map (fun h => option_map Py.strip (SS.h_title h)) (filter complete_hit results) /\
  map SS.h_href validated
  = map (fun h => option_map Py.strip (SS.h_href h)) (filter complete_hit results) /\
  map SS.h_body validated
  = map (fun h => option_map (fun b => Py.take 500 (Py.strip b)) (SS.h_body h))
        (filter complete_hit results) /\
  (length validated <= length results)%nat /\
  Forall (fun h => exists title href body,
              h = {| SS.h_title := Some title; SS.h_href := Some href;
                     SS.h_body := Some body |} /\
              Py.strip title = title /\ Py.strip href = href /\
              (String.length body <= 500)%nat) validated.
Proof.
  intros _ validated. destruct (validate_results_filter results) as (H1 & H2 & H3).
  split; [exact H1|]. split; [exact H2|]. split; [exact H3|]. split.
  - rewrite <- (length_map SS.h_title validated). unfold validated. rewrite H1.
    rewrite length_map. apply filter_length_le.
  - unfold validated. clear. induction results as [|h rest IH]; [constructor|].
    rewrite validate_results_cons. destruct (complete_hit h) eqn:Ec; [|exact IH].
    destruct (complete_hit_some h Ec) as (ti & hr & bo & ->).
    constructor; [|exact IH]. cbn [SS.h_title SS.h_href SS.h_body option_map].
    exists (Py.strip ti), (Py.strip hr), (Py.take 500 (Py.strip bo)).
    split; [reflexivity|]. split; [apply strip_idem|]. split; [apply strip_idem|].
    apply take_length.
Qed.

(** X16.  The sources sent to the client for validated hits, the fields of
    the hits being ASCII text: one source for each complete hit, in the
    order of the hits, with the stripped title and href of the hit (never
    the defaults) and, as snippet, the first 200 characters at most of its
    validated body. *)
Theorem sources_of_validated_hits (results : list SS.hit) :
  Forall (fun h => ascii_hit h = true) results ->
  let srcs := SS.extract_sources_for_response (SS._validate_results results) in
  length srcs = length (filter complete_hit results) /\
  map (fun x => Some (sr_title x)) srcs
  = map (fun h => option_map Py.strip (SS.h_title h)) (filter complete_hit results) /\
  map (fun x => Some (sr_url x)) srcs
  = map (fun h => option_map Py.strip (SS.h_href h)) (filter complete_hit results) /\
  Forall2 (fun x h => (String.length (sr_snippet x) <= 200)%nat /\
                      exists body rest, SS.h_body h = Some body /\
                                        body = sr_snippet x +:+ rest)
          srcs (SS._validate_results results).
Proof.
  intros _ srcs. unfold srcs. clear srcs. induction results as [|h rest (I1 & I2 & I3 & I4)].
  - repeat split. constructor.
  - rewrite validate_results_cons. cbn [filter].
    destruct (complete_hit h) eqn:Ec; [|auto].
    destruct (complete_hit_some h Ec) as (ti & hr & bo & ->).
    unfold SS.extract_sources_for_response in *.
    cbn [map length SS.h_title SS.h_href SS.h_body SS.field_or sr_title sr_url sr_snippet
         option_map].
    rewrite I1, I2, I3. repeat split.
    constructor; [|exact I4].
    cbn [SS.h_body SS.field_or sr_snippet]. split; [apply take_length|].
    destruct (take_prefix 200 (Py.take 500 (Py.strip bo))) as (r & E).
    eexists _, r. split; [reflexivity | exact E].
Qed.

Lemma validate_results_keeps_complete_hits_witness :
  (length (SS._validate_results [one_hit; {| SS.h_title := Some "No body"%string;
                                             SS.h_href := Some "https://example.org"%string;
                                             SS.h_body := None |}]) <= 2)%nat.
Proof.
  apply (validate_results_keeps_complete_hits
           [one_hit; {| SS.h_title := Some "No body"%string;
                        SS.h_href := Some "https://example.org"%string;
                        SS.h_body := None |}]).
  repeat constructor.
Defined.

Lemma sources_of_validated_hits_witness :
  length (SS.extract_sources_for_response (SS._validate_results [one_hit]))
  = length (filter complete_hit [one_hit]).
Proof.
  apply (sources_of_validated_hits [one_hit]). repeat constructor.
Defined.

(** X17.  For a query and hits that are ASCII text: when the service is
    available, at least one attempt is configured, the client is built or
    can be built, and the first query of the client returns a list of hits
    that is not empty, [search] returns the validated hits of that answer
    after that single query, made with the cleaned query and with
    [SEARCH_MAX_RESULTS] when no limit is given: no other backend is tried
    and no attempt is repeated, also when validation leaves no hit. *)
Theorem search_returns_first_answer
    (cfg : Config) (web : SS.Web) (query : string) (max_results : option Z)
    (s : SS.t) (hits : list SS.hit) :
  is_ascii query = true ->
  Forall (fun h => ascii_hit h = true) hits ->
  SS.is_available cfg s = true ->
  1 <= SEARCH_RETRY_ATTEMPTS cfg ->
  (SS._ddgs s = false -> SS.ddgs_new web (SS.calls s) = None) ->
  SS.ddgs_text web (SS.calls (built s)) (SS._clean_query query)
    (Py.int_or max_results (SEARCH_MAX_RESULTS cfg)) SS.default_backend
  = SS.Returns hits ->
  hits <> [] ->
  SS.search cfg web query max_results s
  = (Ok (SS._validate_results hits), ticked (built s)).
Proof.
  intros _ _ Hav Hn Hnew Htext Hne.
  unfold SS.search. unfold bind at 1, get_state. rewrite Hav. cbn [negb]. cbv iota zeta.
  unfold range. destruct (Z.to_nat (SEARCH_RETRY_ATTEMPTS cfg)) as [|n] eqn:En; [lia|].
  cbn [seq map SS.search_loop]. unfold bind at 1. unfold bind at 1.
  unfold try_except. unfold bind at 1.
  rewrite (ddgs_text_call_returns web _ _ _ s hits Hnew Htext).
  destruct hits as [|h0 hs]; [contradiction|]. reflexivity.
Qed.

Lemma search_returns_first_answer_witness :
  SS.search default_config web_up "Search for weather today" None SS.init
  = (Ok (SS._validate_results [one_hit]), ticked (built SS.init)).
Proof.
  apply (search_returns_first_answer default_config web_up "Search for weather today" None
           SS.init [one_hit]).
  - reflexivity.
  - repeat constructor.
  - reflexivity.
  - simpl. lia.
  - reflexivity.
  - reflexivity.
  - discriminate.
Defined.

(** *** The query sent to the client *)

Lemma is_space_lower c : Py.is_space (Py.lower_ascii c) = Py.is_space c.
Proof. destruct c as [[] [] [] [] [] [] [] []]; reflexivity. Qed.

Lemma lower_lstrip s : Py.lower (Py.lstrip s) = Py.lstrip (Py.lower s).
Proof.
  induction s as [|c r IH]; [reflexivity|].
  cbn [Py.lstrip Py.lower]. rewrite is_space_lower.
  destruct (Py.is_space c); [exact IH | reflexivity].
Qed.

Lemma lower_rstrip s : Py.lower (Py.rstrip s) = Py.rstrip (Py.lower s).
Proof.
  induction s as [|c r IH]; [reflexivity|].
  cbn [Py.rstrip Py.lower]. rewrite <- IH, is_space_lower.
  destruct (Py.rstrip r) as [|c' r']; cbn [Py.lower]; [|reflexivity].
  destruct (Py.is_space c); reflexivity.
Qed.

Lemma lower_strip s : Py.lower (Py.strip s) = Py.strip (Py.lower s).
Proof. unfold Py.strip. rewrite lower_rstrip, lower_lstrip. reflexivity. Qed.

Lemma lower_drop n : forall s, Py.lower (Py.drop n s) = Py.drop n (Py.lower s).
Proof.
  induction n as [|n IH]; intros s; [reflexivity|].
  destruct s as [|c r]; [reflexivity|]. apply IH.
Qed.

Lemma strip_first_prefix_normal prefixes clean :
  Py.strip clean = clean -> Py.lower clean = clean ->
  Py.strip (SS.strip_first_prefix prefixes clean) = SS.strip_first_prefix prefixes clean /\
  Py.lower (SS.strip_first_prefix prefixes clean) = SS.strip_first_prefix prefixes clean.
Proof.
  intros Hs Hl. induction prefixes as [|p rest IH]; [split; assumption|].
  cbn [SS.strip_first_prefix]. destruct (Py.startswith p clean); [|exact IH].
  split; [apply strip_idem|]. rewrite lower_strip, lower_drop, Hl. reflexivity.
Qed.

Lemma strip_first_prefix_none prefixes clean :
  (forall p, In p prefixes -> Py.startswith p clean = false) ->
  SS.strip_first_prefix prefixes clean = clean.
Proof.
  induction prefixes as [|p rest IH]; intros H; [reflexivity|].
  cbn [SS.strip_first_prefix]. rewrite (H p (or_introl eq_refl)).
  apply IH. intros q Hq. apply H. right. exact Hq.
Qed.

(** X18.  For a query of ASCII characters, [_clean_query] never turns a
    query that is not empty into an empty one: it returns either the query
    as it was given, or a text that is not empty, in lower case and without
    surrounding whitespace; when the lower-cased and stripped query starts
    with none of the prefixes, and is not empty, that text is the result. *)
Theorem clean_query_normalises (query : string) :
  is_ascii query = true ->
  let clean := SS._clean_query query in
  (query <> EmptyString -> clean <> EmptyString) /\
  (clean = query \/
   (clean <> EmptyString /\ Py.strip clean = clean /\ Py.lower clean = clean)) /\
  ((forall p, In p SS.prefixes_to_remove ->
              Py.startswith p (Py.strip (Py.lower query)) = false) ->
   Py.strip (Py.lower query) <> EmptyString ->
   clean = Py.strip (Py.lower query)).
Proof.
  intros _ clean. unfold clean, SS._clean_query. cbv zeta.
  destruct (strip_first_prefix_normal SS.prefixes_to_remove (Py.strip (Py.lower query))
              (strip_idem _)) as [Hs Hl].
  { rewrite lower_strip, lower_idem. reflexivity. }
  split; [|split].
  - intros Hq. destruct (SS.strip_first_prefix _ _) as [|c r]; cbn [Py.truthy];
      [exact Hq | discriminate].
  - destruct (SS.strip_first_prefix _ _) as [|c r] eqn:E; cbn [Py.truthy];
      [left; reflexivity|].
    right. split; [discriminate|]. split; assumption.
  - intros Hnone Hne. rewrite (strip_first_prefix_none _ _ Hnone).
    destruct (Py.strip (Py.lower query)); [contradiction | reflexivity].
Qed.

Lemma clean_query_normalises_witness :
  SS._clean_query "  Search for Weather Today " = "  Search for Weather Today "%string \/
  (SS._clean_query "  Search for Weather Today " <> EmptyString /\
   Py.strip (SS._clean_query "  Search for Weather Today ")
   = SS._clean_query "  Search for Weather Today " /\
   Py.lower (SS._clean_query "  Search for Weather Today ")
   = SS._clean_query "  Search for Weather Today ").
Proof.
  apply (clean_query_normalises "  Search for Weather Today "). reflexivity.
Defined.

(** *** The repetition penalty *)

Lemma combine_seq_nth {A} (f : Z * A -> R) (d : A) (l : list A) : forall k i,
  (i < length l)%nat ->
  nth i (map f (combine (map Z.of_nat (seq k (length l))) l)) 0%R
  = f (Z.of_nat (k + i), nth i l d).
Proof.
  induction l as [|x r IH]; intros k i Hi; [simpl in Hi; lia|].
  destruct i as [|i]; cbn [length seq map combine nth].
  - rewrite Nat.add_0_r. reflexivity.
  - rewrite (IH (S k) i) by (simpl in Hi; lia). do 3 f_equal. lia.
Qed.

Lemma enumerate_length {A} (l : list A) : length (MS.enumerate l) = length l.
Proof.
  unfold MS.enumerate, range, MS.len. rewrite Nat2Z.id, length_combine, length_map, length_seq.
  apply Nat.min_id.
Qed.

Lemma enumerate_nth {A} (f : Z * A -> R) (d : A) (l : list A) i :
  (i < length l)%nat ->
  nth i (map f (MS.enumerate l)) 0%R = f (Z.of_nat i, nth i l d).
Proof.
  intros Hi. unfold MS.enumerate, range, MS.len. rewrite Nat2Z.id.
  apply (combine_seq_nth f d l 0 i Hi).
Qed.

Lemma existsb_eqb_In i l : existsb (Z.eqb i) l = true <-> In i l.
Proof.
  rewrite existsb_exists. split.
  - intros (x & Hx & E). apply Z.eqb_eq in E. subst. exact Hx.
  - intros H. exists i. split; [exact H | apply Z.eqb_refl].
Qed.

Lemma penalised_le (p x : R) :
  (1 <= p)%R -> ((if Rlt_dec 0 x then x / p else x * p) <= x)%R.
Proof.
  intros Hp. destruct (Rlt_dec 0 x) as [Hx|Hx].
  - unfold Rdiv. rewrite <- (Rmult_1_r x) at 2.
    apply Rmult_le_compat_l; [lra|].
    rewrite <- Rinv_1. apply Rinv_le_contravar; lra.
  - assert (x <= 0)%R by lra. nra.
Qed.

(** X19.  For generated ids that are positions of the score vector and a
    penalty of at least 1, [_apply_repetition_penalty] returns a vector of
    the same length in which the score of every position among the last 50
    generated ids is divided by the penalty when it is positive and
    multiplied by it otherwise, once whatever the number of its occurrences,
    and every other score is unchanged; so no score increases.  Without
    generated ids, or with a penalty of 1, the vector is returned as it
    is. *)
Theorem repetition_penalty_lowers_recent_ids
    (scfg : SamplingConfig) (logits : list R) (generated_ids : list Z) :
  Forall (fun t => 0 <= t < MS.len logits) generated_ids ->
  (1 <= REPETITION_PENALTY scfg)%R ->
  let out := MS._apply_repetition_penalty scfg logits generated_ids in
  let recent := Py.slice_from (-50) generated_ids in
  length out = length logits /\
  (forall i, (i < length logits)%nat -> In (Z.of_nat i) recent ->
             nth i out 0%R
             = if Rlt_dec 0 (nth i logits 0%R)
               then (nth i logits 0 / REPETITION_PENALTY scfg)%R
               else (nth i logits 0 * REPETITION_PENALTY scfg)%R) /\
  (forall i, ~ In (Z.of_nat i) recent -> nth i out 0%R = nth i logits 0%R) /\
  (forall i, (nth i out 0 <= nth i logits 0)%R) /\
  (generated_ids = [] \/ REPETITION_PENALTY scfg = 1%R -> out = logits).
Proof.
  intros _ Hp out recent.
  assert (Hlen : length out = length logits).
  { unfold out, MS._apply_repetition_penalty. destruct generated_ids; [reflexivity|].
    destruct (Req_dec_T _ _); [reflexivity|]. rewrite length_map. apply enumerate_length. }
  assert (Hin : forall i, (i < length logits)%nat -> In (Z.of_nat i) recent ->
             nth i out 0%R
             = if Rlt_dec 0 (nth i logits 0%R)
               then (nth i logits 0 / REPETITION_PENALTY scfg)%R
               else (nth i logits 0 * REPETITION_PENALTY scfg)%R).
  { intros i Hi Hr. unfold out, MS._apply_repetition_penalty.
    destruct generated_ids as [|t ts]; [destruct Hr|].
    destruct (Req_dec_T (REPETITION_PENALTY scfg) 1) as [E1|_].
    - rewrite E1. destruct (Rlt_dec 0 (nth i logits 0%R)); lra.
    - cbv zeta. rewrite (enumerate_nth _ 0%R logits i Hi). cbv beta iota.
      fold recent. apply existsb_eqb_In in Hr. rewrite Hr. reflexivity. }
  assert (Hout : forall i, ~ In (Z.of_nat i) recent -> nth i out 0%R = nth i logits 0%R).
  { intros i Hr. destruct (Nat.lt_ge_cases i (length logits)) as [Hi|Hi].
    - unfold out, MS._apply_repetition_penalty.
      destruct generated_ids as [|t ts]; [reflexivity|].
      destruct (Req_dec_T (REPETITION_PENALTY scfg) 1) as [E1|_]; [reflexivity|].
      cbv zeta. rewrite (enumerate_nth _ 0%R logits i Hi). cbv beta iota. fold recent.
      destruct (existsb (Z.eqb (Z.of_nat i)) recent) eqn:Ex; [|reflexivity].
      apply existsb_eqb_In in Ex. contradiction.
    - rewrite !nth_overflow by lia. reflexivity. }
  split; [exact Hlen|]. split; [exact Hin|]. split; [exact Hout|]. split.
  - intros i. destruct (Nat.lt_ge_cases i (length logits)) as [Hi|Hi].
    + destruct (in_dec Z.eq_dec (Z.of_nat i) recent) as [Hr|Hr].
      * rewrite (Hin i Hi Hr). apply penalised_le. exact Hp.
      * rewrite (Hout i Hr). lra.
    + rewrite !nth_overflow by lia. lra.
  - intros [->|E1]; unfold out, MS._apply_repetition_penalty; [reflexivity|].
    destruct generated_ids; [reflexivity|].
    destruct (Req_dec_T _ _); [reflexivity | contradiction].
Qed.

Lemma repetition_penalty_lowers_recent_ids_witness :
  length (MS._apply_repetition_penalty default_sampling [2; -1; 3]%R [0; 1]%Z) = 3%nat /\
  (nth 1%nat (MS._apply_repetition_penalty default_sampling [2; -1; 3]%R [0; 1]%Z) 0
   <= nth 1%nat [2; -1; 3]%R 0)%R.
Proof.
  split;
    apply (repetition_penalty_lowers_recent_ids default_sampling [2; -1; 3]%R [0; 1]%Z).
  - repeat constructor; unfold MS.len; simpl; lia.
  - simpl. lra.
  - repeat constructor; unfold MS.len; simpl; lia.
  - simpl. lra.
Defined.

(** *** The nucleus filter *)

Lemma combine_seq_fst {A} (l : list A) : forall k,
  map fst (combine (map Z.of_nat (seq k (length l))) l) = map Z.of_nat (seq k (length l)).
Proof.
  induction l as [|x r IH]; intros k; [reflexivity|].
  cbn [length seq map combine fst]. rewrite IH. reflexivity.
Qed.

Lemma combine_seq_nth_error {A B} (f : Z * A -> B) (l : list A) : forall k i,
  nth_error (map f (combine (map Z.of_nat (seq k (length l))) l)) i
  = option_map (fun x => f (Z.of_nat (k + i), x)) (nth_error l i).
Proof.
  induction l as [|x r IH]; intros k i; [destruct i; reflexivity|].
  destruct i as [|i]; cbn [length seq map combine nth_error option_map].
  - rewrite Nat.add_0_r. reflexivity.
  - rewrite (IH (S k) i). destruct (nth_error r i); [|reflexivity].
    cbn [option_map]. do 3 f_equal. lia.
Qed.

Lemma enumerate_nth_error {A B} (f : Z * A -> B) (l : list A) i :
  nth_error (map f (MS.enumerate l)) i
  = option_map (fun x => f (Z.of_nat i, x)) (nth_error l i).
Proof.
  unfold MS.enumerate, range, MS.len. rewrite Nat2Z.id.
  apply (combine_seq_nth_error f l 0 i).
Qed.

Lemma enumerate_In {A} (l : list A) i x :
  In (i, x) (MS.enumerate l) <-> exists k, i = Z.of_nat k /\ nth_error l k = Some x.
Proof.
  split.
  - intros H. apply In_nth_error in H. destruct H as (k & Hk). exists k.
    pose proof (enumerate_nth_error (fun p => p) l k) as E. rewrite map_id in E.
    rewrite E in Hk. destruct (nth_error l k) as [y|]; [|discriminate].
    cbn [option_map] in Hk. inversion Hk; subst. auto.
  - intros (k & -> & Hk).
    pose proof (enumerate_nth_error (fun p => p) l k) as E. rewrite map_id, Hk in E.
    apply (nth_error_In _ k). exact E.
Qed.

Lemma seq_of_nat_NoDup n : forall k, NoDup (map Z.of_nat (seq k n)).
Proof.
  induction n as [|n IH]; intros k; cbn [seq map]; constructor; [|apply IH].
  rewrite in_map_iff. intros (x & E & Hx). apply in_seq in Hx. lia.
Qed.

Lemma enumerate_fst_NoDup {A} (l : list A) : NoDup (map fst (MS.enumerate l)).
Proof.
  unfold MS.enumerate, range, MS.len. rewrite Nat2Z.id, combine_seq_fst.
  apply seq_of_nat_NoDup.
Qed.

Lemma insert_desc_In p l q : In q (MS.insert_desc p l) <-> q = p \/ In q l.
Proof.
  induction l as [|h r IH]; cbn [MS.insert_desc].
  - simpl. intuition.
  - destruct (Rlt_dec (snd h) (snd p)); simpl; [intuition|].
    rewrite IH. intuition.
Qed.

Lemma sort_desc_In l q : In q (MS.sort_desc l) <-> In q l.
Proof.
  induction l as [|h r IH]; cbn [MS.sort_desc]; [tauto|].
  rewrite insert_desc_In, IH. simpl. intuition.
Qed.

Lemma insert_desc_NoDup p l :
  NoDup (map fst (p :: l)) -> NoDup (map fst (MS.insert_desc p l)).
Proof.
  induction l as [|h r IH]; cbn [MS.insert_desc]; [auto|].
  destruct (Rlt_dec (snd h) (snd p)); [auto|].
  cbn [map]. intros H. inversion H as [|a b Hp Hrest]; subst.
  inversion Hrest as [|a b Hh Hr]; subst.
  constructor.
  - rewrite in_map_iff. intros ((j, y) & Ej & Hin). cbn [fst] in Ej.
    apply insert_desc_In in Hin. destruct Hin as [Eq|Hin].
    + apply Hp. left. rewrite <- Eq. cbn [fst]. symmetry. exact Ej.
    + apply Hh. rewrite in_map_iff. exists (j, y). auto.
  - apply IH. cbn [map]. constructor; [|exact Hr].
    intros Hin. apply Hp. right. exact Hin.
Qed.

Lemma sort_desc_NoDup l : NoDup (map fst l) -> NoDup (map fst (MS.sort_desc l)).
Proof.
  induction l as [|h r IH]; cbn [MS.sort_desc]; [auto|].
  cbn [map]. intros H. inversion H as [|a b Hh Hr]; subst.
  apply insert_desc_NoDup. cbn [map]. constructor; [|apply IH; exact Hr].
  rewrite in_map_iff. intros (q & Eq & Hin). apply (proj1 (sort_desc_In _ _)) in Hin.
  apply Hh. rewrite in_map_iff. exists q. auto.
Qed.

Lemma insert_desc_sorted p l :
  StronglySorted (fun a b : Z * R => (snd b <= snd a)%R) l ->
  StronglySorted (fun a b : Z * R => (snd b <= snd a)%R) (MS.insert_desc p l).
Proof.
  induction l as [|h r IH]; cbn [MS.insert_desc]; intros H.
  - constructor; constructor.
  - inversion H as [|a b Hr Hall]; subst.
    destruct (Rlt_dec (snd h) (snd p)) as [Hlt|Hge].
    + constructor; [exact H|]. constructor; [lra|].
      rewrite Forall_forall in *. intros x Hx. specialize (Hall x Hx). lra.
    + constructor; [apply IH; exact Hr|].
      rewrite Forall_forall in *. intros x Hx. apply insert_desc_In in Hx.
      destruct Hx as [->|Hx]; [lra | apply Hall; exact Hx].
Qed.

Lemma sort_desc_sorted l :
  StronglySorted (fun a b : Z * R => (snd b <= snd a)%R) (MS.sort_desc l).
Proof.
  induction l as [|h r IH]; cbn [MS.sort_desc]; [constructor|].
  apply insert_desc_sorted. exact IH.
Qed.

Lemma filter_combine_In {A} (a : list A) (b : list bool) x :
  In x (map fst (filter snd (combine a b))) -> In x a.
Proof.
  rewrite in_map_iff. intros ((y, c) & E & H). cbn [fst] in E. subst y.
  apply filter_In in H. destruct H as [H _]. apply in_combine_l in H. exact H.
Qed.

Lemma nucleus_removed_spares_first logits top_p p0 rest :
  MS.sort_desc (MS.enumerate logits) = p0 :: rest ->
  forall i, In i (MS.nucleus_removed logits top_p) -> In i (map fst rest).
Proof.
  intros E i. unfold MS.nucleus_removed. cbv zeta. rewrite E.
  cbn [map combine filter snd]. apply filter_combine_In.
Qed.

Lemma sum_R_nonneg w : Forall (fun x => (0 <= x)%R) w -> (0 <= MS.sum_R w)%R.
Proof.
  induction 1 as [|x r Hx _ IH]; unfold MS.sum_R in *; simpl; lra.
Qed.

Lemma sum_R_pos w y :
  Forall (fun x => (0 <= x)%R) w -> In y w -> (0 < y)%R -> (0 < MS.sum_R w)%R.
Proof.
  induction 1 as [|x r Hx Hr IH]; intros Hin Hy; [destruct Hin|].
  pose proof (sum_R_nonneg r Hr) as Hs. unfold MS.sum_R in *. simpl.
  destruct Hin as [->|Hin]; [lra|]. specialize (IH Hin Hy). lra.
Qed.

Lemma sum_R_scale s w : MS.sum_R (map (fun x => (x / s)%R) w) = (MS.sum_R w / s)%R.
Proof.
  induction w as [|x r IH]; unfold MS.sum_R in *; simpl; [lra|]. rewrite IH. lra.
Qed.

Lemma softmax_masked_distribution (l : list (option R)) (x : R) :
  In (Some x) l ->
  Forall (fun p => (0 <= p)%R) (MS.softmax_masked l) /\
  MS.sum_R (MS.softmax_masked l) = 1%R.
Proof.
  intros Hin. unfold MS.softmax_masked. cbv zeta.
  set (w := map (fun o : option R => match o with Some x => exp x | None => 0%R end) l).
  assert (Hw : Forall (fun x => (0 <= x)%R) w).
  { unfold w. rewrite Forall_forall. intros y Hy. apply in_map_iff in Hy.
    destruct Hy as ([z|] & <- & _); [pose proof (exp_pos z)|]; lra. }
  assert (Hs : (0 < MS.sum_R w)%R).
  { apply (sum_R_pos w (exp x) Hw); [|apply exp_pos].
    unfold w. apply in_map_iff. exists (Some x). auto. }
  split.
  - rewrite Forall_forall. intros p Hp. apply in_map_iff in Hp.
    destruct Hp as (y & <- & Hy). rewrite Forall_forall in Hw. specialize (Hw y Hy).
    apply Rmult_le_pos; [exact Hw|]. apply Rlt_le, Rinv_0_lt_compat. exact Hs.
  - rewrite sum_R_scale. field. lra.
Qed.

(** X20.  For a score vector that is not empty, the nucleus filter masks
    positions only: the vector keeps its length and a score that is kept is
    unchanged; a position holding a largest score is always kept, whatever
    [top_p]; so the probabilities computed from the filtered scores are not
    negative and sum to 1. *)
Theorem nucleus_filter_keeps_a_best_score (logits : list R) (top_p : R) :
  logits <> [] ->
  let filtered := MS.nucleus_filter logits top_p in
  length filtered = length logits /\
  (forall i x, nth_error filtered i = Some (Some x) -> nth_error logits i = Some x) /\
  (exists i x, nth_error filtered i = Some (Some x) /\
               Forall (fun y => (y <= x)%R) logits) /\
  Forall (fun p => (0 <= p)%R) (MS.softmax_masked filtered) /\
  MS.sum_R (MS.softmax_masked filtered) = 1%R.
Proof.
  intros Hne filtered.
  assert (Hlen : length filtered = length logits).
  { unfold filtered, MS.nucleus_filter. cbv zeta. rewrite length_map.
    apply enumerate_length. }
  assert (Hkept : forall i x, nth_error filtered i = Some (Some x) ->
                              nth_error logits i = Some x).
  { intros i x. unfold filtered, MS.nucleus_filter. cbv zeta.
    rewrite enumerate_nth_error. destruct (nth_error logits i) as [y|]; [|discriminate].
    cbn [option_map fst snd]. destruct (existsb _ _); [discriminate|].
    intros H. inversion H. reflexivity. }
  assert (Hbest : exists i x, nth_error filtered i = Some (Some x) /\
                              Forall (fun y => (y <= x)%R) logits).
  { destruct (MS.sort_desc (MS.enumerate logits)) as [|[i0 x0] rest] eqn:E.
    - exfalso. destruct logits as [|y r]; [contradiction|].
      assert (Hin : In (0, y) (MS.enumerate (y :: r)))
        by (apply enumerate_In; exists 0%nat; auto).
      apply (proj2 (sort_desc_In _ _)) in Hin. rewrite E in Hin. destruct Hin.
    - assert (Hin0 : In (i0, x0) (MS.enumerate logits))
        by (apply (proj1 (sort_desc_In _ _)); rewrite E; left; reflexivity).
      apply enumerate_In in Hin0. destruct Hin0 as (k & -> & Hk).
      pose proof (sort_desc_NoDup _ (enumerate_fst_NoDup logits)) as Hnd.
      pose proof (sort_desc_sorted (MS.enumerate logits)) as Hso.
      rewrite E in Hnd, Hso. cbn [map fst] in Hnd.
      inversion Hnd as [|a b Hfresh _]; subst.
      inversion Hso as [|a b _ Hmax]; subst.
      exists k, x0. split.
      + unfold filtered, MS.nucleus_filter. cbv zeta.
        rewrite enumerate_nth_error, Hk. cbn [option_map fst snd].
        destruct (existsb (Z.eqb (Z.of_nat k)) (MS.nucleus_removed logits top_p)) eqn:Ex;
          [|reflexivity].
        apply existsb_eqb_In in Ex.
        apply (nucleus_removed_spares_first logits top_p _ _ E) in Ex. contradiction.
      + rewrite Forall_forall. intros y Hy. apply In_nth_error in Hy.
        destruct Hy as (j & Hj).
        assert (Hin : In (Z.of_nat j, y) (MS.enumerate logits))
          by (apply enumerate_In; exists j; auto).
        apply (proj2 (sort_desc_In _ _)) in Hin. rewrite E in Hin.
        destruct Hin as [Heq|Hin].
        * inversion Heq; subst. lra.
        * rewrite Forall_forall in Hmax. apply (Hmax _ Hin). }
  split; [exact Hlen|]. split; [exact Hkept|]. split; [exact Hbest|].
  destruct Hbest as (i & x & Hi & _).
  apply (softmax_masked_distribution filtered x). apply (nth_error_In _ i). exact Hi.
Qed.

Lemma nucleus_filter_keeps_a_best_score_witness :
  MS.sum_R (MS.softmax_masked (MS.nucleus_filter [1; 3; 2]%R (9 / 10)%R)) = 1%R.
Proof.
  apply (nucleus_filter_keeps_a_best_score [1; 3; 2]%R (9 / 10)%R). discriminate.
Defined.

(** *** The stream and the batch generation *)

Section StreamFacts.
Variable cfg : Config.
Variable scfg : SamplingConfig.
Variable enc : string -> list Z.
Variable dec : list Z -> string.
Variable model : list Z -> list MS.float.
Variable RNG : Type.
Variable multinomial : list R -> RNG -> Z * RNG.

Lemma len_snoc {A} (l : list A) (x : A) : MS.len (l ++ [x]) = MS.len l + 1.
Proof. unfold MS.len. rewrite length_app. simpl. lia. Qed.

Lemma stream_loop_follows_generate_loop steps : forall pt idx gen T P g,
  exists new g',
    MS.generate_loop cfg scfg model multinomial steps idx gen T P g = (Ok (gen ++ new), g') /\
    MS.stream_loop cfg scfg dec model multinomial steps pt idx gen T P g
    = (Ok (token_events dec pt (MS.len gen) new ++ [final_event pt (MS.len (gen ++ new))]), g').
Proof.
  induction steps as [|n IH]; intros pt idx gen T P g;
    cbn [MS.generate_loop MS.stream_loop].
  - exists [], g. rewrite app_nil_r. split; reflexivity.
  - unfold bind at 1 2.
    destruct (sampling_step_ok cfg scfg model RNG multinomial idx gen T P g) as (tok & g1 & ->).
    destruct (tok =? GPT2_EOS_TOKEN_ID cfg).
    + exists [], g1. rewrite app_nil_r. split; reflexivity.
    + destruct (IH pt (idx ++ [tok]) (gen ++ [tok]) T P g1) as (new & g' & Hg & Hs).
      exists (tok :: new), g'. unfold bind, ret. rewrite Hg, Hs.
      rewrite <- app_assoc. cbn [app token_events]. rewrite len_snoc.
      split; reflexivity.
Qed.

Lemma generate_follows_stream self prompt max_tokens temperature top_p g :
  MS.is_loaded self = true ->
  exists ids g',
    MS.generate cfg scfg enc dec model multinomial self prompt max_tokens temperature top_p g
    = (Ok (MS._clean_response (dec ids), MS.len (enc prompt), MS.len ids), g') /\
    MS.generate_stream cfg scfg enc dec model multinomial self prompt max_tokens
      temperature top_p g
    = (Ok (token_events dec (MS.len (enc prompt)) 0 ids
           ++ [final_event (MS.len (enc prompt)) (MS.len ids)]), g') /\
    MS.len ids <= Z.max 0 (Py.int_or max_tokens (DEFAULT_MAX_TOKENS cfg)).
Proof.
  intros Hl. unfold MS.generate, MS.generate_stream. rewrite Hl.
  cbv beta iota zeta delta [negb bind ret].
  match goal with
  | |- context [MS.generate_loop _ _ _ _ ?n ?idx [] ?T ?P g] =>
      destruct (stream_loop_follows_generate_loop n (MS.len (MS.encode enc prompt)) idx [] T P g)
        as (ids & g' & Hg & Hs);
      destruct (generate_loop_bound cfg scfg model RNG multinomial n idx [] T P g)
        as (out & g2 & Hrun & Hb)
  end.
  exists ids, g'. cbn [app] in Hg. rewrite Hg, Hs. split; [reflexivity|].
  split; [reflexivity|].
  rewrite Hg in Hrun. assert (Hout : out = ids) by congruence. subst out.
  unfold MS.len. simpl in Hb. lia.
Qed.
End StreamFacts.

(** X21.  With the model loaded, [generate] and a drained [generate_stream]
    called with the same arguments from the same state of the random
    generator draw the same tokens and leave the generator in the same
    state: the stream yields one value for each token of the batch result,
    in order, with the text of that token alone and the running count of
    tokens, then one final value with the counts that [generate] returns.
    With the model not loaded both raise [RuntimeError] and draw nothing. *)
Theorem stream_yields_the_tokens_of_generate
    (cfg : Config) (scfg : SamplingConfig) (enc : string -> list Z) (dec : list Z -> string)
    (model : list Z -> list MS.float) (RNG : Type) (multinomial : list R -> RNG -> Z * RNG)
    (self : MS.t) (prompt : string) (max_tokens : option Z) (temperature top_p : option R)
    (g : RNG) :
  (MS.is_loaded self = true ->
   exists ids g',
     MS.generate cfg scfg enc dec model multinomial self prompt max_tokens temperature top_p g
     = (Ok (MS._clean_response (dec ids), MS.len (enc prompt), MS.len ids), g') /\
     MS.generate_stream cfg scfg enc dec model multinomial self prompt max_tokens
       temperature top_p g
     = (Ok (token_events dec (MS.len (enc prompt)) 0 ids
            ++ [final_event (MS.len (enc prompt)) (MS.len ids)]), g') /\
     MS.len ids <= Z.max 0 (Py.int_or max_tokens (DEFAULT_MAX_TOKENS cfg))) /\
  (MS.is_loaded self = false ->
   MS.generate cfg scfg enc dec model multinomial self prompt max_tokens temperature top_p g
   = (Raise (RuntimeError "Model not loaded"), g) /\
   MS.generate_stream cfg scfg enc dec model multinomial self prompt max_tokens
     temperature top_p g
   = (Raise (RuntimeError "Model not loaded"), g)).
Proof.
  split.
  - intros Hl.
    apply (generate_follows_stream cfg scfg enc dec model RNG multinomial self prompt
             max_tokens temperature top_p g Hl).
  - intros Hl. unfold MS.generate, MS.generate_stream. rewrite Hl. split; reflexivity.
Qed.

(** *** The prompt ids that enter the window *)

(** X22.  For [1 <= max_tokens] below the context window, the prompt ids
    kept for generation are the last [GPT2_BLOCK_SIZE - max_tokens] ids of
    the prompt, or all of them when the prompt is not longer than that; so
    the ids kept and the tokens to generate fit the window together. *)
Theorem truncate_input_keeps_last_ids
    (cfg : Config) (input_ids : list Z) (max_tokens : Z) :
  1 <= max_tokens < GPT2_BLOCK_SIZE cfg ->
  let room := GPT2_BLOCK_SIZE cfg - max_tokens in
  let kept := MS.truncate_input cfg input_ids max_tokens in
  kept = skipn (length input_ids - Z.to_nat room) input_ids /\
  MS.len kept = Z.min (MS.len input_ids) room /\
  (MS.len input_ids <= room -> kept = input_ids) /\
  MS.len kept + max_tokens <= GPT2_BLOCK_SIZE cfg.
Proof.
  intros H room kept.
  assert (Hk : kept = skipn (length input_ids - Z.to_nat room) input_ids).
  { unfold kept, MS.truncate_input. cbv zeta. fold room.
    destruct (Z.ltb_spec room (MS.len input_ids)) as [Hlt|Hge]; unfold MS.len in *.
    - unfold Py.slice_from. cbv zeta.
      destruct (Z.ltb_spec (- room) 0) as [_|Hn]; [|unfold room in Hn; lia].
      f_equal. unfold room in *. lia.
    - replace (length input_ids - Z.to_nat room)%nat with 0%nat by (unfold room in *; lia).
      reflexivity. }
  assert (Hl : MS.len kept = Z.min (MS.len input_ids) room).
  { rewrite Hk. unfold MS.len. rewrite length_skipn. unfold room. lia. }
  split; [exact Hk|]. split; [exact Hl|]. split.
  - intros Hfit. rewrite Hk. unfold MS.len in Hfit.
    replace (length input_ids - Z.to_nat room)%nat with 0%nat by (unfold room in *; lia).
    reflexivity.
  - rewrite Hl. unfold room. lia.
Qed.

Lemma truncate_input_keeps_last_ids_witness :
  MS.truncate_input default_config [15496; 11; 995] 1022 = [11; 995].
Proof.
  apply (truncate_input_keeps_last_ids default_config [15496; 11; 995] 1022).
  simpl. lia.
Defined.

(** *** Reading and clearing a conversation through the manager *)

Lemma on_store_run {A} (m : M CS.t A) w :
  CM.on_store m w
  = (fst (m (CM.store w)),
     {| CM.store := snd (m (CM.store w)); CM.search_service := CM.search_service w |}).
Proof. unfold CM.on_store, zoom. destruct (m (CM.store w)) as [r s]. reflexivity. Qed.

Lemma clear_forgets st sid k :
  NoDup (OrderedDict.keys (CS.sessions st)) ->
  stored_history k (snd (CS.clear sid st))
  = if String.eqb k sid then [] else stored_history k st.
Proof.
  intros Hnd. unfold stored_history.
  destruct (OrderedDict.contains sid (CS.sessions st)) eqn:Hc.
  - rewrite (clear_present st sid Hc). cbn [snd CS.set_sessions CS.sessions].
    destruct (String.eqb_spec k sid) as [->|Hne].
    + pose proof (not_In_keys_remove sid _ Hnd) as Hn.
      apply contains_false_In in Hn. apply getitem_None in Hn. rewrite Hn. reflexivity.
    + rewrite getitem_remove_other by exact Hne. reflexivity.
  - rewrite (clear_absent st sid Hc). cbn [snd].
    destruct (String.eqb_spec k sid) as [->|Hne]; [|reflexivity].
    apply getitem_None in Hc. rewrite Hc. reflexivity.
Qed.

(** X23.  For a session whose stored messages passed the validator,
    [get_context_token_count] raises nothing and returns 0 when the session
    holds no message, and otherwise the token count of the prompt without
    search results built from every stored message of the session: the
    history is not cut to the context budget.  The messages of every session
    and the search service are left as they were. *)
Theorem context_token_count_reads_whole_history
    (enc : string -> list Z) (w : CM.World) (sid : string) :
  NoDup (OrderedDict.keys (CS.sessions (CM.store w))) ->
  Forall validated (stored_history sid (CM.store w)) ->
  let history := stored_history sid (CM.store w) in
  exists n w',
    CM.get_context_token_count enc sid w = (Ok n, w') /\
    (history = [] -> n = 0) /\
    (history <> [] ->
     exists history_msgs,
       CM.split_turns history EmptyString [] = Ok (last_user_content EmptyString history, history_msgs) /\
       n = CM.count_tokens enc
             (CM.ungrounded_template (CM._build_history_context history_msgs)
                (last_user_content EmptyString history))) /\
    0 <= n /\
    (forall k, stored_history k (CM.store w') = stored_history k (CM.store w)) /\
    CM.search_service w' = CM.search_service w.
Proof.
  intros Hnd Hv history.
  unfold CM.get_context_token_count. unfold bind at 1. rewrite on_store_run.
  rewrite (get_returns_stored (CM.store w) sid Hnd). subst history.
  set (w' := {| CM.store := snd (CS.get sid (CM.store w));
                CM.search_service := CM.search_service w |}).
  assert (Hkeep : forall k, stored_history k (CM.store w') = stored_history k (CM.store w)).
  { intros k. apply (get_keeps_history (CM.store w) sid k Hnd). }
  destruct (stored_history sid (CM.store w)) as [|m rest] eqn:Eh.
  - exists 0, w'. unfold ret. split; [reflexivity|]. split; [reflexivity|].
    split; [intros H; contradiction|]. split; [lia|]. split; [exact Hkeep | reflexivity].
  - destruct (split_turns_keeps_turns (m :: rest) EmptyString [] Hv (or_introl eq_refl))
      as (h & Hsplit & _).
    unfold bind, CM._build_prompt. rewrite Hsplit. cbn [CM.lift_result]. unfold ret.
    eexists _, w'. split; [reflexivity|]. split; [discriminate|].
    split; [intros _; exists h; split; reflexivity|].
    split; [apply count_tokens_nonneg|]. split; [exact Hkeep | reflexivity].
Qed.

Lemma context_token_count_reads_whole_history_witness :
  exists n w',
    CM.get_context_token_count char_codec "s1" world_after_hello = (Ok n, w') /\
    0 <= n /\
    CM.search_service w' = CM.search_service world_after_hello.
Proof.
  destruct (context_token_count_reads_whole_history char_codec world_after_hello "s1")
    as (n & w' & H1 & _ & _ & H2 & _ & H3).
  - simpl. constructor; [simpl; tauto | constructor].
  - repeat constructor.
  - exists n, w'. split; [exact H1|]. split; [exact H2 | exact H3].
Defined.

(** X24.  [clear_conversation] reports whether the session was stored and
    raises nothing; afterwards [get_conversation] returns no message for it,
    [get_context_token_count] returns 0 and a second [clear_conversation]
    reports [False], each without a change of state, while every other
    session keeps its messages. *)
Theorem clear_conversation_forgets_session
    (enc : string -> list Z) (w : CM.World) (sid : string) :
  NoDup (OrderedDict.keys (CS.sessions (CM.store w))) ->
  exists w',
    CM.clear_conversation sid w
    = (Ok (OrderedDict.contains sid (CS.sessions (CM.store w))), w') /\
    CM.get_conversation sid w' = (Ok [], w') /\
    CM.get_context_token_count enc sid w' = (Ok 0, w') /\
    CM.clear_conversation sid w' = (Ok false, w') /\
    (forall k, k <> sid ->
               stored_history k (CM.store w') = stored_history k (CM.store w)) /\
    CM.search_service w' = CM.search_service w.
Proof.
  intros Hnd.
  set (st' := snd (CS.clear sid (CM.store w))).
  exists {| CM.store := st'; CM.search_service := CM.search_service w |}.
  assert (Hgone : OrderedDict.contains sid (CS.sessions st') = false).
  { unfold st'. destruct (OrderedDict.contains sid (CS.sessions (CM.store w))) eqn:Hc.
    - rewrite (clear_present _ sid Hc). cbn [snd CS.set_sessions CS.sessions].
      apply contains_false_In. apply not_In_keys_remove. exact Hnd.
    - rewrite (clear_absent _ sid Hc). exact Hc. }
  split; [|split; [|split; [|split; [|split]]]].
  - unfold CM.clear_conversation. rewrite on_store_run. fold st'. f_equal.
    destruct (OrderedDict.contains sid (CS.sessions (CM.store w))) eqn:Hc.
    + rewrite (clear_present _ sid Hc). reflexivity.
    + rewrite (clear_absent _ sid Hc). reflexivity.
  - unfold CM.get_conversation. rewrite on_store_run. cbn [CM.store CM.search_service].
    rewrite (get_absent st' sid Hgone). reflexivity.
  - unfold CM.get_context_token_count. unfold bind. rewrite on_store_run.
    cbn [CM.store CM.search_service]. rewrite (get_absent st' sid Hgone). reflexivity.
  - unfold CM.clear_conversation. rewrite on_store_run. cbn [CM.store CM.search_service].
    rewrite (clear_absent st' sid Hgone). reflexivity.
  - intros k Hne. cbn [CM.store]. unfold st'. rewrite (clear_forgets _ sid k Hnd).
    destruct (String.eqb_spec k sid); [contradiction | reflexivity].
  - reflexivity.
Qed.

Lemma clear_conversation_forgets_session_witness :
  exists w',
    CM.clear_conversation "s1" world_after_hello = (Ok true, w') /\
    CM.get_conversation "s1" w' = (Ok [], w').
Proof.
  destruct (clear_conversation_forgets_session char_codec world_after_hello "s1")
    as (w' & H1 & H2 & _).
  - simpl. constructor; [simpl; tauto | constructor].
  - exists w'. split; [exact H1 | exact H2].
Defined.
